(** * A shallow embedding of the recommendation API

    The development follows the layout of the application:
    - [Py]: the few Python built-ins the routers rely on (string methods,
      truthiness, dictionaries produced by [.dict()]);
    - the table classes of [app/models.py] and the request schemas of
      [app/schemas.py];
    - [Session]: the relational store seen through a SQLModel session, with the
      uniqueness constraints the models declare;
    - the queries of [app/crud.py];
    - the route handlers of [app/routers/recommendations.py],
      [app/routers/comments.py] and [app/routers/reactions.py];
    - the listings of [app/crud.py] with the read routes, and the e-mail
      validator of [app/schemas.py];
    - the theorems about ownership, existence, reference-data reuse,
      reactions, partial updates and timestamps, followed by those about
      listings, what each write stores and leaves alone, the invariants of
      the store, and the validator. *)

From Stdlib Require Import Ascii String.
From stdpp Require Import gmap strings list fin_maps pretty sorting.

Local Open Scope Z_scope.

(** ** Python built-ins *)

Module Py.

(** [str.isspace] on one character. Strings are sequences of code points
    below 256; in that range Python treats exactly these as whitespace. *)
Definition isspace (c : ascii) : bool :=
  let n := N_of_ascii c in
  ((9 <=? n) && (n <=? 13) || (28 <=? n) && (n <=? 32)
   || (n =? 133) || (n =? 160))%N.

Fixpoint lstrip (s : string) : string :=
  match s with
  | EmptyString => EmptyString
  | String c s' => if isspace c then lstrip s' else s
  end.

Definition rstrip (s : string) : string :=
  String.rev (lstrip (String.rev s)).

(** [s.strip()] *)
Definition strip (s : string) : string := rstrip (lstrip s).

(** [s.replace(old, new)] for one-character [old] and [new]. *)
Fixpoint replace (old new : ascii) (s : string) : string :=
  match s with
  | EmptyString => EmptyString
  | String c s' =>
      String (if bool_decide (c = old) then new else c) (replace old new s')
  end.

Definition isupper (c : ascii) : bool :=
  let n := N_of_ascii c in
  ((65 <=? n) && (n <=? 90) || (192 <=? n) && (n <=? 214)
   || (216 <=? n) && (n <=? 222))%N.

Definition lower_char (c : ascii) : ascii :=
  if isupper c then ascii_of_N (N_of_ascii c + 32) else c.

(** [s.lower()] *)
Fixpoint lower (s : string) : string :=
  match s with
  | EmptyString => EmptyString
  | String c s' => String (lower_char c) (lower s')
  end.

(** The values that occur in the dictionaries built from request bodies. *)
Inductive value :=
| None_
| Str (s : string)
| List (l : list string).

(** Truth value testing, as in [if v:]. *)
Definition truthy (v : value) : bool :=
  match v with
  | None_ => false
  | Str s => bool_decide (s ≠ "")
  | List l => bool_decide (l ≠ [])
  end.

(** [d.get(k)] *)
Definition get (d : gmap string value) (k : string) : value :=
  default None_ (d !! k).

End Py.

(** ** HTTP outcomes *)

Definition HTTP_200_OK : Z := 200.
Definition HTTP_201_CREATED : Z := 201.
Definition HTTP_204_NO_CONTENT : Z := 204.
Definition HTTP_400_BAD_REQUEST : Z := 400.
Definition HTTP_403_FORBIDDEN : Z := 403.
Definition HTTP_404_NOT_FOUND : Z := 404.
Definition HTTP_409_CONFLICT : Z := 409.
Definition HTTP_500_INTERNAL_SERVER_ERROR : Z := 500.

(** The only exception the storage model raises. *)
Inductive Exception :=
| IntegrityError.

(** What a route handler produces: a body returned with the route's status
    code, an [HTTPException] raised by the handler, or an exception nobody
    catches, which the framework reports as an internal server error. *)
Inductive Response (A : Type) :=
| Return (status_code : Z) (body : A)
| HTTPException (status_code : Z) (detail : string)
| Unhandled (e : Exception).
Arguments Return {A} status_code body.
Arguments HTTPException {A} status_code detail.
Arguments Unhandled {A} e.

Definition status {A} (r : Response A) : Z :=
  match r with
  | Return c _ => c
  | HTTPException c _ => c
  | Unhandled _ => HTTP_500_INTERNAL_SERVER_ERROR
  end.

(** ** app/models.py and app/schemas.py *)

(** Readings of [datetime.utcnow()]. *)
Definition datetime := Z.

(** Every table has an integer primary key [id]. A table is a finite map
    from that key to the remaining columns, so the records below list the
    columns other than [id]. *)

Module User.
(** [current_user] is always loaded from storage, so its [id] is set. *)
Record t := mk
  { id : Z; username : string; email : string; hashed_password : string }.
End User.

(** [Field(min_length=lo, max_length=hi)] on a string. *)
Definition length_between (lo hi : nat) (v : string) : bool :=
  bool_decide (lo ≤ String.length v ≤ hi)%nat.

Module FictionType.
Record t := mk { name : string; slug : string }.

(** [FictionTypeBase]: [name: str = Field(min_length=4, max_length=255)]
    and [slug: str = Field(min_length=4, max_length=300)]. *)
Definition name_ok (v : string) : bool := length_between 4 255 v.
Definition slug_ok (v : string) : bool := length_between 4 300 v.
End FictionType.

Module Tag.
Record t := mk { name : string }.

(** [TagBase]: [name: str = Field(max_length=255, min_length=4)]. *)
Definition name_ok (v : string) : bool := length_between 4 255 v.
End Tag.

Module Recommendation.
Record t := mk
  { title : string;
    short_description : string;
    opinion : string;
    published : datetime;
    updated : option datetime;
    user_id : Z;
    fiction_type_id : Z }.

Definition set_title (v : string) (r : t) : t :=
  mk v (short_description r) (opinion r) (published r) (updated r)
     (user_id r) (fiction_type_id r).
Definition set_short_description (v : string) (r : t) : t :=
  mk (title r) v (opinion r) (published r) (updated r)
     (user_id r) (fiction_type_id r).
Definition set_opinion (v : string) (r : t) : t :=
  mk (title r) (short_description r) v (published r) (updated r)
     (user_id r) (fiction_type_id r).
Definition set_updated (v : option datetime) (r : t) : t :=
  mk (title r) (short_description r) (opinion r) (published r) v
     (user_id r) (fiction_type_id r).
Definition set_fiction_type_id (v : Z) (r : t) : t :=
  mk (title r) (short_description r) (opinion r) (published r) (updated r)
     (user_id r) v.
End Recommendation.

Module Comment.
Record t := mk
  { content : string;
    published : datetime;
    updated : option datetime;
    user_id : Z;
    recommendation_id : Z }.

Definition set_content (v : string) (c : t) : t :=
  mk v (published c) (updated c) (user_id c) (recommendation_id c).
Definition set_updated (v : option datetime) (c : t) : t :=
  mk (content c) (published c) v (user_id c) (recommendation_id c).
End Comment.

Module Reaction.
Record t := mk
  { is_positive : bool;
    user_id : Z;
    recommendation_id : Z }.

Definition set_is_positive (v : bool) (r : t) : t :=
  mk v (user_id r) (recommendation_id r).
End Reaction.

(** [Field(default=datetime.utcnow())] is an expression of the class body:
    it is evaluated when [app/models.py] is imported, once for
    [Recommendation] and once for [Comment]. [import_models] takes the two
    clock readings of those evaluations; the result is fixed for the life
    of the process. *)
Record Models := {
  Recommendation_published_default : datetime;
  Comment_published_default : datetime
}.

Definition import_models (utcnow_1 utcnow_2 : datetime) : Models :=
  {| Recommendation_published_default := utcnow_1;
     Comment_published_default := utcnow_2 |}.

(** Request schemas. *)

Module RecommendationCreate.
Record t := mk
  { title : string;
    short_description : string;
    opinion : string;
    fiction_type : string;
    tags : list string }.

(** The constraints the schema declares: [title] has [max_length=255],
    [fiction_type] has [min_length=4] and [max_length=255], [tags] has
    [min_items=1]. A body that fails them is answered 422 by the framework
    and never reaches the handler. *)
Definition valid (data : t) : bool :=
  length_between 0 255 (title data)
  && length_between 4 255 (fiction_type data)
  && bool_decide (1 ≤ length (tags data))%nat.
End RecommendationCreate.

(** A field of [RecommendationUpdate] is either left out of the request
    body or set, possibly to [null]. *)
Inductive Field (A : Type) :=
| Unset
| Provided (v : option A).
Arguments Unset {A}.
Arguments Provided {A} v.

Module RecommendationUpdate.
Record t := mk
  { title : Field string;
    short_description : Field string;
    opinion : Field string;
    fiction_type : Field string;
    tags : Field (list string) }.

Definition dict_entry {A} (k : string) (inj : A → Py.value) (f : Field A)
    (d : gmap string Py.value) : gmap string Py.value :=
  match f with
  | Unset => d
  | Provided None => <[k := Py.None_]> d
  | Provided (Some v) => <[k := inj v]> d
  end.

(** [data.dict(exclude_unset=True)] *)
Definition dict_exclude_unset (data : t) : gmap string Py.value :=
  dict_entry "title" Py.Str (title data)
    (dict_entry "short_description" Py.Str (short_description data)
      (dict_entry "opinion" Py.Str (opinion data)
        (dict_entry "fiction_type" Py.Str (fiction_type data)
          (dict_entry "tags" Py.List (tags data) ∅)))).

(** A constraint of a field bears on the value sent; a field left out or
    sent as [null] passes. *)
Definition field_ok {A} (p : A → bool) (f : Field A) : bool :=
  match f with
  | Provided (Some v) => p v
  | _ => true
  end.

(** The constraints the schema declares: [title] has [max_length=255],
    [fiction_type] has [min_length=4] and [max_length=255], [tags] has
    [min_items=1]. A body that fails them is answered 422 by the framework
    and never reaches the handler. *)
Definition valid (data : t) : bool :=
  field_ok (length_between 0 255) (title data)
  && field_ok (length_between 4 255) (fiction_type data)
  && field_ok (λ l, bool_decide (1 ≤ length l)%nat) (tags data).
End RecommendationUpdate.

Module CommentCreate.
Record t := mk { content : string }.
End CommentCreate.

Module CommentUpdate.
Record t := mk { content : string }.

(** [data.dict()] *)
Definition dict (data : t) : gmap string Py.value :=
  {[ "content" := Py.Str (content data) ]}.
End CommentUpdate.

Module ReactionCreate.
Record t := mk { is_positive : bool }.
End ReactionCreate.

Module ReactionUpdate.
Record t := mk { is_positive : bool }.
End ReactionUpdate.

(** ** The store behind a session *)

(** An ORM object is either persistent (it has a row, hence an [id]) or
    constructed in Python and not yet inserted. A table class does not
    raise when a value fails the constraints of its field: it leaves the
    attribute out. What the constructor returns is then either pending,
    with all the columns of a row, or incomplete: an object that lacks a
    column the table requires. *)
Inductive Object (A : Type) :=
| Persistent (id : Z) (row : A)
| Pending (row : A)
| Incomplete.
Arguments Persistent {A} id row.
Arguments Pending {A} row.
Arguments Incomplete {A}.

Definition row_of {A} (o : Object A) : option A :=
  match o with
  | Persistent _ row => Some row
  | Pending row => Some row
  | Incomplete => None
  end.

(** [Tag(name=name)] *)
Definition new_Tag (name : string) : Object Tag.t :=
  if Tag.name_ok name then Pending (Tag.mk name) else Incomplete.

(** [FictionType(name=name, slug=slug)] *)
Definition new_FictionType (name slug : string) : Object FictionType.t :=
  if FictionType.name_ok name && FictionType.slug_ok slug
  then Pending (FictionType.mk name slug)
  else Incomplete.

Module Session.
(** One field per table of [app/models.py] that the three routers read or
    write (the [user] table is not among them: the acting user reaches the
    handlers already loaded, as [current_user]).
    [tagged_recommendations] is the link table [RecommendationTagLink]:
    its two columns together are its primary key, so it is a set of pairs
    [(recommendation_id, tag_id)]. *)
Record t := mk
  { fiction_type : gmap Z FictionType.t;
    tag : gmap Z Tag.t;
    recommendation : gmap Z Recommendation.t;
    tagged_recommendations : gset (Z * Z);
    comment : gmap Z Comment.t;
    reaction : gmap Z Reaction.t }.

Definition empty : t := mk ∅ ∅ ∅ ∅ ∅ ∅.

Definition with_fiction_type (v : gmap Z FictionType.t) (s : t) : t :=
  mk v (tag s) (recommendation s) (tagged_recommendations s) (comment s)
     (reaction s).
Definition with_tag (v : gmap Z Tag.t) (s : t) : t :=
  mk (fiction_type s) v (recommendation s) (tagged_recommendations s)
     (comment s) (reaction s).
Definition with_recommendation (v : gmap Z Recommendation.t) (s : t) : t :=
  mk (fiction_type s) (tag s) v (tagged_recommendations s) (comment s)
     (reaction s).
Definition with_tagged_recommendations (v : gset (Z * Z)) (s : t) : t :=
  mk (fiction_type s) (tag s) (recommendation s) v (comment s) (reaction s).
Definition with_comment (v : gmap Z Comment.t) (s : t) : t :=
  mk (fiction_type s) (tag s) (recommendation s) (tagged_recommendations s) v
     (reaction s).
Definition with_reaction (v : gmap Z Reaction.t) (s : t) : t :=
  mk (fiction_type s) (tag s) (recommendation s) (tagged_recommendations s)
     (comment s) v.

(** [session.exec(select(T).where(p)).first()]: some row that satisfies
    [p], if there is one. Which one the engine returns when several match
    is its own affair; here it is the first in the map's enumeration. *)
Definition first {A} (p : Z → A → bool) (table : gmap Z A) : option (Z * A) :=
  head (filter (λ kv, p kv.1 kv.2 = true) (map_to_list table)).

(** The key an auto-incremented primary key column gives to the next row. *)
Definition next_id {A} (table : gmap Z A) : Z :=
  1 + foldr Z.max 0 (map_to_list table).*1.

(** *** Flushing pending objects

    Each insertion checks the uniqueness constraints declared on the table
    ([unique=True] on [Tag.name], [FictionType.name] and
    [FictionType.slug]; the composite primary key of the link table; the
    [UniqueConstraint] on [Reaction]) and that no required column is
    missing. [None] stands for the [IntegrityError] the engine raises; the
    transaction is then lost as a whole. *)

Definition flush_fiction_type (o : Object FictionType.t) (s : t)
    : option (Z * t) :=
  match o with
  | Persistent id _ => Some (id, s)
  | Pending row =>
      match first (λ _ r, bool_decide (FictionType.name r = FictionType.name row
                                       ∨ FictionType.slug r = FictionType.slug row))
                  (fiction_type s) with
      | Some _ => None
      | None =>
          let id := next_id (fiction_type s) in
          Some (id, with_fiction_type (<[id := row]> (fiction_type s)) s)
      end
  | Incomplete => None
  end.

Definition flush_tag (o : Object Tag.t) (s : t) : option (Z * t) :=
  match o with
  | Persistent id _ => Some (id, s)
  | Pending row =>
      match first (λ _ r, bool_decide (Tag.name r = Tag.name row)) (tag s) with
      | Some _ => None
      | None =>
          let id := next_id (tag s) in
          Some (id, with_tag (<[id := row]> (tag s)) s)
      end
  | Incomplete => None
  end.

Fixpoint flush_tags (os : list (Object Tag.t)) (s : t) : option (list Z * t) :=
  match os with
  | [] => Some ([], s)
  | o :: os' =>
      '(id, s1) ← flush_tag o s;
      '(ids, s2) ← flush_tags os' s1;
      Some (id :: ids, s2)
  end.

(** One [INSERT] into the link table per element of the collection. *)
Fixpoint insert_links (recommendation_id : Z) (tag_ids : list Z)
    (links : gset (Z * Z)) : option (gset (Z * Z)) :=
  match tag_ids with
  | [] => Some links
  | tag_id :: tag_ids' =>
      if bool_decide ((recommendation_id, tag_id) ∈ links) then None
      else insert_links recommendation_id tag_ids'
             ({[ (recommendation_id, tag_id) ]} ∪ links)
  end.

(** The tags linked to a recommendation. *)
Definition linked_tags (recommendation_id : Z) (links : gset (Z * Z))
    : list Z :=
  (filter (λ p, p.1 = recommendation_id) (elements links)).*2.

(** Replacing the [tags] collection of a persistent recommendation: links
    to tags that left the collection are deleted, tags that were not linked
    before are inserted (once per occurrence), the others are left alone. *)
Definition replace_links (recommendation_id : Z) (tag_ids : list Z)
    (links : gset (Z * Z)) : option (gset (Z * Z)) :=
  let old := linked_tags recommendation_id links in
  let kept :=
    filter (λ p, ¬ (p.1 = recommendation_id ∧ p.2 ∉ tag_ids)) links in
  insert_links recommendation_id (filter (λ i, i ∉ old) tag_ids) kept.

(** [session.delete(recommendation)]: the relationships [comments] and
    [reactions] are declared with [cascade="delete"], and the rows of the
    link table go with the recommendation. *)
Definition delete_recommendation (recommendation_id : Z) (s : t) : t :=
  mk (fiction_type s) (tag s)
     (delete recommendation_id (recommendation s))
     (filter (λ p, p.1 ≠ recommendation_id) (tagged_recommendations s))
     (filter (λ kv, Comment.recommendation_id kv.2 ≠ recommendation_id)
             (comment s))
     (filter (λ kv, Reaction.recommendation_id kv.2 ≠ recommendation_id)
             (reaction s)).

(** Inserting a reaction, under [user_recommendation_uc]. *)
Definition insert_reaction (row : Reaction.t) (s : t) : option (Z * t) :=
  match first (λ _ r, bool_decide
                 (Reaction.user_id r = Reaction.user_id row
                  ∧ Reaction.recommendation_id r = Reaction.recommendation_id row))
              (reaction s) with
  | Some _ => None
  | None =>
      let id := next_id (reaction s) in
      Some (id, with_reaction (<[id := row]> (reaction s)) s)
  end.

Definition insert_comment (row : Comment.t) (s : t) : Z * t :=
  let id := next_id (comment s) in
  (id, with_comment (<[id := row]> (comment s)) s).
End Session.

(** ** app/crud.py *)

(** The integers a key column holds. The ids of a path are unbounded Python
    integers; binding one outside this range to a statement is refused by
    the driver with an [OverflowError], which no handler catches. The
    look-ups below are the queries on the ids that can be bound: what is
    proved about an id that is not in the store is proved for the ids in
    this range. *)
Definition int64 (n : Z) : Prop := - 2 ^ 63 ≤ n < 2 ^ 63.

Definition get_recommendation_by_id (session : Session.t)
    (recommendation_id : Z) : option Recommendation.t :=
  Session.recommendation session !! recommendation_id.

Definition get_comment_by_id_and_recommendation_id (session : Session.t)
    (recommendation_id comment_id : Z) : option Comment.t :=
  snd <$> Session.first
    (λ id c, bool_decide (Comment.recommendation_id c = recommendation_id
                          ∧ id = comment_id))
    (Session.comment session).

Definition get_reaction_by_recommendation_id_and_user_id (session : Session.t)
    (recommendation_id user_id : Z) : option Reaction.t :=
  snd <$> Session.first
    (λ _ r, bool_decide (Reaction.recommendation_id r = recommendation_id
                         ∧ Reaction.user_id r = user_id))
    (Session.reaction session).

Definition get_reaction_by_id_and_recommendation_id (session : Session.t)
    (recommendation_id reaction_id : Z) : option Reaction.t :=
  snd <$> Session.first
    (λ id r, bool_decide (Reaction.recommendation_id r = recommendation_id
                          ∧ id = reaction_id))
    (Session.reaction session).

(** ** app/routers/recommendations.py *)

Definition not_found_recommendation {A} (recommendation_id : Z) : Response A :=
  HTTPException HTTP_404_NOT_FOUND
    ("Recommendation with id " +:+ pretty recommendation_id +:+ " was not found").

Definition save_tag (session : Session.t) (tag : string) : Object Tag.t :=
  let tag := Py.lower (Py.replace " " "-" (Py.strip tag)) in
  let existing_tag :=
    Session.first (λ _ r, bool_decide (Tag.name r = tag)) (Session.tag session) in
  match existing_tag with
  | Some (id, row) => Persistent id row
  | None => new_Tag tag
  end.

(** The loop of [save_tags] appends one object per element of [tags]. *)
Definition save_tags (session : Session.t) (tags : list string)
    : list (Object Tag.t) :=
  save_tag session <$> tags.

Definition save_fiction_type (session : Session.t) (fiction_type : string)
    : Object FictionType.t :=
  let fiction_type := Py.lower (Py.strip fiction_type) in
  let existing_fiction_type_object :=
    Session.first (λ _ r, bool_decide (FictionType.name r = fiction_type))
                  (Session.fiction_type session) in
  match existing_fiction_type_object with
  | Some (id, row) => Persistent id row
  | None =>
      let fiction_type_slug := Py.replace " " "-" fiction_type in
      new_FictionType fiction_type fiction_type_slug
  end.

(** [session.add(recommendation); session.commit()] for the object built by
    [post_recommendation]: the pending fiction type and tags are inserted
    with it. *)
Definition commit_new_recommendation (title short_description opinion : string)
    (published : datetime) (fiction_type : Object FictionType.t)
    (tags : list (Object Tag.t)) (user : User.t) (session : Session.t)
    : option (Z * Recommendation.t * Session.t) :=
  '(fiction_type_id, s1) ← Session.flush_fiction_type fiction_type session;
  '(tag_ids, s2) ← Session.flush_tags tags s1;
  let id := Session.next_id (Session.recommendation s2) in
  let row := Recommendation.mk title short_description opinion published None
               (User.id user) fiction_type_id in
  links ← Session.insert_links id tag_ids (Session.tagged_recommendations s2);
  Some (id, row,
        Session.with_tagged_recommendations links
          (Session.with_recommendation
             (<[id := row]> (Session.recommendation s2)) s2)).

(** The handler reads the store in [save_tags] and [save_fiction_type] and
    writes it in [session.commit()]. Requests are served concurrently, so
    another request may commit between the two: [seen] is the store the
    look-ups read, [session] the store the commit meets. *)
Definition post_recommendation_between (models : Models)
    (data : RecommendationCreate.t) (current_user : User.t)
    (seen session : Session.t)
    : Response (Z * Recommendation.t) * Session.t :=
  let tags := save_tags seen (RecommendationCreate.tags data) in
  let fiction_type :=
    save_fiction_type seen (RecommendationCreate.fiction_type data) in
  match commit_new_recommendation
          (RecommendationCreate.title data)
          (RecommendationCreate.short_description data)
          (RecommendationCreate.opinion data)
          (Recommendation_published_default models)
          fiction_type tags current_user session with
  | Some (id, recommendation, session') =>
      (Return HTTP_201_CREATED (id, recommendation), session')
  | None => (Unhandled IntegrityError, session)
  end.

(** A request served with no other write in between. *)
Definition post_recommendation (models : Models)
    (data : RecommendationCreate.t) (current_user : User.t)
    (session : Session.t) : Response (Z * Recommendation.t) * Session.t :=
  post_recommendation_between models data current_user session session.

(** [session.add(recommendation); session.commit()] at the end of
    [update_recommendation]. *)
Definition commit_recommendation (recommendation_id : Z)
    (recommendation : Recommendation.t)
    (fiction_type : option (Object FictionType.t))
    (tags : option (list (Object Tag.t))) (session : Session.t)
    : option (Recommendation.t * Session.t) :=
  '(recommendation, s1) ←
    match fiction_type with
    | None => Some (recommendation, session)
    | Some o =>
        '(fiction_type_id, s) ← Session.flush_fiction_type o session;
        Some (Recommendation.set_fiction_type_id fiction_type_id recommendation, s)
    end;
  s2 ←
    match tags with
    | None => Some s1
    | Some os =>
        '(tag_ids, s) ← Session.flush_tags os s1;
        links ← Session.replace_links recommendation_id tag_ids
                  (Session.tagged_recommendations s);
        Some (Session.with_tagged_recommendations links s)
    end;
  Some (recommendation,
        Session.with_recommendation
          (<[recommendation_id := recommendation]> (Session.recommendation s2))
          s2).

(** The schema types every field: [title], [short_description], [opinion]
    and [fiction_type] hold a string or [None], [tags] a list or [None];
    the inner matches below only read the value at its type. *)
Definition update_recommendation (now : datetime) (recommendation_id : Z)
    (current_user : User.t) (data : RecommendationUpdate.t)
    (session : Session.t) : Response (Z * Recommendation.t) * Session.t :=
  match get_recommendation_by_id session recommendation_id with
  | None => (not_found_recommendation recommendation_id, session)
  | Some recommendation =>
    if bool_decide (Recommendation.user_id recommendation ≠ User.id current_user)
    then (HTTPException HTTP_403_FORBIDDEN
            ("User has no permission to update recommendation with id "
             +:+ pretty recommendation_id), session)
    else
      let data := RecommendationUpdate.dict_exclude_unset data in
      if bool_decide (data = ∅)
      then (HTTPException HTTP_400_BAD_REQUEST "No data provided", session)
      else
        let new_title := Py.get data "title" in
        let new_short_description := Py.get data "short_description" in
        let new_opinion := Py.get data "opinion" in
        let new_fiction_type := Py.get data "fiction_type" in
        let new_tags := Py.get data "tags" in
        let recommendation :=
          if Py.truthy new_title
          then match new_title with
               | Py.Str s => Recommendation.set_title s recommendation
               | _ => recommendation
               end
          else recommendation in
        let recommendation :=
          if Py.truthy new_short_description
          then match new_short_description with
               | Py.Str s => Recommendation.set_short_description s recommendation
               | _ => recommendation
               end
          else recommendation in
        let recommendation :=
          if Py.truthy new_opinion
          then match new_opinion with
               | Py.Str s => Recommendation.set_opinion s recommendation
               | _ => recommendation
               end
          else recommendation in
        let fiction_type :=
          if Py.truthy new_fiction_type
          then match new_fiction_type with
               | Py.Str s => Some (save_fiction_type session s)
               | _ => None
               end
          else None in
        let tags :=
          if Py.truthy new_tags
          then match new_tags with
               | Py.List l => Some (save_tags session l)
               | _ => None
               end
          else None in
        let recommendation := Recommendation.set_updated (Some now) recommendation in
        match commit_recommendation recommendation_id recommendation
                fiction_type tags session with
        | Some (recommendation, session') =>
            (Return HTTP_200_OK (recommendation_id, recommendation), session')
        | None => (Unhandled IntegrityError, session)
        end
  end.

Definition delete_recommendation (recommendation_id : Z)
    (current_user : User.t) (session : Session.t)
    : Response () * Session.t :=
  match get_recommendation_by_id session recommendation_id with
  | None => (not_found_recommendation recommendation_id, session)
  | Some recommendation =>
    if bool_decide (Recommendation.user_id recommendation ≠ User.id current_user)
    then (HTTPException HTTP_403_FORBIDDEN
            ("User has no permission to delete recommendation with id "
             +:+ pretty recommendation_id), session)
    else (Return HTTP_204_NO_CONTENT (),
          Session.delete_recommendation recommendation_id session)
  end.

(** ** app/routers/comments.py *)

Definition not_found_comment {A} (recommendation_id comment_id : Z)
    : Response A :=
  HTTPException HTTP_404_NOT_FOUND
    ("Comment with id " +:+ pretty comment_id
     +:+ " for recommendation with id " +:+ pretty recommendation_id
     +:+ " was not found").

Definition post_comment (models : Models) (recommendation_id : Z)
    (current_user : User.t) (data : CommentCreate.t) (session : Session.t)
    : Response (Z * Comment.t) * Session.t :=
  match get_recommendation_by_id session recommendation_id with
  | None => (not_found_recommendation recommendation_id, session)
  | Some recommendation =>
      let new_comment :=
        Comment.mk (CommentCreate.content data)
                   (Comment_published_default models) None
                   (User.id current_user) recommendation_id in
      let '(id, session') := Session.insert_comment new_comment session in
      (Return HTTP_201_CREATED (id, new_comment), session')
  end.

Definition update_comment (now : datetime) (recommendation_id comment_id : Z)
    (current_user : User.t) (data : CommentUpdate.t) (session : Session.t)
    : Response (Z * Comment.t) * Session.t :=
  match get_recommendation_by_id session recommendation_id with
  | None => (not_found_recommendation recommendation_id, session)
  | Some recommendation =>
    match get_comment_by_id_and_recommendation_id session
            recommendation_id comment_id with
    | None => (not_found_comment recommendation_id comment_id, session)
    | Some comment =>
      if bool_decide (Comment.user_id comment ≠ User.id current_user)
      then (HTTPException HTTP_403_FORBIDDEN
              ("User has no permission to update comment with id "
               +:+ pretty comment_id), session)
      else
        let data := CommentUpdate.dict data in
        let new_content := Py.get data "content" in
        let comment :=
          if Py.truthy new_content
          then match new_content with
               | Py.Str s => Comment.set_content s comment
               | _ => comment
               end
          else comment in
        let comment := Comment.set_updated (Some now) comment in
        (Return HTTP_200_OK (comment_id, comment),
         Session.with_comment
           (<[comment_id := comment]> (Session.comment session)) session)
    end
  end.

Definition delete_comment (recommendation_id comment_id : Z)
    (current_user : User.t) (session : Session.t)
    : Response () * Session.t :=
  match get_recommendation_by_id session recommendation_id with
  | None => (not_found_recommendation recommendation_id, session)
  | Some recommendation =>
    match get_comment_by_id_and_recommendation_id session
            recommendation_id comment_id with
    | None => (not_found_comment recommendation_id comment_id, session)
    | Some comment =>
      if bool_decide (Comment.user_id comment ≠ User.id current_user)
      then (HTTPException HTTP_403_FORBIDDEN
              ("User has no permission to delete comment with id "
               +:+ pretty comment_id), session)
      else (Return HTTP_204_NO_CONTENT (),
            Session.with_comment
              (delete comment_id (Session.comment session)) session)
    end
  end.

(** ** app/routers/reactions.py *)

Definition not_found_reaction {A} (recommendation_id reaction_id : Z)
    : Response A :=
  HTTPException HTTP_404_NOT_FOUND
    ("Reaction with id " +:+ pretty reaction_id
     +:+ " for recommendation with id " +:+ pretty recommendation_id
     +:+ " was not found").

(** The handler reads the store in its two look-ups and writes it in
    [session.commit()]; another request may commit between the two. As for
    [post_recommendation_between], [seen] is the store the look-ups read
    and [session] the store the commit meets. *)
Definition post_reaction_between (recommendation_id : Z)
    (current_user : User.t) (data : ReactionCreate.t)
    (seen session : Session.t)
    : Response (Z * Reaction.t) * Session.t :=
  match get_recommendation_by_id seen recommendation_id with
  | None => (not_found_recommendation recommendation_id, session)
  | Some recommendation =>
    match get_reaction_by_recommendation_id_and_user_id seen
            recommendation_id (User.id current_user) with
    | Some existing_reaction =>
        (HTTPException HTTP_409_CONFLICT
           ("User already has a reaction for recommendation with id "
            +:+ pretty recommendation_id
            +:+ ", creating another one will create conflict"), session)
    | None =>
        let new_reaction :=
          Reaction.mk (ReactionCreate.is_positive data)
                      (User.id current_user) recommendation_id in
        match Session.insert_reaction new_reaction session with
        | Some (id, session') =>
            (Return HTTP_201_CREATED (id, new_reaction), session')
        | None => (Unhandled IntegrityError, session)
        end
    end
  end.

(** A request served with no other write in between. *)
Definition post_reaction (recommendation_id : Z) (current_user : User.t)
    (data : ReactionCreate.t) (session : Session.t)
    : Response (Z * Reaction.t) * Session.t :=
  post_reaction_between recommendation_id current_user data session session.

(** [ReactionUpdate] has the single required field [is_positive], so
    [data.dict().get("is_positive")] is that field. *)
Definition update_reaction (recommendation_id reaction_id : Z)
    (current_user : User.t) (data : ReactionUpdate.t) (session : Session.t)
    : Response (Z * Reaction.t) * Session.t :=
  match get_recommendation_by_id session recommendation_id with
  | None => (not_found_recommendation recommendation_id, session)
  | Some recommendation =>
    match get_reaction_by_id_and_recommendation_id session
            recommendation_id reaction_id with
    | None => (not_found_reaction recommendation_id reaction_id, session)
    | Some reaction =>
      if bool_decide (Reaction.user_id reaction ≠ User.id current_user)
      then (HTTPException HTTP_403_FORBIDDEN
              ("User has no permission to update reaction with id "
               +:+ pretty reaction_id), session)
      else
        let new_is_positive := ReactionUpdate.is_positive data in
        let reaction := Reaction.set_is_positive new_is_positive reaction in
        (Return HTTP_200_OK (reaction_id, reaction),
         Session.with_reaction
           (<[reaction_id := reaction]> (Session.reaction session)) session)
    end
  end.

Definition delete_reaction (recommendation_id reaction_id : Z)
    (current_user : User.t) (session : Session.t)
    : Response () * Session.t :=
  match get_recommendation_by_id session recommendation_id with
  | None => (not_found_recommendation recommendation_id, session)
  | Some recommendation =>
    match get_reaction_by_id_and_recommendation_id session
            recommendation_id reaction_id with
    | None => (not_found_reaction recommendation_id reaction_id, session)
    | Some reaction =>
      if bool_decide (Reaction.user_id reaction ≠ User.id current_user)
      then (HTTPException HTTP_403_FORBIDDEN
              ("User has no permission to delete reaction with id "
               +:+ pretty reaction_id), session)
      else (Return HTTP_204_NO_CONTENT (),
            Session.with_reaction
              (delete reaction_id (Session.reaction session)) session)
    end
  end.

(** ** The mutating operations on owned resources *)

(** `PATCH`/`DELETE` of a recommendation, `PUT`/`DELETE` of a comment and of
    a reaction: the six routes that change or remove a resource somebody
    owns. *)
Inductive Mutation :=
| UpdateRecommendation (recommendation_id : Z) (data : RecommendationUpdate.t)
| DeleteRecommendation (recommendation_id : Z)
| UpdateComment (recommendation_id comment_id : Z) (data : CommentUpdate.t)
| DeleteComment (recommendation_id comment_id : Z)
| UpdateReaction (recommendation_id reaction_id : Z) (data : ReactionUpdate.t)
| DeleteReaction (recommendation_id reaction_id : Z).

(** The response without its body. *)
Definition outcome {A} (r : Response A * Session.t) : Response () * Session.t :=
  (match r.1 with
   | Return c _ => Return c ()
   | HTTPException c d => HTTPException c d
   | Unhandled e => Unhandled e
   end, r.2).

(** Routing of a mutation to its handler; [now] is the reading
    [datetime.utcnow()] gives while the request is served. *)
Definition mutate (now : datetime) (current_user : User.t) (m : Mutation)
    (session : Session.t) : Response () * Session.t :=
  match m with
  | UpdateRecommendation recommendation_id data =>
      outcome (update_recommendation now recommendation_id current_user data session)
  | DeleteRecommendation recommendation_id =>
      delete_recommendation recommendation_id current_user session
  | UpdateComment recommendation_id comment_id data =>
      outcome (update_comment now recommendation_id comment_id current_user data session)
  | DeleteComment recommendation_id comment_id =>
      delete_comment recommendation_id comment_id current_user session
  | UpdateReaction recommendation_id reaction_id data =>
      outcome (update_reaction recommendation_id reaction_id current_user data session)
  | DeleteReaction recommendation_id reaction_id =>
      delete_reaction recommendation_id reaction_id current_user session
  end.

(** The owner ([user_id]) of the resource a mutation addresses, read off
    the tables; [None] when there is no such resource. The path of a
    comment or reaction names its recommendation too: the resource exists
    when that recommendation does and the row with the given id belongs to
    it. *)
Definition owner (session : Session.t) (m : Mutation) : option Z :=
  match m with
  | UpdateRecommendation recommendation_id _
  | DeleteRecommendation recommendation_id =>
      Recommendation.user_id <$> Session.recommendation session !! recommendation_id
  | UpdateComment recommendation_id comment_id _
  | DeleteComment recommendation_id comment_id =>
      _ ← Session.recommendation session !! recommendation_id;
      c ← Session.comment session !! comment_id;
      if bool_decide (Comment.recommendation_id c = recommendation_id)
      then Some (Comment.user_id c) else None
  | UpdateReaction recommendation_id reaction_id _
  | DeleteReaction recommendation_id reaction_id =>
      _ ← Session.recommendation session !! recommendation_id;
      r ← Session.reaction session !! reaction_id;
      if bool_decide (Reaction.recommendation_id r = recommendation_id)
      then Some (Reaction.user_id r) else None
  end.

(** The detail of a refusal, "User has no permission to <verb> <kind> with
    id <id>", for the resource a mutation addresses. *)
Definition verb (m : Mutation) : string :=
  match m with
  | UpdateRecommendation _ _ | UpdateComment _ _ _ | UpdateReaction _ _ _ =>
      "update"
  | DeleteRecommendation _ | DeleteComment _ _ | DeleteReaction _ _ =>
      "delete"
  end.

Definition kind (m : Mutation) : string :=
  match m with
  | UpdateRecommendation _ _ | DeleteRecommendation _ => "recommendation"
  | UpdateComment _ _ _ | DeleteComment _ _ => "comment"
  | UpdateReaction _ _ _ | DeleteReaction _ _ => "reaction"
  end.

Definition target_id (m : Mutation) : Z :=
  match m with
  | UpdateRecommendation id _ | DeleteRecommendation id => id
  | UpdateComment _ id _ | DeleteComment _ id => id
  | UpdateReaction _ id _ | DeleteReaction _ id => id
  end.


Definition no_permission (m : Mutation) : string :=
  "User has no permission to " +:+ verb m +:+ " " +:+ kind m
  +:+ " with id " +:+ pretty (target_id m).

(** ** The requests that write *)

Inductive Request :=
| PostRecommendation (data : RecommendationCreate.t)
| PostComment (recommendation_id : Z) (data : CommentCreate.t)
| PostReaction (recommendation_id : Z) (data : ReactionCreate.t)
| Mutate (m : Mutation).

(** One request served from start to end. *)
Definition serve (models : Models) (now : datetime) (current_user : User.t)
    (request : Request) (session : Session.t) : Response () * Session.t :=
  match request with
  | PostRecommendation data =>
      outcome (post_recommendation models data current_user session)
  | PostComment recommendation_id data =>
      outcome (post_comment models recommendation_id current_user data session)
  | PostReaction recommendation_id data =>
      outcome (post_reaction recommendation_id current_user data session)
  | Mutate m => mutate now current_user m session
  end.

(** The stores a process can arrive at from the empty one, one request
    after the other. *)
Inductive reachable (models : Models) : Session.t → Prop :=
| reachable_empty : reachable models Session.empty
| reachable_serve now current_user request session :
    reachable models session →
    reachable models (serve models now current_user request session).2.

(** At most one reaction per user and recommendation. *)
Definition one_reaction_per_user (session : Session.t) : Prop :=
  ∀ i j r1 r2,
    Session.reaction session !! i = Some r1 →
    Session.reaction session !! j = Some r2 →
    Reaction.user_id r1 = Reaction.user_id r2 →
    Reaction.recommendation_id r1 = Reaction.recommendation_id r2 →
    i = j.

(** Every stored recommendation and comment carries the [published] value
    its class got at import. *)
Definition published_at_import (models : Models) (session : Session.t) : Prop :=
  (∀ i r, Session.recommendation session !! i = Some r →
          Recommendation.published r = Recommendation_published_default models)
  ∧ (∀ i c, Session.comment session !! i = Some c →
            Comment.published c = Comment_published_default models).

(** ** Present, absent and falsy fields of a partial update *)

(** What [data.dict(exclude_unset=True).get(k)] is for a field: its value,
    or [None] both when the field was left out and when it was sent as
    [null]. *)
Definition field_value {A} (inj : A → Py.value) (f : Field A) : Py.value :=
  match f with
  | Provided (Some v) => inj v
  | _ => Py.None_
  end.

(** A text field that the request body contains with a falsy value. *)
Definition present_but_falsy (f : Field string) : Prop :=
  f = Provided None ∨ f = Provided (Some "").

(** A value as far as an [if v:] guard lets it through. *)
Definition heeded (v : Py.value) : Py.value :=
  if Py.truthy v then v else Py.None_.

(** Two request bodies whose fields differ at most in being absent, [null]
    or empty. *)
Definition same_heeded (data data' : RecommendationUpdate.t) : Prop :=
  heeded (field_value Py.Str (RecommendationUpdate.title data))
  = heeded (field_value Py.Str (RecommendationUpdate.title data'))
  ∧ heeded (field_value Py.Str (RecommendationUpdate.short_description data))
    = heeded (field_value Py.Str (RecommendationUpdate.short_description data'))
  ∧ heeded (field_value Py.Str (RecommendationUpdate.opinion data))
    = heeded (field_value Py.Str (RecommendationUpdate.opinion data'))
  ∧ heeded (field_value Py.Str (RecommendationUpdate.fiction_type data))
    = heeded (field_value Py.Str (RecommendationUpdate.fiction_type data'))
  ∧ heeded (field_value Py.List (RecommendationUpdate.tags data))
    = heeded (field_value Py.List (RecommendationUpdate.tags data')).

(** ** The normalisation as the specification words it

    "Trim whitespace, collapse internal whitespace to a single separator,
    lower-case." [collapse_whitespace] writes one [sep] for every maximal
    run of whitespace; [in_run] tells whether the previous character was
    whitespace. *)
Fixpoint collapse_whitespace (sep : ascii) (in_run : bool) (s : string)
    : string :=
  match s with
  | EmptyString => EmptyString
  | String c s' =>
      if Py.isspace c
      then if in_run then collapse_whitespace sep true s'
           else String sep (collapse_whitespace sep true s')
      else String c (collapse_whitespace sep false s')
  end.

Definition spec_normalize (sep : ascii) (raw : string) : string :=
  Py.lower (collapse_whitespace sep false (Py.strip raw)).

(** The normalisations the routers apply. *)
Definition normalize_tag (tag : string) : string :=
  Py.lower (Py.replace " " "-" (Py.strip tag)).

Definition normalize_fiction_type (fiction_type : string) : string :=
  Py.lower (Py.strip fiction_type).

(** Strings made of whitespace only. *)
Fixpoint all_space (s : string) : bool :=
  match s with
  | EmptyString => true
  | String c s' => Py.isspace c && all_space s'
  end.

(** ** Listings: the rest of app/crud.py *)

Module Query.
(** [ORDER BY id ASC] on rows paired with their key. *)
Definition id_asc {A} (a b : Z * A) : Prop := a.1 ≤ b.1.

#[global] Instance id_asc_dec {A} (a b : Z * A) : Decision (id_asc a b) :=
  decide (a.1 ≤ b.1).

(** [select(T).where(p).order_by(r)]: the rows that satisfy [p], sorted by
    [r]. The orders used below tell any two rows apart (by id in the end),
    so the result does not depend on the map's enumeration. *)
Definition select {A} (p : Z * A → Prop) `{!∀ x, Decision (p x)}
    (r : relation (Z * A)) `{!∀ x y, Decision (r x y)}
    (table : gmap Z A) : list (Z * A) :=
  merge_sort r (filter p (map_to_list table)).

(** [.offset(offset).limit(limit)]: both are optional, and the routes only
    let positive values through ([Query(gt=0)]). *)
Definition page {A} (offset limit : option positive) (rows : list A) : list A :=
  let rows :=
    match offset with
    | Some o => drop (Pos.to_nat o) rows
    | None => rows
    end in
  match limit with
  | Some l => take (Pos.to_nat l) rows
  | None => rows
  end.
End Query.

Definition get_recommendation_by_id_with_tags_and_fiction_type
    (session : Session.t) (recommendation_id : Z) : option Recommendation.t :=
  snd <$> Session.first (λ id _, bool_decide (id = recommendation_id))
            (Session.recommendation session).




(** [ORDER BY published ASC] and [ORDER BY published DESC]. Rows of the
    same [published] come out in the order the engine reads the table,
    which is by ascending id. *)
Definition published_asc (a b : Z * Comment.t) : Prop :=
  Comment.published a.2 < Comment.published b.2
  ∨ (Comment.published a.2 = Comment.published b.2 ∧ a.1 ≤ b.1).

Definition published_desc (a b : Z * Comment.t) : Prop :=
  Comment.published b.2 < Comment.published a.2
  ∨ (Comment.published a.2 = Comment.published b.2 ∧ a.1 ≤ b.1).

#[global] Instance published_asc_dec a b : Decision (published_asc a b) :=
  decide (Comment.published a.2 < Comment.published b.2
          ∨ (Comment.published a.2 = Comment.published b.2 ∧ a.1 ≤ b.1)).

#[global] Instance published_desc_dec a b : Decision (published_desc a b) :=
  decide (Comment.published b.2 < Comment.published a.2
          ∨ (Comment.published a.2 = Comment.published b.2 ∧ a.1 ≤ b.1)).

Definition get_all_comments_for_recommendation (session : Session.t)
    (recommendation_id : Z) (by_published_date_descending : option bool)
    (offset limit : option positive) : list (Z * Comment.t) :=
  match by_published_date_descending with
  | None =>
      Query.page offset limit
        (Query.select
           (λ kv, Comment.recommendation_id kv.2 = recommendation_id)
           Query.id_asc (Session.comment session))
  | Some false =>
      Query.page offset limit
        (Query.select
           (λ kv, Comment.recommendation_id kv.2 = recommendation_id)
           published_asc (Session.comment session))
  | Some true =>
      Query.page offset limit
        (Query.select
           (λ kv, Comment.recommendation_id kv.2 = recommendation_id)
           published_desc (Session.comment session))
  end.

Definition get_all_reactions_for_recommendation (session : Session.t)
    (recommendation_id : Z) (is_positive : option bool)
    (offset limit : option positive) : list (Z * Reaction.t) :=
  match is_positive with
  | Some is_positive =>
      Query.page offset limit
        (Query.select
           (λ kv, Reaction.is_positive kv.2 = is_positive
                  ∧ Reaction.recommendation_id kv.2 = recommendation_id)
           Query.id_asc (Session.reaction session))
  | None =>
      Query.page offset limit
        (Query.select
           (λ kv, Reaction.recommendation_id kv.2 = recommendation_id)
           Query.id_asc (Session.reaction session))
  end.

(** ** The read routes *)

(** A read route commits nothing: it maps the store to a response. *)


Definition get_recommendation (recommendation_id : Z) (session : Session.t)
    : Response (Z * Recommendation.t) :=
  match get_recommendation_by_id_with_tags_and_fiction_type session
          recommendation_id with
  | None => not_found_recommendation recommendation_id
  | Some recommendation =>
      Return HTTP_200_OK (recommendation_id, recommendation)
  end.

Definition get_comments (recommendation_id : Z)
    (by_published_date_descending : option bool)
    (offset limit : option positive) (session : Session.t)
    : Response (list (Z * Comment.t)) :=
  match get_recommendation_by_id session recommendation_id with
  | None => not_found_recommendation recommendation_id
  | Some recommendation =>
      Return HTTP_200_OK
        (get_all_comments_for_recommendation session recommendation_id
           by_published_date_descending offset limit)
  end.

Definition get_comment (recommendation_id comment_id : Z)
    (session : Session.t) : Response (Z * Comment.t) :=
  match get_recommendation_by_id session recommendation_id with
  | None => not_found_recommendation recommendation_id
  | Some recommendation =>
    match get_comment_by_id_and_recommendation_id session
            recommendation_id comment_id with
    | None => not_found_comment recommendation_id comment_id
    | Some comment => Return HTTP_200_OK (comment_id, comment)
    end
  end.

Definition get_reactions (recommendation_id : Z) (is_positive : option bool)
    (offset limit : option positive) (session : Session.t)
    : Response (list (Z * Reaction.t)) :=
  match get_recommendation_by_id session recommendation_id with
  | None => not_found_recommendation recommendation_id
  | Some recommendation =>
      Return HTTP_200_OK
        (get_all_reactions_for_recommendation session recommendation_id
           is_positive offset limit)
  end.

Definition get_reaction (recommendation_id reaction_id : Z)
    (session : Session.t) : Response (Z * Reaction.t) :=
  match get_recommendation_by_id session recommendation_id with
  | None => not_found_recommendation recommendation_id
  | Some recommendation =>
    match get_reaction_by_id_and_recommendation_id session
            recommendation_id reaction_id with
    | None => not_found_reaction recommendation_id reaction_id
    | Some reaction => Return HTTP_200_OK (reaction_id, reaction)
    end
  end.

(** ** What the store satisfies between requests *)

(** An object a look-up returned is a row of the table it was read from;
    a pending object has no row yet. *)
Definition backed {A} (table : gmap Z A) (o : Object A) : Prop :=
  match o with
  | Persistent id row => table !! id = Some row
  | Pending _ | Incomplete => True
  end.

(** What the [unique=True] columns of [Tag] and [FictionType] declare: no
    two tags of one name, no two fiction types of one name or one slug. *)
Definition reference_data_unique (session : Session.t) : Prop :=
  (∀ i j r1 r2,
     Session.tag session !! i = Some r1 →
     Session.tag session !! j = Some r2 →
     Tag.name r1 = Tag.name r2 → i = j)
  ∧ (∀ i j f1 f2,
       Session.fiction_type session !! i = Some f1 →
       Session.fiction_type session !! j = Some f2 →
       FictionType.name f1 = FictionType.name f2
       ∨ FictionType.slug f1 = FictionType.slug f2 →
       i = j).

(** What the foreign keys of app/models.py declare: the fiction type of a
    recommendation, both ends of a link of [TaggedRecommendation], and the
    recommendation of a comment and of a reaction are rows that exist. *)
Definition referential_integrity (session : Session.t) : Prop :=
  (∀ i r, Session.recommendation session !! i = Some r →
          is_Some (Session.fiction_type session
                     !! Recommendation.fiction_type_id r))
  ∧ (∀ p, p ∈ Session.tagged_recommendations session →
          is_Some (Session.recommendation session !! p.1)
          ∧ is_Some (Session.tag session !! p.2))
  ∧ (∀ i c, Session.comment session !! i = Some c →
            is_Some (Session.recommendation session
                       !! Comment.recommendation_id c))
  ∧ (∀ i r, Session.reaction session !! i = Some r →
            is_Some (Session.recommendation session
                       !! Reaction.recommendation_id r)).

(** From one store to a later one, the rows of tags and fiction types stay
    as they are, and uniqueness of their names is kept. *)
Definition reference_data_grows (s s' : Session.t) : Prop :=
  (∀ k r, Session.tag s !! k = Some r → Session.tag s' !! k = Some r)
  ∧ (∀ k r, Session.fiction_type s !! k = Some r →
            Session.fiction_type s' !! k = Some r)
  ∧ (reference_data_unique s → reference_data_unique s').

(** The text of a column after a partial update: the text the body sent for
    it, unless that is missing, [null] or empty; then the stored text. *)
Definition patched (f : Field string) (old : string) : string :=
  match f with
  | Provided (Some s) => if bool_decide (s = "") then old else s
  | _ => old
  end.

(** A string changed character by character. *)
Fixpoint string_map (f : ascii → ascii) (s : string) : string :=
  match s with
  | EmptyString => EmptyString
  | String c s' => String (f c) (string_map f s')
  end.

(** Nothing for [str.strip] to remove on either side. *)
Definition stripped (s : string) : Prop := Py.lstrip s = s ∧ Py.rstrip s = s.

(** A character occurs in a string. *)
Fixpoint occurs (x : ascii) (s : string) : Prop :=
  match s with
  | EmptyString => False
  | String c s' => c = x ∨ occurs x s'
  end.

(** ** app/schemas.py: the e-mail validator *)

Module Re.
(** The pieces the pattern of [email_valid] is made of: the assertion [\b],
    and a set of characters repeated between [lo] and [hi] times ([+] is
    one or more, a literal exactly once). *)
Inductive atom :=
| Boundary
| Chars (p : ascii → bool) (lo : nat) (hi : option nat).

Definition in_range (lo hi : N) (c : ascii) : bool :=
  let n := N_of_ascii c in ((lo <=? n) && (n <=? hi))%N.

(** [\w] on a code point below 256: a letter, a digit or other numeric
    character, or the underscore. *)
Definition isword (c : ascii) : bool :=
  let n := N_of_ascii c in
  in_range 48 57 c || in_range 65 90 c || (n =? 95)%N || in_range 97 122 c
  || (n =? 170)%N || in_range 178 179 c || (n =? 181)%N
  || in_range 185 186 c || in_range 188 190 c || in_range 192 214 c
  || in_range 216 246 c || in_range 248 255 c.

(** The start and the end of the string count as not a word character. *)
Definition word (c : option ascii) : bool :=
  match c with
  | Some c => isword c
  | None => false
  end.

Definition next (s : string) : option ascii :=
  match s with
  | EmptyString => None
  | String c _ => Some c
  end.

Definition within (n : nat) (hi : option nat) : bool :=
  match hi with
  | Some h => bool_decide (n < h)%nat
  | None => true
  end.

(** The character before the position reached after [s], coming from a
    position that had [prev] before it. *)
Fixpoint last (prev : option ascii) (s : string) : option ascii :=
  match s with
  | EmptyString => prev
  | String c s' => last (Some c) s'
  end.

(** A set of characters repeated: stop here if [n] repetitions are enough
    for [lo] and the rest of the pattern, [k], matches; or take one more
    character of the set if [hi] allows it. *)
Fixpoint eat (p : ascii → bool) (lo : nat) (hi : option nat)
    (k : option ascii → string → bool) (n : nat) (prev : option ascii)
    (s : string) {struct s} : bool :=
  if (if bool_decide (lo ≤ n)%nat then k prev s else false) then true
  else
    match s with
    | String c s' =>
        if within n hi && p c then eat p lo hi k (S n) (Some c) s' else false
    | EmptyString => false
    end.

(** [re.fullmatch]: is there a way to match the atoms, one after the
    other, that uses up the string? [prev] is the character before the
    position the match has come to. *)
Fixpoint fullmatch_from (atoms : list atom) : option ascii → string → bool :=
  match atoms with
  | [] => λ _ s, bool_decide (s = "")
  | Boundary :: atoms' => λ prev s,
      if xorb (word prev) (word (next s)) then fullmatch_from atoms' prev s
      else false
  | Chars p lo hi :: atoms' => eat p lo hi (fullmatch_from atoms') 0%nat
  end.

Definition fullmatch (atoms : list atom) (s : string) : bool :=
  fullmatch_from atoms None s.
End Re.

(** Every character of a string is in a set. *)
Fixpoint string_forall (p : ascii → bool) (s : string) : bool :=
  match s with
  | EmptyString => true
  | String c s' => p c && string_forall p s'
  end.

(** [[A-Za-z0-9._%+-]] *)
Definition email_local (c : ascii) : bool :=
  Re.in_range 65 90 c || Re.in_range 97 122 c || Re.in_range 48 57 c
  || bool_decide (c = "."%char) || bool_decide (c = "_"%char)
  || bool_decide (c = "%"%char) || bool_decide (c = "+"%char)
  || bool_decide (c = "-"%char).

(** [[A-Za-z0-9.-]] *)
Definition email_domain (c : ascii) : bool :=
  Re.in_range 65 90 c || Re.in_range 97 122 c || Re.in_range 48 57 c
  || bool_decide (c = "."%char) || bool_decide (c = "-"%char).

(** [[A-Z|a-z]]: inside a character set the bar is a character like any
    other. *)
Definition email_top_level (c : ascii) : bool :=
  Re.in_range 65 90 c || bool_decide (c = "|"%char) || Re.in_range 97 122 c.

(** [\b[A-Za-z0-9._%+-]+@[A-Za-z0-9.-]+\.[A-Z|a-z]{2,7}\b] *)
Definition email_regex : list Re.atom :=
  [ Re.Boundary;
    Re.Chars email_local 1 None;
    Re.Chars (λ c, bool_decide (c = "@"%char)) 1 (Some 1%nat);
    Re.Chars email_domain 1 None;
    Re.Chars (λ c, bool_decide (c = "."%char)) 1 (Some 1%nat);
    Re.Chars email_top_level 2 (Some 7%nat);
    Re.Boundary ].

(** The validator of [UserBase] and [UserUpdate]: the value comes back, or
    [ValueError] is raised with a message. *)
Definition email_valid (value : string) : string + string :=
  if negb (Re.fullmatch email_regex value)
  then inr "Not valid email address"
  else inl value.

(** ** Sample data *)

Definition alice : User.t := User.mk 1 "alice" "alice@x.com" "$kdf$".
Definition bob : User.t := User.mk 2 "bobby" "bob@x.com" "$kdf$".

Definition sample_models : Models := import_models 1000 1001.

(** One recommendation, one comment and one reaction, all by [alice]. *)
Definition sample_session : Session.t :=
  Session.mk
    {[ 1 := FictionType.mk "movie" "movie" ]}
    {[ 1 := Tag.mk "space" ]}
    {[ 1 := Recommendation.mk "Interstellar" "Movie about space"
              "My favorite movie" 1000 None 1 1 ]}
    {[ (1, 1) ]}
    {[ 1 := Comment.mk "Thank you" 1001 None 1 1 ]}
    {[ 1 := Reaction.mk true 1 1 ]}.

(** A short history: [alice] posts a recommendation, then both users react
    to it. *)
Definition sample_create : RecommendationCreate.t :=
  RecommendationCreate.mk "Interstellar" "Movie about space"
    "My favorite movie" "movie" ["sci-fy"; "space"].

Definition sample_history : Session.t :=
  (serve sample_models 30 bob (PostReaction 1 (ReactionCreate.mk false))
     (serve sample_models 20 alice (PostReaction 1 (ReactionCreate.mk true))
        (serve sample_models 10 alice (PostRecommendation sample_create)
           Session.empty).2).2).2.

(** Two recommendations and two comments, posted at four different times. *)
Definition sample_posts : Session.t :=
  (serve sample_models 400 bob (PostComment 1 (CommentCreate.mk "Agreed"))
     (serve sample_models 300 alice (PostComment 2 (CommentCreate.mk "Thanks"))
        (serve sample_models 200 bob
           (PostRecommendation
              (RecommendationCreate.mk "Hero" "Song by Skillet" "Amazing song"
                 "music" ["rock"]))
           (serve sample_models 100 alice (PostRecommendation sample_create)
              Session.empty).2).2).2).2.

(** A patch that sends an empty title along with a new opinion, and the
    same patch without the title. *)
Definition sample_patch_empty_title : RecommendationUpdate.t :=
  RecommendationUpdate.mk (Provided (Some "")) Unset
    (Provided (Some "Still my favorite")) Unset Unset.

Definition sample_patch_no_title : RecommendationUpdate.t :=
  RecommendationUpdate.mk Unset Unset
    (Provided (Some "Still my favorite")) Unset Unset.

(** A creation request whose two labels normalise to the same name. *)
Definition sample_create_twice : RecommendationCreate.t :=
  RecommendationCreate.mk "Interstellar" "Movie about space"
    "My favorite movie" "movie" ["Sci-Fy"; " sci-fy "].

(** The store after [bob] has posted [sample_create] to the empty store. *)
Definition sample_after_bob : Session.t :=
  (post_recommendation sample_models sample_create bob Session.empty).2.

(** [sample_session] after [bob] has reacted to the recommendation. *)
Definition sample_after_reaction : Session.t :=
  (post_reaction 1 bob (ReactionCreate.mk false) sample_session).2.

(** A store with the fiction type "short-story", and a creation request
    that spells it with a space: the name is new, the slug is not. *)
Definition sample_slug : Session.t :=
  (post_recommendation sample_models
     (RecommendationCreate.mk "The Last Question" "Story by Asimov"
        "Worth every page" "short-story" ["space"])
     alice Session.empty).2.

Definition sample_create_slug : RecommendationCreate.t :=
  RecommendationCreate.mk "The Dead" "Story by Joyce" "A quiet one"
    "Short Story" ["ireland"].

(** A creation request that passes the schema (the fiction type has four
    characters) and normalises to a name of two. *)
Definition sample_create_short : RecommendationCreate.t :=
  RecommendationCreate.mk "Dark" "Series about time" "Watch it twice"
    " tv " ["time travel"].

(** A patch that sends a fiction type and two labels. *)
Definition sample_patch_tags : RecommendationUpdate.t :=
  RecommendationUpdate.mk Unset Unset Unset (Provided (Some " Film "))
    (Provided (Some ["Space"; "hard sci-fi"])).

(** * Properties *)

(** ** The handlers on the cases of the test suite *)

(** [test_logged_user_updates_nonexistent_recommendation]: the empty body
    does not matter when the recommendation is missing. *)
Example updates_nonexistent_recommendation :
  update_recommendation 7 78 alice
    (RecommendationUpdate.mk Unset Unset Unset Unset Unset) sample_session
  = (HTTPException HTTP_404_NOT_FOUND
       "Recommendation with id 78 was not found", sample_session).
Proof. vm_compute. reflexivity. Qed.

(** [test_update_recommendation_with_no_data] *)
Example update_recommendation_with_no_data :
  update_recommendation 7 1 alice
    (RecommendationUpdate.mk Unset Unset Unset Unset Unset) sample_session
  = (HTTPException HTTP_400_BAD_REQUEST "No data provided", sample_session).
Proof. vm_compute. reflexivity. Qed.

(** [test_logged_user_without_permission_updates_recommendation] *)
Example without_permission_updates_recommendation :
  update_recommendation 7 1 bob
    (RecommendationUpdate.mk Unset Unset Unset Unset (Provided (Some ["tag"])))
    sample_session
  = (HTTPException HTTP_403_FORBIDDEN
       "User has no permission to update recommendation with id 1",
     sample_session).
Proof. vm_compute. reflexivity. Qed.

(** [test_logged_user_updates_nonexistent_comment] *)
Example updates_nonexistent_comment :
  update_comment 7 1 89 alice (CommentUpdate.mk "Some content") sample_session
  = (HTTPException HTTP_404_NOT_FOUND
       "Comment with id 89 for recommendation with id 1 was not found",
     sample_session).
Proof. vm_compute. reflexivity. Qed.

(** [test_user_with_reaction_posts_new_reactions] *)
Example user_with_reaction_posts_new_reactions :
  post_reaction 1 alice (ReactionCreate.mk true) sample_session
  = (HTTPException HTTP_409_CONFLICT
       "User already has a reaction for recommendation with id 1, creating another one will create conflict",
     sample_session).
Proof. vm_compute. reflexivity. Qed.

(** [test_post_recommendation]: the fiction type and both tags are created
    along with the recommendation. *)
Example post_recommendation_creates_reference_data :
  let r := post_recommendation sample_models sample_create alice Session.empty in
  status r.1 = HTTP_201_CREATED
  ∧ Session.fiction_type r.2 !! 1 = Some (FictionType.mk "movie" "movie")
  ∧ Session.tag r.2 !! 1 = Some (Tag.mk "sci-fy")
  ∧ Session.tag r.2 !! 2 = Some (Tag.mk "space")
  ∧ elements (Session.tagged_recommendations r.2) = [(1, 2); (1, 1)].
Proof. vm_compute. done. Qed.

(** [test_logged_user_deletes_recommendation], on a store where the
    recommendation has a comment and a reaction: they go with it. *)
Example deletes_recommendation :
  delete_recommendation 1 alice sample_session
  = (Return HTTP_204_NO_CONTENT (),
     Session.mk {[ 1 := FictionType.mk "movie" "movie" ]}
                {[ 1 := Tag.mk "space" ]} ∅ ∅ ∅ ∅).
Proof. vm_compute. reflexivity. Qed.

(** ** Queries *)

Section first.
Context {A : Type}.
Implicit Types (p : Z → A → bool) (table : gmap Z A).

Lemma first_Some p table k r :
  Session.first p table = Some (k, r) → table !! k = Some r ∧ p k r = true.
Proof.
  unfold Session.first. intros H%head_Some_elem_of.
  apply list_elem_of_filter in H as [Hp Hin].
  by apply elem_of_map_to_list in Hin.
Qed.

Lemma first_None p table :
  Session.first p table = None ↔ ∀ k r, table !! k = Some r → p k r = false.
Proof.
  unfold Session.first. rewrite head_None. split.
  - intros Hnil k r Hk. destruct (p k r) eqn:Hp; [|done].
    exfalso. eapply (filter_nil_not_elem_of _ _ (k, r)); [exact Hnil| |].
    + exact Hp.
    + by apply elem_of_map_to_list.
  - intros Hall. destruct (filter _ _) as [|[k r] l] eqn:Hf; [done|].
    assert ((k, r) ∈ filter (λ kv, p kv.1 kv.2 = true) (map_to_list table))
      as Hin by (rewrite Hf; left).
    apply list_elem_of_filter in Hin as [Hp Hin].
    apply elem_of_map_to_list in Hin. simpl in Hp.
    by rewrite (Hall k r Hin) in Hp.
Qed.

Lemma first_is_Some p table k r :
  table !! k = Some r → p k r = true → is_Some (Session.first p table).
Proof.
  intros Hk Hp. destruct (Session.first p table) eqn:Hf; [by eexists|].
  rewrite first_None in Hf. by rewrite (Hf k r Hk) in Hp.
Qed.

(** A query that fixes the primary key is a look-up at that key. *)
Lemma first_by_key (P : A → Prop) `{!∀ r, Decision (P r)} table k :
  Session.first (λ id r, bool_decide (P r ∧ id = k)) table
  = r ← table !! k; if decide (P r) then Some (k, r) else None.
Proof.
  destruct (Session.first _ table) as [[k' r']|] eqn:Hf.
  - apply first_Some in Hf as [Hk [HP ->]%bool_decide_eq_true].
    rewrite Hk. simpl. by rewrite decide_True.
  - rewrite first_None in Hf.
    destruct (table !! k) as [r|] eqn:Hk; [simpl|done].
    specialize (Hf k r Hk). apply bool_decide_eq_false in Hf.
    rewrite decide_False; [done|]. intros HP. by apply Hf.
Qed.

Lemma next_id_fresh table : table !! Session.next_id table = None.
Proof.
  destruct (table !! Session.next_id table) as [r|] eqn:Hk; [|done].
  exfalso. apply elem_of_map_to_list in Hk.
  assert (∀ (l : list (Z * A)) i x, (i, x) ∈ l → i ≤ foldr Z.max 0 l.*1) as Hmax.
  { induction l as [|[j y] l IH]; intros i x Hin; [by apply elem_of_nil in Hin|].
    rewrite fmap_cons, foldr_cons. simpl.
    apply elem_of_cons in Hin as [[= -> ->]|Hin]; [lia|].
    specialize (IH i x Hin). lia. }
  apply Hmax in Hk. unfold Session.next_id in Hk. lia.
Qed.

End first.

Lemma get_comment_lookup session recommendation_id comment_id :
  get_comment_by_id_and_recommendation_id session recommendation_id comment_id
  = c ← Session.comment session !! comment_id;
    if decide (Comment.recommendation_id c = recommendation_id)
    then Some c else None.
Proof.
  unfold get_comment_by_id_and_recommendation_id.
  rewrite (first_by_key (λ c, Comment.recommendation_id c = recommendation_id)).
  destruct (_ !! comment_id) as [c|]; [simpl|done]. by case_decide.
Qed.

Lemma get_reaction_lookup session recommendation_id reaction_id :
  get_reaction_by_id_and_recommendation_id session recommendation_id reaction_id
  = r ← Session.reaction session !! reaction_id;
    if decide (Reaction.recommendation_id r = recommendation_id)
    then Some r else None.
Proof.
  unfold get_reaction_by_id_and_recommendation_id.
  rewrite (first_by_key (λ r, Reaction.recommendation_id r = recommendation_id)).
  destruct (_ !! reaction_id) as [r|]; [simpl|done]. by case_decide.
Qed.

(** ** Ownership and existence *)

Lemma status_outcome {A} (r : Response A * Session.t) :
  status (outcome r).1 = status r.1 ∧ (outcome r).2 = r.2.
Proof. by destruct r as [[]]. Qed.

(** Unfolds a handler applied to a request and splits along its guards. *)
Ltac handler_cases :=
  unfold update_recommendation, delete_recommendation, update_comment,
    delete_comment, update_reaction, delete_reaction,
    get_recommendation_by_id;
  rewrite ?get_comment_lookup, ?get_reaction_lookup;
  repeat (simplify_option_eq; try case_bool_decide; try case_match);
  simplify_eq/=; try done.

Lemma mutate_not_owner now current_user m session o :
  owner session m = Some o → User.id current_user ≠ o →
  mutate now current_user m session
  = (HTTPException HTTP_403_FORBIDDEN (no_permission m), session).
Proof.
  intros Ho Hid. destruct m; simpl in *; unfold outcome;
    handler_cases.
Qed.

Lemma update_recommendation_owner now recommendation_id current_user data s r :
  Session.recommendation s !! recommendation_id = Some r →
  Recommendation.user_id r = User.id current_user →
  status (update_recommendation now recommendation_id current_user data s).1
  ≠ HTTP_403_FORBIDDEN.
Proof.
  intros Hr Hown. unfold update_recommendation, get_recommendation_by_id.
  rewrite Hr, bool_decide_eq_false_2 by (by intros ?).
  case_bool_decide; [done|]. cbv zeta.
  by destruct (commit_recommendation _ _ _ _ _) as [[]|].
Qed.

Lemma mutate_owner now current_user m session :
  owner session m = Some (User.id current_user) →
  status (mutate now current_user m session).1 ≠ HTTP_403_FORBIDDEN.
Proof.
  intros Ho. destruct m; [|simpl in *; handler_cases..].
  unfold mutate. rewrite (proj1 (status_outcome _)). simpl in Ho.
  destruct (Session.recommendation session !! recommendation_id) as [r|] eqn:Hr;
    [|done].
  apply (update_recommendation_owner _ _ _ _ _ r); [done|]. by simplify_eq/=.
Qed.


(** C1. For each of the six mutations of an owned resource that exists: the
    request is refused with 403 ("User has no permission to ...") exactly
    when the id of the acting user differs from the [user_id] of the
    resource, whatever the kind of resource, and a refused request leaves
    the store as it was; when the two ids are equal the outcome is never
    403. *)
Theorem ownership_guard now current_user m session o :
  owner session m = Some o →
  (User.id current_user ≠ o →
     mutate now current_user m session
     = (HTTPException HTTP_403_FORBIDDEN (no_permission m), session))
  ∧ (User.id current_user = o →
     status (mutate now current_user m session).1 ≠ HTTP_403_FORBIDDEN).
Proof.
  intros Ho. split.
  - intros Hid. by apply (mutate_not_owner _ _ _ _ o).
  - intros <-. by apply mutate_owner.
Qed.

Lemma ownership_guard_witness :
  mutate 7 bob (DeleteComment 1 1) sample_session
  = (HTTPException HTTP_403_FORBIDDEN
       "User has no permission to delete comment with id 1", sample_session).
Proof.
  apply (ownership_guard 7 bob (DeleteComment 1 1) sample_session 1).
  - vm_compute. reflexivity.
  - vm_compute. discriminate.
Defined.



(** ** What a commit leaves alone *)

Lemma flush_fiction_type_frame o s id s' :
  Session.flush_fiction_type o s = Some (id, s') →
  Session.tag s' = Session.tag s
  ∧ Session.recommendation s' = Session.recommendation s
  ∧ Session.tagged_recommendations s' = Session.tagged_recommendations s
  ∧ Session.comment s' = Session.comment s
  ∧ Session.reaction s' = Session.reaction s.
Proof.
  unfold Session.flush_fiction_type. intros H.
  repeat case_match; simplify_eq; done.
Qed.

Lemma flush_tag_frame o s id s' :
  Session.flush_tag o s = Some (id, s') →
  Session.fiction_type s' = Session.fiction_type s
  ∧ Session.recommendation s' = Session.recommendation s
  ∧ Session.tagged_recommendations s' = Session.tagged_recommendations s
  ∧ Session.comment s' = Session.comment s
  ∧ Session.reaction s' = Session.reaction s.
Proof.
  unfold Session.flush_tag. intros H.
  repeat case_match; simplify_eq; done.
Qed.

Lemma flush_tags_frame os : ∀ s ids s',
  Session.flush_tags os s = Some (ids, s') →
  Session.fiction_type s' = Session.fiction_type s
  ∧ Session.recommendation s' = Session.recommendation s
  ∧ Session.tagged_recommendations s' = Session.tagged_recommendations s
  ∧ Session.comment s' = Session.comment s
  ∧ Session.reaction s' = Session.reaction s.
Proof.
  induction os as [|o os IH]; intros s ids s' H; simpl in H.
  - by simplify_eq.
  - destruct (Session.flush_tag o s) as [[id s1]|] eqn:H1; [|done].
    simpl in H.
    destruct (Session.flush_tags os s1) as [[ids' s2]|] eqn:H2; [|done].
    simpl in H. simplify_eq.
    apply IH in H2 as (-> & -> & -> & -> & ->).
    by apply flush_tag_frame in H1.
Qed.

(** A new recommendation is stored under a key no row had, with the
    columns the handler gave it; comments and reactions are untouched. *)
Lemma commit_new_recommendation_spec title short_description opinion published
    fiction_type tags user s id row s' :
  commit_new_recommendation title short_description opinion published
    fiction_type tags user s = Some (id, row, s') →
  Recommendation.title row = title
  ∧ Recommendation.published row = published
  ∧ Recommendation.updated row = None
  ∧ Recommendation.user_id row = User.id user
  ∧ Session.recommendation s !! id = None
  ∧ Session.recommendation s' = <[id := row]> (Session.recommendation s)
  ∧ Session.comment s' = Session.comment s
  ∧ Session.reaction s' = Session.reaction s.
Proof.
  unfold commit_new_recommendation. intros H.
  destruct (Session.flush_fiction_type fiction_type s) as [[fid s1]|] eqn:H1;
    [|done]. simpl in H.
  destruct (Session.flush_tags tags s1) as [[ids s2]|] eqn:H2; [|done].
  simpl in H.
  destruct (Session.insert_links _ _ _) as [links|] eqn:H3; [|done].
  simpl in H. simplify_eq.
  apply flush_fiction_type_frame in H1 as (_ & Hr1 & _ & Hc1 & Hx1).
  apply flush_tags_frame in H2 as (_ & Hr2 & _ & Hc2 & Hx2).
  simpl. rewrite Hr2, Hr1, Hc2, Hc1, Hx2, Hx1.
  repeat split; try done. rewrite <-Hr1, <-Hr2. apply next_id_fresh.
Qed.

(** An updated recommendation keeps every column the handler did not set
    (a new fiction type only changes [fiction_type_id]) and is stored
    under its own key; comments and reactions are untouched. *)
Lemma commit_recommendation_spec id r fiction_type tags s r' s' :
  commit_recommendation id r fiction_type tags s = Some (r', s') →
  (∃ fid, r' = Recommendation.set_fiction_type_id fid r)
  ∧ Session.recommendation s' = <[id := r']> (Session.recommendation s)
  ∧ Session.comment s' = Session.comment s
  ∧ Session.reaction s' = Session.reaction s.
Proof.
  unfold commit_recommendation. intros H.
  destruct fiction_type as [o|]; simpl in H.
  - destruct (Session.flush_fiction_type o s) as [[fid s1]|] eqn:H1; [|done].
    simpl in H.
    apply flush_fiction_type_frame in H1 as (_ & Hr1 & _ & Hc1 & Hx1).
    destruct tags as [os|]; simpl in H.
    + destruct (Session.flush_tags os s1) as [[ids s2]|] eqn:H2; [|done].
      simpl in H.
      destruct (Session.replace_links _ _ _) as [links|] eqn:H3; [|done].
      simpl in H. simplify_eq.
      apply flush_tags_frame in H2 as (_ & Hr2 & _ & Hc2 & Hx2).
      simpl. rewrite Hr2, Hr1, Hc2, Hc1, Hx2, Hx1. eauto.
    + simplify_eq. simpl. rewrite Hr1, Hc1, Hx1. eauto.
  - destruct tags as [os|]; simpl in H.
    + destruct (Session.flush_tags os s) as [[ids s2]|] eqn:H2; [|done].
      simpl in H.
      destruct (Session.replace_links _ _ _) as [links|] eqn:H3; [|done].
      simpl in H. simplify_eq.
      apply flush_tags_frame in H2 as (_ & Hr2 & _ & Hc2 & Hx2).
      simpl. rewrite Hr2, Hc2, Hx2. split; [|done].
      exists (Recommendation.fiction_type_id r'). by destruct r'.
    + simplify_eq. simpl. split; [|done].
      exists (Recommendation.fiction_type_id r'). by destruct r'.
Qed.

(** ** Reactions *)

Lemma one_reaction_per_user_ext s s' :
  Session.reaction s' = Session.reaction s →
  one_reaction_per_user s → one_reaction_per_user s'.
Proof. unfold one_reaction_per_user. by intros ->. Qed.

Lemma one_reaction_per_user_sub s s' :
  (∀ i r, Session.reaction s' !! i = Some r → Session.reaction s !! i = Some r) →
  one_reaction_per_user s → one_reaction_per_user s'.
Proof.
  intros Hsub Hinv i j r1 r2 Hi Hj. apply Hinv; by apply Hsub.
Qed.

Lemma post_reaction_invariant recommendation_id current_user data s :
  one_reaction_per_user s →
  one_reaction_per_user (post_reaction recommendation_id current_user data s).2.
Proof.
  intros Hinv. unfold post_reaction, post_reaction_between.
  destruct (get_recommendation_by_id s recommendation_id); [|done].
  destruct (get_reaction_by_recommendation_id_and_user_id _ _ _); [done|].
  destruct (Session.insert_reaction _ s) as [[id s']|] eqn:Hins; [|done].
  unfold Session.insert_reaction in Hins.
  destruct (Session.first _ _) eqn:Hfirst; [done|]. simplify_eq. simpl.
  rewrite first_None in Hfirst.
  assert (∀ k r, Session.reaction s !! k = Some r →
            ¬ (Reaction.user_id r = User.id current_user
               ∧ Reaction.recommendation_id r = recommendation_id)) as Hnew.
  { intros k r Hk. specialize (Hfirst k r Hk).
    by apply bool_decide_eq_false in Hfirst. }
  intros i j r1 r2. simpl.
  rewrite !lookup_insert. intros Hi Hj Hu Hr.
  repeat case_decide; simplify_eq/=; try done.
  - exfalso. by eapply Hnew.
  - exfalso. by eapply Hnew.
  - by eapply (Hinv i j).
Qed.

Lemma update_reaction_invariant recommendation_id reaction_id current_user data s :
  one_reaction_per_user s →
  one_reaction_per_user
    (update_reaction recommendation_id reaction_id current_user data s).2.
Proof.
  intros Hinv. unfold update_reaction.
  destruct (get_recommendation_by_id s recommendation_id); [|done].
  rewrite get_reaction_lookup.
  destruct (Session.reaction s !! reaction_id) as [r|] eqn:Hk; [simpl|done].
  case_decide; [|done]. case_bool_decide; [done|]. simpl.
  intros i j r1 r2. simpl. rewrite !lookup_insert. intros Hi Hj Hu Hr.
  repeat case_decide; simplify_eq/=; try done; by eapply Hinv.
Qed.

Lemma update_recommendation_session now recommendation_id current_user data s :
  (update_recommendation now recommendation_id current_user data s).2 = s
  ∨ ∃ r r0 fiction_type tags r',
      Session.recommendation s !! recommendation_id = Some r
      ∧ Recommendation.published r0 = Recommendation.published r
      ∧ Recommendation.user_id r0 = Recommendation.user_id r
      ∧ commit_recommendation recommendation_id r0 fiction_type tags s
        = Some (r', (update_recommendation now recommendation_id current_user data s).2).
Proof.
  unfold update_recommendation, get_recommendation_by_id.
  destruct (Session.recommendation s !! recommendation_id) as [r|] eqn:Hr;
    [|by left].
  case_bool_decide; [by left|]. case_bool_decide; [by left|]. cbv zeta.
  destruct (commit_recommendation _ _ _ _ _) as [[r' s']|] eqn:Hc; [|by left].
  right. eexists r, _, _, _, r'. split; [done|].
  split; [|split; [|exact Hc]]; repeat case_match; done.
Qed.

Lemma mutate_invariant now current_user m s :
  one_reaction_per_user s →
  one_reaction_per_user (mutate now current_user m s).2.
Proof.
  intros Hinv. destruct m; simpl; rewrite ?(proj2 (status_outcome _)).
  - destruct (update_recommendation_session now recommendation_id
                current_user data s)
      as [->|(r & r0 & ft & tags & r' & _ & _ & _ & Hc)]; [done|].
    apply commit_recommendation_spec in Hc as (_ & _ & _ & Hx).
    by eapply one_reaction_per_user_ext.
  - unfold delete_recommendation. repeat case_match; simpl; try done.
    eapply one_reaction_per_user_sub; [|done]. simpl. intros i r.
    by intros [? _]%map_lookup_filter_Some.
  - unfold update_comment. repeat case_match; simpl; try done.
  - unfold delete_comment. repeat case_match; simpl; try done.
  - by apply update_reaction_invariant.
  - unfold delete_reaction. repeat case_match; simpl; try done.
    eapply one_reaction_per_user_sub; [|done]. simpl. intros i r.
    by intros [_ ?]%lookup_delete_Some.
Qed.

Lemma serve_invariant models now current_user request s :
  one_reaction_per_user s →
  one_reaction_per_user (serve models now current_user request s).2.
Proof.
  intros Hinv. destruct request; simpl; rewrite ?(proj2 (status_outcome _)).
  - unfold post_recommendation, post_recommendation_between. cbv zeta.
    destruct (commit_new_recommendation _ _ _ _ _ _ _ _)
      as [[[id row] s']|] eqn:Hc; [simpl|done].
    apply commit_new_recommendation_spec in Hc
      as (_ & _ & _ & _ & _ & _ & _ & Hx).
    by eapply one_reaction_per_user_ext.
  - unfold post_comment, Session.insert_comment.
    by destruct (get_recommendation_by_id s recommendation_id).
  - by apply post_reaction_invariant.
  - by apply mutate_invariant.
Qed.

Lemma reachable_invariant models s :
  reachable models s → one_reaction_per_user s.
Proof.
  induction 1 as [|now u request s _ IH].
  - intros i j r1 r2 Hi. simpl in Hi. by rewrite lookup_empty in Hi.
  - by apply serve_invariant.
Qed.

Lemma post_reaction_conflict recommendation_id current_user data s i r :
  is_Some (Session.recommendation s !! recommendation_id) →
  Session.reaction s !! i = Some r →
  Reaction.user_id r = User.id current_user →
  Reaction.recommendation_id r = recommendation_id →
  status (post_reaction recommendation_id current_user data s).1 = HTTP_409_CONFLICT
  ∧ (post_reaction recommendation_id current_user data s).2 = s.
Proof.
  intros [rec Hrec] Hi Hu Hr. unfold post_reaction, post_reaction_between, get_recommendation_by_id.
  rewrite Hrec. unfold get_reaction_by_recommendation_id_and_user_id.
  destruct (Session.first _ _) as [[k r']|] eqn:Hfirst; [done|].
  rewrite first_None in Hfirst. specialize (Hfirst i r Hi).
  apply bool_decide_eq_false in Hfirst. by destruct Hfirst.
Qed.

(** C6. In every store a process can arrive at, a user has at most one
    reaction per recommendation; and posting a reaction to a recommendation
    the acting user already reacted to is answered 409 and stores
    nothing. *)
Theorem one_reaction_per_user_and_recommendation models session
    recommendation_id current_user data :
  (reachable models session → one_reaction_per_user session)
  ∧ (is_Some (Session.recommendation session !! recommendation_id) →
     (∃ i r, Session.reaction session !! i = Some r
             ∧ Reaction.user_id r = User.id current_user
             ∧ Reaction.recommendation_id r = recommendation_id) →
     status (post_reaction recommendation_id current_user data session).1
       = HTTP_409_CONFLICT
     ∧ (post_reaction recommendation_id current_user data session).2 = session).
Proof.
  split; [apply reachable_invariant|].
  intros Hrec (i & r & Hi & Hu & Hr). by eapply post_reaction_conflict.
Qed.

Lemma one_reaction_per_user_and_recommendation_witness :
  one_reaction_per_user sample_history
  ∧ status (post_reaction 1 bob (ReactionCreate.mk true) sample_history).1
    = HTTP_409_CONFLICT
  ∧ (post_reaction 1 bob (ReactionCreate.mk true) sample_history).2
    = sample_history.
Proof.
  destruct (one_reaction_per_user_and_recommendation sample_models
              sample_history 1 bob (ReactionCreate.mk true)) as [Hinv Hconflict].
  split.
  - apply Hinv. unfold sample_history.
    apply reachable_serve, reachable_serve, reachable_serve, reachable_empty.
  - apply Hconflict.
    + vm_compute. eauto.
    + exists 2, (Reaction.mk false 2 1). vm_compute. done.
Defined.

(** ** Comments *)

(** C10. When its owner puts the empty string as the content of a comment
    that exists, the answer is 200; the stored comment keeps its content,
    its [updated] column is set to the time of the request, and [user_id],
    [recommendation_id] (and [published]) stay as they were. *)
Theorem update_comment_empty_content now recommendation_id comment_id
    current_user session c :
  is_Some (Session.recommendation session !! recommendation_id) →
  Session.comment session !! comment_id = Some c →
  Comment.recommendation_id c = recommendation_id →
  Comment.user_id c = User.id current_user →
  ∃ c',
    update_comment now recommendation_id comment_id current_user
      (CommentUpdate.mk "") session
    = (Return HTTP_200_OK (comment_id, c'),
       Session.with_comment (<[comment_id := c']> (Session.comment session))
         session)
    ∧ Comment.content c' = Comment.content c
    ∧ Comment.updated c' = Some now
    ∧ Comment.user_id c' = Comment.user_id c
    ∧ Comment.recommendation_id c' = Comment.recommendation_id c
    ∧ Comment.published c' = Comment.published c.
Proof.
  intros [rec Hrec] Hc Hrid Hown.
  unfold update_comment, get_recommendation_by_id. rewrite Hrec.
  rewrite get_comment_lookup, Hc. simpl.
  rewrite decide_True by done.
  rewrite bool_decide_eq_false_2 by (by intros ?).
  eexists. split; [reflexivity|]. done.
Qed.

Lemma update_comment_empty_content_witness :
  ∃ c',
    update_comment 7 1 1 alice (CommentUpdate.mk "") sample_session
    = (Return HTTP_200_OK (1, c'),
       Session.with_comment (<[1 := c']> (Session.comment sample_session))
         sample_session)
    ∧ Comment.content c' = "Thank you"
    ∧ Comment.updated c' = Some 7
    ∧ Comment.user_id c' = 1
    ∧ Comment.recommendation_id c' = 1
    ∧ Comment.published c' = 1001.
Proof.
  apply (update_comment_empty_content 7 1 1 alice sample_session
           (Comment.mk "Thank you" 1001 None 1 1)).
  - vm_compute. eauto.
  - vm_compute. reflexivity.
  - reflexivity.
  - reflexivity.
Defined.

(** ** Timestamps *)

Lemma mutate_published models now current_user m s :
  published_at_import models s →
  published_at_import models (mutate now current_user m s).2.
Proof.
  intros [Hrec Hcom]. destruct m; simpl; rewrite ?(proj2 (status_outcome _)).
  - destruct (update_recommendation_session now recommendation_id
                current_user data s)
      as [->|(r & r0 & ft & tags & r' & Hr & Hp & _ & Hc)]; [done|].
    apply commit_recommendation_spec in Hc as ([fid ->] & Hr' & Hc' & _).
    split.
    + intros i x. rewrite Hr', lookup_insert. case_decide.
      * intros [= <-]. simpl. rewrite Hp. by eapply Hrec.
      * apply Hrec.
    + intros i x. rewrite Hc'. apply Hcom.
  - unfold delete_recommendation. repeat case_match; simpl; try done.
    split; simpl.
    + intros i x [_ ?]%lookup_delete_Some. by eapply Hrec.
    + intros i x [? _]%map_lookup_filter_Some. by eapply Hcom.
  - unfold update_comment, get_recommendation_by_id.
    destruct (_ !! recommendation_id); [|done].
    rewrite get_comment_lookup.
    destruct (_ !! comment_id) as [c|] eqn:Hc; [simpl|done].
    case_decide; [|done]. case_bool_decide; [done|]. simpl.
    split; [done|]. simpl. intros i x. rewrite lookup_insert. case_decide.
    + intros [= <-]. simpl. rewrite <-(Hcom _ _ Hc). by repeat case_match.
    + apply Hcom.
  - unfold delete_comment. repeat case_match; simpl; try done.
    split; [done|]. simpl.
    intros i x [_ ?]%lookup_delete_Some. by eapply Hcom.
  - unfold update_reaction. by repeat case_match.
  - unfold delete_reaction. by repeat case_match.
Qed.

Lemma serve_published models now current_user request s :
  published_at_import models s →
  published_at_import models (serve models now current_user request s).2.
Proof.
  intros [Hrec Hcom]. destruct request; simpl;
    rewrite ?(proj2 (status_outcome _)).
  - unfold post_recommendation, post_recommendation_between. cbv zeta.
    destruct (commit_new_recommendation _ _ _ _ _ _ _ _)
      as [[[id row] s']|] eqn:Hc; [simpl|done].
    apply commit_new_recommendation_spec in Hc
      as (_ & Hp & _ & _ & _ & Hr' & Hc' & _).
    split.
    + intros i x. rewrite Hr', lookup_insert. case_decide.
      * by intros [= <-].
      * apply Hrec.
    + intros i x. rewrite Hc'. apply Hcom.
  - unfold post_comment, Session.insert_comment.
    destruct (get_recommendation_by_id s recommendation_id); [simpl|done].
    split; [done|]. simpl. intros i x. rewrite lookup_insert. case_decide.
    + by intros [= <-].
    + apply Hcom.
  - unfold post_reaction, post_reaction_between, Session.insert_reaction.
    repeat case_match; simplify_eq/=; by split.
  - by apply mutate_published.
Qed.

(** The four rows of [sample_posts] are there, with the two defaults. *)
Example sample_posts_rows :
  Recommendation.published <$> Session.recommendation sample_posts !! 1 = Some 1000
  ∧ Recommendation.published <$> Session.recommendation sample_posts !! 2 = Some 1000
  ∧ Comment.published <$> Session.comment sample_posts !! 1 = Some 1001
  ∧ Comment.published <$> Session.comment sample_posts !! 2 = Some 1001.
Proof. vm_compute. done. Qed.

(** ** Partial updates *)

Lemma lookup_dict_entry {A} k (inj : A → Py.value) f d k' :
  RecommendationUpdate.dict_entry k inj f d !! k'
  = if decide (k = k')
    then match f with
         | Unset => d !! k'
         | Provided None => Some Py.None_
         | Provided (Some v) => Some (inj v)
         end
    else d !! k'.
Proof.
  unfold RecommendationUpdate.dict_entry.
  destruct f as [|[v|]]; case_decide; simplify_map_eq; done.
Qed.

Lemma get_dict_exclude_unset data :
  let d := RecommendationUpdate.dict_exclude_unset data in
  Py.get d "title" = field_value Py.Str (RecommendationUpdate.title data)
  ∧ Py.get d "short_description"
    = field_value Py.Str (RecommendationUpdate.short_description data)
  ∧ Py.get d "opinion" = field_value Py.Str (RecommendationUpdate.opinion data)
  ∧ Py.get d "fiction_type"
    = field_value Py.Str (RecommendationUpdate.fiction_type data)
  ∧ Py.get d "tags" = field_value Py.List (RecommendationUpdate.tags data).
Proof.
  unfold Py.get, RecommendationUpdate.dict_exclude_unset. cbv zeta.
  rewrite !lookup_dict_entry.
  repeat split; repeat (case_decide; [|done]); try done.
  all: repeat (case_decide; try done); by destruct data as [? ? ? ? ?];
    simpl; repeat case_match.
Qed.

Lemma update_recommendation_keeps now recommendation_id current_user data s r :
  Session.recommendation s !! recommendation_id = Some r →
  ∃ r',
    Session.recommendation
      (update_recommendation now recommendation_id current_user data s).2
      !! recommendation_id = Some r'
    ∧ (Py.truthy (field_value Py.Str (RecommendationUpdate.title data)) = false →
       Recommendation.title r' = Recommendation.title r)
    ∧ (Py.truthy (field_value Py.Str (RecommendationUpdate.short_description data))
       = false →
       Recommendation.short_description r' = Recommendation.short_description r)
    ∧ (Py.truthy (field_value Py.Str (RecommendationUpdate.opinion data)) = false →
       Recommendation.opinion r' = Recommendation.opinion r).
Proof.
  intros Hr. unfold update_recommendation, get_recommendation_by_id.
  rewrite Hr. case_bool_decide; [by exists r|].
  case_bool_decide; [by exists r|].
  destruct (get_dict_exclude_unset data) as (-> & -> & -> & -> & ->).
  cbv zeta.
  destruct (commit_recommendation _ _ _ _ _) as [[r' s']|] eqn:Hc;
    [|by exists r].
  apply commit_recommendation_spec in Hc as ([fid ->] & Hr' & _).
  eexists. simpl. rewrite Hr', lookup_insert_eq. split; [done|].
  repeat split; intros ->; simpl; by repeat case_match.
Qed.

Lemma guard_heeded_str {B} v (f : string → B) d :
  (if Py.truthy v then match v with Py.Str s => f s | _ => d end else d)
  = match heeded v with Py.Str s => f s | _ => d end.
Proof. unfold heeded. by destruct (Py.truthy v), v. Qed.

Lemma guard_heeded_list {B} v (f : list string → B) d :
  (if Py.truthy v then match v with Py.List l => f l | _ => d end else d)
  = match heeded v with Py.List l => f l | _ => d end.
Proof. unfold heeded. by destruct (Py.truthy v), v. Qed.

Lemma update_recommendation_heeded now recommendation_id current_user
    data data' s :
  same_heeded data data' →
  RecommendationUpdate.dict_exclude_unset data ≠ ∅ →
  RecommendationUpdate.dict_exclude_unset data' ≠ ∅ →
  update_recommendation now recommendation_id current_user data s
  = update_recommendation now recommendation_id current_user data' s.
Proof.
  intros (Ht & Hs & Ho & Hf & Hg) Hne Hne'. unfold update_recommendation.
  destruct (get_recommendation_by_id s recommendation_id) as [r|]; [|done].
  case_bool_decide; [done|].
  rewrite !bool_decide_eq_false_2 by (by intros ?).
  destruct (get_dict_exclude_unset data) as (-> & -> & -> & -> & ->).
  destruct (get_dict_exclude_unset data') as (-> & -> & -> & -> & ->).
  cbv zeta. rewrite !guard_heeded_str, !guard_heeded_list.
  by rewrite Ht, Hs, Ho, Hf, Hg.
Qed.

Lemma dict_lookup_nonempty (d : gmap string Py.value) k v :
  d !! k = Some v → d ≠ ∅.
Proof. intros H ->. by rewrite lookup_empty in H. Qed.

Lemma present_but_falsy_truthy f :
  present_but_falsy f → Py.truthy (field_value Py.Str f) = false.
Proof. by intros [-> | ->]. Qed.

(** C8. In a [PATCH] of a recommendation, a [title], [short_description] or
    [opinion] that the body contains with a falsy value ([null] or the
    empty string) leaves the stored column as it was; and two bodies that
    differ only in fields being absent or falsy get the same answer and
    leave the same store, as long as neither body is empty (an empty body
    is answered 400). *)
Theorem patch_falsy_field_as_absent now recommendation_id current_user data
    session r :
  Session.recommendation session !! recommendation_id = Some r →
  (∃ r',
     Session.recommendation
       (update_recommendation now recommendation_id current_user data session).2
       !! recommendation_id = Some r'
     ∧ (present_but_falsy (RecommendationUpdate.title data) →
        Recommendation.title r' = Recommendation.title r)
     ∧ (present_but_falsy (RecommendationUpdate.short_description data) →
        Recommendation.short_description r' = Recommendation.short_description r)
     ∧ (present_but_falsy (RecommendationUpdate.opinion data) →
        Recommendation.opinion r' = Recommendation.opinion r))
  ∧ (∀ data',
       same_heeded data data' →
       RecommendationUpdate.dict_exclude_unset data ≠ ∅ →
       RecommendationUpdate.dict_exclude_unset data' ≠ ∅ →
       update_recommendation now recommendation_id current_user data session
       = update_recommendation now recommendation_id current_user data' session).
Proof.
  intros Hr. split.
  - destruct (update_recommendation_keeps now recommendation_id current_user
                data session r Hr) as (r' & Hr' & Ht & Hs & Ho).
    exists r'. split; [done|].
    repeat split; intros H%present_but_falsy_truthy; auto.
  - intros data'. apply update_recommendation_heeded.
Qed.

Lemma patch_falsy_field_as_absent_witness :
  (∃ r',
     Session.recommendation
       (update_recommendation 7 1 alice sample_patch_empty_title sample_session).2
       !! 1 = Some r'
     ∧ Recommendation.title r' = "Interstellar")
  ∧ update_recommendation 7 1 alice sample_patch_empty_title sample_session
    = update_recommendation 7 1 alice sample_patch_no_title sample_session.
Proof.
  destruct (patch_falsy_field_as_absent 7 1 alice sample_patch_empty_title
              sample_session
              (Recommendation.mk "Interstellar" "Movie about space"
                 "My favorite movie" 1000 None 1 1))
    as [(r' & Hr' & Ht & _) Hsame].
  - vm_compute. reflexivity.
  - split.
    + exists r'. split; [exact Hr'|]. apply Ht. right. reflexivity.
    + apply Hsame.
      * repeat split; reflexivity.
      * apply (dict_lookup_nonempty _ "opinion" (Py.Str "Still my favorite")).
        vm_compute. reflexivity.
      * apply (dict_lookup_nonempty _ "opinion" (Py.Str "Still my favorite")).
        vm_compute. reflexivity.
Defined.

(** What the patch with the empty title does to the sample store. *)
Example patch_empty_title_run :
  (update_recommendation 7 1 alice sample_patch_empty_title sample_session).1
  = Return HTTP_200_OK
      (1, Recommendation.mk "Interstellar" "Movie about space"
            "Still my favorite" 1000 (Some 7) 1 1).
Proof. vm_compute. reflexivity. Qed.

(** ** Python's [strip] *)

Lemma string_app_cons c a b : String c a +:+ b = String c (a +:+ b).
Proof. reflexivity. Qed.

Lemma string_app_nil_r s : s +:+ "" = s.
Proof.
  induction s as [|c s IH]; [done|]. by rewrite string_app_cons, IH.
Qed.

Lemma string_app_assoc a b c : (a +:+ b) +:+ c = a +:+ b +:+ c.
Proof.
  induction a as [|x a IH]; [done|]. by rewrite !string_app_cons, IH.
Qed.

Lemma rev_app_spec s : ∀ acc, String.rev_app s acc = String.rev s +:+ acc.
Proof.
  unfold String.rev. induction s as [|c s IH]; intros acc; simpl; [done|].
  rewrite (IH (String c acc)), (IH (String c "")).
  by rewrite string_app_assoc.
Qed.

Lemma rev_cons c s : String.rev (String c s) = String.rev s +:+ String c "".
Proof. unfold String.rev at 1. simpl. apply rev_app_spec. Qed.

Lemma rev_app_distr a b : String.rev (a +:+ b) = String.rev b +:+ String.rev a.
Proof.
  induction a as [|c a IH].
  - change (String.rev b = String.rev b +:+ ""). by rewrite string_app_nil_r.
  - by rewrite string_app_cons, !rev_cons, IH, string_app_assoc.
Qed.

Lemma rev_involutive s : String.rev (String.rev s) = s.
Proof.
  induction s as [|c s IH]; [done|].
  by rewrite rev_cons, rev_app_distr, IH.
Qed.

Lemma all_space_app a b : all_space (a +:+ b) = all_space a && all_space b.
Proof.
  induction a as [|c a IH]; simpl; [done|]. by rewrite IH, andb_assoc.
Qed.

Lemma all_space_rev s : all_space (String.rev s) = all_space s.
Proof.
  induction s as [|c s IH]; [done|].
  rewrite rev_cons, all_space_app, IH. simpl.
  by rewrite andb_true_r, andb_comm.
Qed.

(** [lstrip] removes a prefix of whitespace and stops at the first
    character that is not whitespace. *)
Lemma lstrip_spec s :
  ∃ l, s = l +:+ Py.lstrip s ∧ all_space l = true
       ∧ (Py.lstrip s = ""
          ∨ ∃ c t, Py.lstrip s = String c t ∧ Py.isspace c = false).
Proof.
  induction s as [|c s (l & Hs & Hl & Hend)]; simpl.
  - exists "". eauto.
  - destruct (Py.isspace c) eqn:Hc.
    + exists (String c l). split; [by rewrite string_app_cons, <-Hs|].
      split; [|done]. simpl. by rewrite Hc, Hl.
    + exists "". split; [done|]. split; [done|]. right. by exists c, s.
Qed.

Lemma lstrip_fixed c t : Py.isspace c = false → Py.lstrip (String c t) = String c t.
Proof. intros Hc. simpl. by rewrite Hc. Qed.

(** A string that ends in a character that is not whitespace keeps that
    end under [lstrip]. *)
Lemma lstrip_snoc u c :
  Py.isspace c = false →
  ∃ w, Py.lstrip (u +:+ String c "") = w +:+ String c "".
Proof.
  intros Hc. induction u as [|d u [w Hw]].
  - exists "". simpl. by rewrite Hc.
  - rewrite string_app_cons. simpl.
    destruct (Py.isspace d); [by exists w|]. by exists (String d u).
Qed.

Lemma rstrip_spec s :
  ∃ r, s = Py.rstrip s +:+ r ∧ all_space r = true.
Proof.
  unfold Py.rstrip. destruct (lstrip_spec (String.rev s)) as (l & Hs & Hl & _).
  exists (String.rev l). rewrite all_space_rev. split; [|done].
  by rewrite <-rev_app_distr, <-Hs, rev_involutive.
Qed.

(** [rstrip] leaves the first character alone when it is not whitespace. *)
Lemma rstrip_head c t :
  Py.isspace c = false → ∃ t', Py.rstrip (String c t) = String c t'.
Proof.
  intros Hc. unfold Py.rstrip. rewrite rev_cons.
  destruct (lstrip_snoc (String.rev t) c Hc) as [w ->].
  rewrite rev_app_distr. simpl. by eexists.
Qed.

Lemma rstrip_idemp s : Py.rstrip (Py.rstrip s) = Py.rstrip s.
Proof.
  unfold Py.rstrip. rewrite rev_involutive. f_equal.
  destruct (lstrip_spec (String.rev s)) as (_ & _ & _ & [->|(c & t & -> & Hc)]);
    [done|by apply lstrip_fixed].
Qed.

(** [strip] cuts whitespace off both ends and nothing else, and leaves
    nothing more to cut. *)
Lemma strip_spec s :
  (∃ l r, s = l +:+ Py.strip s +:+ r
          ∧ all_space l = true ∧ all_space r = true)
  ∧ Py.strip (Py.strip s) = Py.strip s.
Proof.
  unfold Py.strip. split.
  - destruct (lstrip_spec s) as (l & Hs & Hl & _).
    destruct (rstrip_spec (Py.lstrip s)) as (r & Hr & Hr').
    exists l, r. by rewrite <-Hr.
  - destruct (lstrip_spec s) as (_ & _ & _ & [->|(c & t & -> & Hc)]);
      [done|].
    destruct (rstrip_head c t Hc) as [t' Ht]. rewrite Ht.
    rewrite (lstrip_fixed c t' Hc), <-Ht. apply rstrip_idemp.
Qed.

Lemma string_length_app a b :
  String.length (a +:+ b) = (String.length a + String.length b)%nat.
Proof. induction a as [|c a IH]; simpl; [done|by f_equal]. Qed.

(** ** Reference data: tags and fiction types *)

Lemma save_tag_spec session raw :
  match save_tag session raw with
  | Persistent id row =>
      Session.tag session !! id = Some row ∧ Tag.name row = normalize_tag raw
  | Pending row =>
      row = Tag.mk (normalize_tag raw)
      ∧ ∀ id r, Session.tag session !! id = Some r →
                Tag.name r ≠ normalize_tag raw
  | Incomplete =>
      Tag.name_ok (normalize_tag raw) = false
      ∧ ∀ id r, Session.tag session !! id = Some r →
                Tag.name r ≠ normalize_tag raw
  end.
Proof.
  unfold save_tag. cbv zeta. fold (normalize_tag raw).
  destruct (Session.first _ _) as [[id row]|] eqn:Hf.
  - apply first_Some in Hf as [Hid Hname].
    by apply bool_decide_eq_true in Hname.
  - assert (∀ id r, Session.tag session !! id = Some r →
                    Tag.name r ≠ normalize_tag raw) as Hnew.
    { intros id r Hid. rewrite first_None in Hf.
      specialize (Hf id r Hid). by apply bool_decide_eq_false in Hf. }
    unfold new_Tag. by destruct (Tag.name_ok _).
Qed.

(** A pending tag has a name its field accepts. *)
Lemma save_tag_pending session raw row :
  save_tag session raw = Pending row →
  Tag.name_ok (normalize_tag raw) = true.
Proof.
  unfold save_tag. cbv zeta. fold (normalize_tag raw).
  destruct (Session.first _ _) as [[id r]|]; [done|].
  unfold new_Tag. by destruct (Tag.name_ok _).
Qed.

Lemma length_replace old new s :
  String.length (Py.replace old new s) = String.length s.
Proof. induction s as [|c s IH]; simpl; by f_equal. Qed.


(** The slug is as long as the name, so the name decides. *)
Lemma slug_ok_of_name name :
  FictionType.name_ok name = true →
  FictionType.slug_ok (Py.replace " " "-" name) = true.
Proof.
  unfold FictionType.name_ok, FictionType.slug_ok, length_between.
  rewrite length_replace, !bool_decide_eq_true. lia.
Qed.

Lemma new_FictionType_slug name :
  new_FictionType name (Py.replace " " "-" name)
  = if FictionType.name_ok name
    then Pending (FictionType.mk name (Py.replace " " "-" name))
    else Incomplete.
Proof.
  unfold new_FictionType.
  destruct (FictionType.name_ok name) eqn:Hok; [|done].
  by rewrite slug_ok_of_name.
Qed.

Lemma save_fiction_type_spec session raw :
  match save_fiction_type session raw with
  | Persistent id row =>
      Session.fiction_type session !! id = Some row
      ∧ FictionType.name row = normalize_fiction_type raw
  | Pending row =>
      row = FictionType.mk (normalize_fiction_type raw)
              (Py.replace " " "-" (normalize_fiction_type raw))
      ∧ ∀ id r, Session.fiction_type session !! id = Some r →
                FictionType.name r ≠ normalize_fiction_type raw
  | Incomplete =>
      FictionType.name_ok (normalize_fiction_type raw) = false
      ∧ ∀ id r, Session.fiction_type session !! id = Some r →
                FictionType.name r ≠ normalize_fiction_type raw
  end.
Proof.
  unfold save_fiction_type. cbv zeta. fold (normalize_fiction_type raw).
  destruct (Session.first _ _) as [[id row]|] eqn:Hf.
  - apply first_Some in Hf as [Hid Hname].
    by apply bool_decide_eq_true in Hname.
  - assert (∀ id r, Session.fiction_type session !! id = Some r →
                    FictionType.name r ≠ normalize_fiction_type raw) as Hnew.
    { intros id r Hid. rewrite first_None in Hf.
      specialize (Hf id r Hid). by apply bool_decide_eq_false in Hf. }
    rewrite new_FictionType_slug. by destruct (FictionType.name_ok _).
Qed.

Lemma save_fiction_type_pending session raw row :
  save_fiction_type session raw = Pending row →
  FictionType.name_ok (normalize_fiction_type raw) = true.
Proof.
  unfold save_fiction_type. cbv zeta. fold (normalize_fiction_type raw).
  destruct (Session.first _ _) as [[id r]|]; [done|].
  rewrite new_FictionType_slug. by destruct (FictionType.name_ok _).
Qed.

(** The name an object returned by the look-ups carries, when it has
    one. *)
Lemma save_tag_row session raw row :
  row_of (save_tag session raw) = Some row → Tag.name row = normalize_tag raw.
Proof.
  pose proof (save_tag_spec session raw) as Hs.
  destruct (save_tag session raw); simpl; intros [= <-];
    [by destruct Hs|by destruct Hs as [-> _]].
Qed.

Lemma save_tag_row_mk session raw row :
  row_of (save_tag session raw) = Some row → row = Tag.mk (normalize_tag raw).
Proof. intros H%save_tag_row. destruct row. simpl in H. by subst. Qed.

Lemma save_fiction_type_row session raw row :
  row_of (save_fiction_type session raw) = Some row →
  FictionType.name row = normalize_fiction_type raw.
Proof.
  pose proof (save_fiction_type_spec session raw) as Hs.
  destruct (save_fiction_type session raw); simpl; intros [= <-];
    [by destruct Hs|by destruct Hs as [-> _]].
Qed.

(** The raw label of the counterexample below has two spaces in a row. *)
Example normalize_tag_run :
  normalize_tag "  Sci  Fy " = "sci--fy"
  ∧ normalize_fiction_type " TV  Series" = "tv  series"
  ∧ spec_normalize "-" "  Sci  Fy " = "sci-fy".
Proof. vm_compute. done. Qed.




(** ** Commits that meet a row of the same name *)

Lemma flush_tag_keeps o s id s1 k r :
  Session.flush_tag o s = Some (id, s1) →
  Session.tag s !! k = Some r → Session.tag s1 !! k = Some r.
Proof.
  unfold Session.flush_tag. intros H Hk.
  destruct o as [id' row|row|]; [by simplify_eq| |done].
  destruct (Session.first _ _); [done|]. simplify_eq. simpl.
  rewrite lookup_insert_ne; [done|]. intros <-.
  by rewrite next_id_fresh in Hk.
Qed.

Lemma flush_tag_conflict row s k r :
  Session.tag s !! k = Some r → Tag.name r = Tag.name row →
  Session.flush_tag (Pending row) s = None.
Proof.
  intros Hk Hname. unfold Session.flush_tag.
  destruct (Session.first _ _) eqn:Hf; [done|].
  rewrite first_None in Hf. specialize (Hf k r Hk).
  by apply bool_decide_eq_false in Hf.
Qed.

Lemma flush_tags_conflict os : ∀ s row k r,
  Pending row ∈ os →
  Session.tag s !! k = Some r → Tag.name r = Tag.name row →
  Session.flush_tags os s = None.
Proof.
  induction os as [|o os IH]; intros s row k r Hin Hk Hname.
  - by apply elem_of_nil in Hin.
  - simpl. apply elem_of_cons in Hin as [<-|Hin].
    + by rewrite (flush_tag_conflict row s k r).
    + destruct (Session.flush_tag o s) as [[id s1]|] eqn:H1; [simpl|done].
      rewrite (IH s1 row k r); [done|done| |done].
      by eapply flush_tag_keeps.
Qed.

Lemma flush_fiction_type_conflict row s k r :
  Session.fiction_type s !! k = Some r →
  FictionType.name r = FictionType.name row →
  Session.flush_fiction_type (Pending row) s = None.
Proof.
  intros Hk Hname. unfold Session.flush_fiction_type.
  destruct (Session.first _ _) eqn:Hf; [done|].
  rewrite first_None in Hf. specialize (Hf k r Hk).
  apply bool_decide_eq_false in Hf. destruct Hf. by left.
Qed.

(** An incomplete object cannot be flushed, wherever it stands. *)
Lemma flush_tags_incomplete os : ∀ s,
  Incomplete ∈ os → Session.flush_tags os s = None.
Proof.
  induction os as [|o os IH]; intros s Hin.
  - by apply elem_of_nil in Hin.
  - simpl. apply elem_of_cons in Hin as [<-|Hin]; [done|].
    destruct (Session.flush_tag o s) as [[id s1]|]; [simpl|done].
    by rewrite IH.
Qed.

(** ** Labels that repeat within one request *)

Lemma length_save_tags session tags :
  length (save_tags session tags) = length tags.
Proof. unfold save_tags. apply length_fmap. Qed.

Lemma flush_tags_cons o os s :
  Session.flush_tags (o :: os) s
  = '(id, s1) ← Session.flush_tag o s;
    '(ids, s2) ← Session.flush_tags os s1;
    Some (id :: ids, s2).
Proof. reflexivity. Qed.

Lemma flush_tag_pending_stored row s id s1 :
  Session.flush_tag (Pending row) s = Some (id, s1) →
  Session.tag s1 !! id = Some row.
Proof.
  unfold Session.flush_tag. destruct (Session.first _ _); [done|].
  intros [= <- <-]. simpl. apply lookup_insert_eq.
Qed.

(** Two pending tags of one name cannot both be flushed. *)
Lemma flush_tags_duplicate l1 : ∀ s row l2 row' l3,
  Tag.name row = Tag.name row' →
  Session.flush_tags (l1 ++ Pending row :: l2 ++ Pending row' :: l3) s = None.
Proof.
  induction l1 as [|o l1 IH]; intros s row l2 row' l3 Hname.
  - rewrite app_nil_l, flush_tags_cons.
    destruct (Session.flush_tag (Pending row) s) as [[id s1]|] eqn:H1;
      [simpl|done].
    apply flush_tag_pending_stored in H1.
    rewrite (flush_tags_conflict _ s1 row' id row); [done| |done|done].
    apply elem_of_app. right. left.
  - rewrite <-app_comm_cons, flush_tags_cons.
    destruct (Session.flush_tag o s) as [[id s1]|]; [simpl|done].
    by rewrite IH.
Qed.

(** Whenever two labels of a creation request normalise to one name that
    has no row yet, the request ends in the unhandled [IntegrityError]. *)
Lemma duplicate_labels_break_commit models data current_user session
    l1 a l2 b l3 :
  RecommendationCreate.tags data = l1 ++ a :: l2 ++ b :: l3 →
  normalize_tag a = normalize_tag b →
  (∀ id r, Session.tag session !! id = Some r → Tag.name r ≠ normalize_tag a) →
  post_recommendation models data current_user session
  = (Unhandled IntegrityError, session).
Proof.
  intros Htags Hab Hnew.
  unfold post_recommendation, post_recommendation_between. cbv zeta.
  assert (∀ x, normalize_tag x = normalize_tag a →
               save_tag session x = Pending (Tag.mk (normalize_tag a))
               ∨ save_tag session x = Incomplete) as Hp.
  { intros x Hx. pose proof (save_tag_spec session x) as Hs. rewrite Hx in Hs.
    destruct (save_tag session x) as [id' row'|row'|].
    - destruct Hs as [Hid' Hname']. by destruct (Hnew id' row' Hid').
    - destruct Hs as [-> _]. by left.
    - by right. }
  unfold commit_new_recommendation, save_tags. rewrite Htags.
  rewrite fmap_app, fmap_cons, fmap_app, fmap_cons.
  destruct (Session.flush_fiction_type _ session) as [[fid s1]|];
    [simpl|done].
  destruct (Hp a eq_refl) as [Ha|Ha], (Hp b (eq_sym Hab)) as [Hb|Hb];
    rewrite Ha, Hb.
  - by rewrite flush_tags_duplicate.
  - rewrite flush_tags_incomplete; [done|].
    rewrite elem_of_app, elem_of_cons, elem_of_app, elem_of_cons. tauto.
  - rewrite flush_tags_incomplete; [done|].
    rewrite elem_of_app, elem_of_cons. tauto.
  - rewrite flush_tags_incomplete; [done|].
    rewrite elem_of_app, elem_of_cons. tauto.
Qed.

(** C3. [save_tags] returns one object per label, also when two labels
    normalise to the same name: for ["Sci-Fy"; " sci-fy "] on a store
    without that tag it builds two pending rows named [sci-fy], the commit
    breaks the uniqueness of [Tag.name] and the request ends in an
    unhandled [IntegrityError] with nothing stored; when the tag exists,
    the same row is listed twice. *)
Theorem duplicate_labels_not_collapsed :
  (∀ session tags, length (save_tags session tags) = length tags)
  ∧ save_tags Session.empty ["Sci-Fy"; " sci-fy "]
    = [Pending (Tag.mk "sci-fy"); Pending (Tag.mk "sci-fy")]
  ∧ post_recommendation sample_models sample_create_twice alice Session.empty
    = (Unhandled IntegrityError, Session.empty)
  ∧ save_tags sample_after_bob ["Sci-Fy"; " sci-fy "]
    = [Persistent 1 (Tag.mk "sci-fy"); Persistent 1 (Tag.mk "sci-fy")].
Proof.
  split; [apply length_save_tags|]. vm_compute. done.
Qed.

(** ** A commit that loses the race *)

(** C5, as stated, fails. [alice] and [bob] post the same new labels at the
    same time; both look the tags up in the empty store and find none.
    [bob] commits first. [alice]'s commit then meets his rows: her request
    ends in the unhandled [IntegrityError] (status 500), although looking
    the tags up again in the store as it now is would have let it
    through. *)
Lemma lost_race_surfaces_error :
  post_recommendation_between sample_models sample_create alice
    Session.empty sample_after_bob
  = (Unhandled IntegrityError, sample_after_bob)
  ∧ status (post_recommendation_between sample_models sample_create alice
              Session.empty sample_after_bob).1
    = HTTP_500_INTERNAL_SERVER_ERROR
  ∧ status (post_recommendation sample_models sample_create alice
              sample_after_bob).1
    = HTTP_201_CREATED.
Proof. vm_compute. done. Qed.

(** C5, amended. The handler commits once and catches nothing. When a
    label (or the fiction type) of the request had no row at look-up time
    but has one at commit time, the commit fails on the uniqueness of the
    name, the [IntegrityError] goes unhandled - an internal error - and the
    store is left as the commit found it. No outcome other than 201 or
    that unhandled error exists: nothing is retried. *)
Theorem commit_failure_not_retried models data current_user seen session :
  (∀ label id row,
     label ∈ RecommendationCreate.tags data →
     (∀ i r, Session.tag seen !! i = Some r → Tag.name r ≠ normalize_tag label) →
     Session.tag session !! id = Some row →
     Tag.name row = normalize_tag label →
     post_recommendation_between models data current_user seen session
     = (Unhandled IntegrityError, session))
  ∧ (∀ id row,
     (∀ i r, Session.fiction_type seen !! i = Some r →
             FictionType.name r
             ≠ normalize_fiction_type (RecommendationCreate.fiction_type data)) →
     Session.fiction_type session !! id = Some row →
     FictionType.name row
     = normalize_fiction_type (RecommendationCreate.fiction_type data) →
     post_recommendation_between models data current_user seen session
     = (Unhandled IntegrityError, session))
  ∧ (status (post_recommendation_between models data current_user seen
               session).1 = HTTP_201_CREATED
     ∨ post_recommendation_between models data current_user seen session
       = (Unhandled IntegrityError, session)).
Proof.
  unfold post_recommendation_between. cbv zeta. repeat split.
  - intros label id row Hin Hseen Hid Hname.
    assert (commit_new_recommendation
              (RecommendationCreate.title data)
              (RecommendationCreate.short_description data)
              (RecommendationCreate.opinion data)
              (Recommendation_published_default models)
              (save_fiction_type seen (RecommendationCreate.fiction_type data))
              (save_tags seen (RecommendationCreate.tags data))
              current_user session = None) as ->; [|done].
    unfold commit_new_recommendation.
    destruct (Session.flush_fiction_type _ session) as [[fid s1]|] eqn:H1;
      [simpl|done].
    apply flush_fiction_type_frame in H1 as (Ht & _).
    assert (save_tag seen label ∈ save_tags seen (RecommendationCreate.tags data))
      as Hobj by by apply list_elem_of_fmap_2.
    pose proof (save_tag_spec seen label) as Hs.
    destruct (save_tag seen label) as [id' row'|row'|].
    + destruct Hs as [Hid' Hname']. by destruct (Hseen id' row' Hid').
    + destruct Hs as [-> _].
      by rewrite (flush_tags_conflict _ s1 (Tag.mk (normalize_tag label)) id
                    row); [|done|rewrite Ht|].
    + by rewrite flush_tags_incomplete.
  - intros id row Hseen Hid Hname.
    pose proof (save_fiction_type_spec seen
                  (RecommendationCreate.fiction_type data)) as Hs.
    destruct (save_fiction_type seen _) as [id' row'|row'|].
    + destruct Hs as [Hid' Hname']. by destruct (Hseen id' row' Hid').
    + destruct Hs as [-> _]. unfold commit_new_recommendation.
      by rewrite (flush_fiction_type_conflict _ session id row).
    + done.
  - destruct (commit_new_recommendation _ _ _ _ _ _ _ _) as [[[id row] s']|];
      [by left|by right].
Qed.

Lemma commit_failure_not_retried_witness :
  post_recommendation_between sample_models sample_create alice
    Session.empty sample_after_bob
  = (Unhandled IntegrityError, sample_after_bob).
Proof.
  destruct (commit_failure_not_retried sample_models sample_create alice
              Session.empty sample_after_bob) as (Htag & _ & _).
  apply (Htag "space" 2 (Tag.mk "space")).
  - vm_compute. apply list_elem_of_In. right. left. reflexivity.
  - intros i r Hi. simpl in Hi. by rewrite lookup_empty in Hi.
  - vm_compute. reflexivity.
  - vm_compute. reflexivity.
Defined.

(** ** Listings *)

#[global] Instance id_asc_transitive {A} : Transitive (@Query.id_asc A).
Proof. intros a b c. unfold Query.id_asc. lia. Qed.

#[global] Instance id_asc_total {A} : Total (@Query.id_asc A).
Proof. intros a b. unfold Query.id_asc. lia. Qed.

#[global] Instance published_asc_transitive : Transitive published_asc.
Proof. intros a b c. unfold published_asc. lia. Qed.

#[global] Instance published_asc_total : Total published_asc.
Proof. intros a b. unfold published_asc. lia. Qed.

#[global] Instance published_desc_transitive : Transitive published_desc.
Proof. intros a b c. unfold published_desc. lia. Qed.

#[global] Instance published_desc_total : Total published_desc.
Proof. intros a b. unfold published_desc. lia. Qed.

Section select.
Context {A : Type} (p : Z * A → Prop) `{!∀ x, Decision (p x)}.
Context (r : relation (Z * A)) `{!∀ x y, Decision (r x y)}.
Implicit Types (table : gmap Z A).




End select.

Lemma page_sublist {A} offset limit (rows : list A) :
  Query.page offset limit rows `sublist_of` rows.
Proof.
  unfold Query.page. destruct offset, limit; cbv zeta;
    [|apply sublist_drop|apply sublist_take|done].
  etrans; [apply sublist_take|apply sublist_drop].
Qed.














(** ** What a flush writes *)

Lemma save_tag_backed session raw : backed (Session.tag session) (save_tag session raw).
Proof.
  pose proof (save_tag_spec session raw) as H.
  destruct (save_tag session raw); simpl; [by destruct H|done..].
Qed.

Lemma save_fiction_type_backed session raw :
  backed (Session.fiction_type session) (save_fiction_type session raw).
Proof.
  pose proof (save_fiction_type_spec session raw) as H.
  destruct (save_fiction_type session raw); simpl; [by destruct H|done..].
Qed.

Lemma flush_tag_spec o s id s1 :
  Session.flush_tag o s = Some (id, s1) →
  backed (Session.tag s) o →
  Session.tag s1 !! id = row_of o
  ∧ (∀ k r, Session.tag s !! k = Some r → Session.tag s1 !! k = Some r)
  ∧ (∀ k r, Session.tag s1 !! k = Some r →
            Session.tag s !! k = Some r
            ∨ (o = Pending r
               ∧ ∀ k' r', Session.tag s !! k' = Some r' →
                          Tag.name r' ≠ Tag.name r)).
Proof.
  intros H Hb. split; [|split].
  - destruct o as [id' row|row|]; simpl in *.
    + by simplify_eq.
    + by eapply flush_tag_pending_stored.
    + done.
  - intros k r. by eapply flush_tag_keeps.
  - intros k r Hk. unfold Session.flush_tag in H.
    destruct o as [id' row|row|]; [simplify_eq; by left| |done].
    destruct (Session.first _ _) eqn:Hf; [done|]. simplify_eq. simpl in *.
    apply lookup_insert_Some in Hk as [[_ <-]|[_ Hk]]; [|by left].
    right. split; [done|]. intros k' r' Hk'. rewrite first_None in Hf.
    specialize (Hf k' r' Hk'). by apply bool_decide_eq_false in Hf.
Qed.

Lemma flush_tags_spec os : ∀ s ids s',
  Session.flush_tags os s = Some (ids, s') →
  Forall (backed (Session.tag s)) os →
  Forall2 (λ o id, Session.tag s' !! id = row_of o ∧ is_Some (row_of o))
    os ids
  ∧ (∀ k r, Session.tag s !! k = Some r → Session.tag s' !! k = Some r)
  ∧ (∀ k r, Session.tag s' !! k = Some r →
            Session.tag s !! k = Some r
            ∨ (Pending r ∈ os
               ∧ ∀ k' r', Session.tag s !! k' = Some r' →
                          Tag.name r' ≠ Tag.name r)).
Proof.
  induction os as [|o os IH]; intros s ids s' H Hb.
  - simpl in H. simplify_eq. split; [constructor|]. split; [done|].
    intros k r Hk. by left.
  - rewrite flush_tags_cons in H.
    destruct (Session.flush_tag o s) as [[id s1]|] eqn:H1; [simpl in H|done].
    destruct (Session.flush_tags os s1) as [[ids' s2]|] eqn:H2;
      [simpl in H|done].
    simplify_eq. apply Forall_cons in Hb as [Hbo Hbos].
    destruct (flush_tag_spec o s id s1 H1 Hbo) as (Hid & Hkeep1 & Hnew1).
    assert (Forall (backed (Session.tag s1)) os) as Hbos1.
    { eapply Forall_impl; [exact Hbos|]. intros [k r|r|]; simpl; [|done..].
      apply Hkeep1. }
    destruct (IH s1 ids' s' H2 Hbos1) as (Hall & Hkeep2 & Hnew2).
    split; [|split].
    + constructor; [|done].
      destruct (row_of o) as [r|] eqn:Hrow.
      * split; [by apply Hkeep2|by eexists].
      * by destruct o.
    + intros k r Hk. by apply Hkeep2, Hkeep1.
    + intros k r Hk. destruct (Hnew2 k r Hk) as [Hk1|[Hin Hfresh]].
      * destruct (Hnew1 k r Hk1) as [?|[-> Hfresh]]; [by left|].
        right. split; [left|done].
      * right. split; [by right|]. intros k' r' Hk'.
        apply (Hfresh k'). by apply Hkeep1.
Qed.

Lemma flush_fiction_type_spec o s id s1 :
  Session.flush_fiction_type o s = Some (id, s1) →
  backed (Session.fiction_type s) o →
  Session.fiction_type s1 !! id = row_of o
  ∧ is_Some (row_of o)
  ∧ (∀ k r, Session.fiction_type s !! k = Some r →
            Session.fiction_type s1 !! k = Some r)
  ∧ (∀ k r, Session.fiction_type s1 !! k = Some r →
            Session.fiction_type s !! k = Some r
            ∨ (o = Pending r
               ∧ ∀ k' r', Session.fiction_type s !! k' = Some r' →
                          FictionType.name r' ≠ FictionType.name r
                          ∧ FictionType.slug r' ≠ FictionType.slug r)).
Proof.
  unfold Session.flush_fiction_type. intros H Hb.
  destruct o as [id' row|row|]; simpl in *; [| |done].
  - simplify_eq. split; [done|]. split; [by eexists|]. split; [done|].
    intros k r Hk. by left.
  - destruct (Session.first _ _) eqn:Hf; [done|]. simplify_eq. simpl.
    rewrite first_None in Hf.
    split; [apply lookup_insert_eq|]. split; [by eexists|]. split.
    + intros k r Hk. rewrite lookup_insert_ne; [done|]. intros <-.
      by rewrite next_id_fresh in Hk.
    + intros k r Hk.
      apply lookup_insert_Some in Hk as [[_ <-]|[_ Hk]]; [|by left].
      right. split; [done|]. intros k' r' Hk'.
      specialize (Hf k' r' Hk'). apply bool_decide_eq_false in Hf.
      split; intros ?; apply Hf; [by left|by right].
Qed.

Lemma insert_links_spec rid ids : ∀ links links',
  Session.insert_links rid ids links = Some links' →
  ∀ p, p ∈ links' ↔ p ∈ links ∨ (p.1 = rid ∧ p.2 ∈ ids).
Proof.
  induction ids as [|t ids IH]; intros links links' H p; simpl in H.
  - simplify_eq. split; [by left|]. intros [?|[_ Hin]]; [done|].
    by apply elem_of_nil in Hin.
  - case_bool_decide; [done|]. rewrite (IH _ _ H p).
    rewrite elem_of_union, elem_of_singleton, elem_of_cons.
    destruct p as [a b]. simpl. split.
    + intros [[[= -> ->]|Hin]|[-> Hin]]; auto.
    + intros [Hin|[-> [->|Hin]]]; auto.
Qed.

Lemma commit_new_recommendation_inv title short_description opinion published
    fiction_type tags user s id row s' :
  commit_new_recommendation title short_description opinion published
    fiction_type tags user s = Some (id, row, s') →
  ∃ fid s1 tag_ids s2,
    Session.flush_fiction_type fiction_type s = Some (fid, s1)
    ∧ Session.flush_tags tags s1 = Some (tag_ids, s2)
    ∧ Session.insert_links id tag_ids (Session.tagged_recommendations s)
      = Some (Session.tagged_recommendations s')
    ∧ id = Session.next_id (Session.recommendation s)
    ∧ row = Recommendation.mk title short_description opinion published None
              (User.id user) fid
    ∧ Session.recommendation s' = <[id := row]> (Session.recommendation s)
    ∧ Session.fiction_type s' = Session.fiction_type s1
    ∧ Session.tag s' = Session.tag s2
    ∧ Session.tag s1 = Session.tag s
    ∧ Session.comment s' = Session.comment s
    ∧ Session.reaction s' = Session.reaction s.
Proof.
  unfold commit_new_recommendation. intros H.
  destruct (Session.flush_fiction_type fiction_type s) as [[fid s1]|] eqn:H1;
    [simpl in H|done].
  destruct (Session.flush_tags tags s1) as [[ids s2]|] eqn:H2;
    [simpl in H|done].
  destruct (Session.insert_links _ _ _) as [links|] eqn:H3; [simpl in H|done].
  simplify_eq. exists fid, s1, ids, s2.
  pose proof (flush_fiction_type_frame _ _ _ _ H1) as (Ht1 & Hr1 & Hl1 & Hc1 & Hx1).
  pose proof (flush_tags_frame _ _ _ _ H2) as (Hf2 & Hr2 & Hl2 & Hc2 & Hx2).
  simpl. rewrite Hr2, Hr1, Hl2, Hl1 in *. rewrite Hf2, Hc2, Hc1, Hx2, Hx1.
  done.
Qed.

Lemma post_recommendation_inv models data current_user s id row s' :
  post_recommendation models data current_user s
  = (Return HTTP_201_CREATED (id, row), s') →
  commit_new_recommendation
    (RecommendationCreate.title data)
    (RecommendationCreate.short_description data)
    (RecommendationCreate.opinion data)
    (Recommendation_published_default models)
    (save_fiction_type s (RecommendationCreate.fiction_type data))
    (save_tags s (RecommendationCreate.tags data)) current_user s
  = Some (id, row, s').
Proof.
  unfold post_recommendation, post_recommendation_between. cbv zeta.
  destruct (commit_new_recommendation _ _ _ _ _ _ _ _) as [[[id' row'] s'']|];
    [|done].
  by intros [= -> -> ->].
Qed.

Lemma save_tags_backed s tags :
  Forall (backed (Session.tag s)) (save_tags s tags).
Proof.
  unfold save_tags. apply Forall_fmap, Forall_forall. intros raw _.
  apply save_tag_backed.
Qed.

(** X6. A recommendation that [post_recommendation] created can be read
    back: its id was not in use, [get_recommendation] returns it, it
    carries the title, short description and opinion of the request, the
    id of the user and no update time; its fiction type is a stored row
    named by the normalised input; every label of the request is linked to
    a stored tag named by the normalised label; and the recommendations
    that were there are still there. *)
Theorem post_recommendation_stores models data current_user session id row
    session' :
  post_recommendation models data current_user session
  = (Return HTTP_201_CREATED (id, row), session') →
  Session.recommendation session !! id = None
  ∧ get_recommendation id session' = Return HTTP_200_OK (id, row)
  ∧ Recommendation.title row = RecommendationCreate.title data
  ∧ Recommendation.short_description row
    = RecommendationCreate.short_description data
  ∧ Recommendation.opinion row = RecommendationCreate.opinion data
  ∧ Recommendation.user_id row = User.id current_user
  ∧ Recommendation.updated row = None
  ∧ (∃ ft, Session.fiction_type session'
             !! Recommendation.fiction_type_id row = Some ft
           ∧ FictionType.name ft
             = normalize_fiction_type (RecommendationCreate.fiction_type data))
  ∧ (∀ label, label ∈ RecommendationCreate.tags data →
       ∃ tag_id,
         (id, tag_id) ∈ Session.tagged_recommendations session'
         ∧ Session.tag session' !! tag_id = Some (Tag.mk (normalize_tag label)))
  ∧ (∀ k r, Session.recommendation session !! k = Some r →
            Session.recommendation session' !! k = Some r).
Proof.
  intros H. apply post_recommendation_inv, commit_new_recommendation_inv in H
    as (fid & s1 & ids & s2 & H1 & H2 & H3 & Hid & -> & Hr & Hf & Ht & Ht1
        & _ & _).
  assert (Session.recommendation session !! id = None) as Hfresh
    by (rewrite Hid; apply next_id_fresh).
  split; [done|]. split.
  { unfold get_recommendation,
      get_recommendation_by_id_with_tags_and_fiction_type.
    destruct (Session.first _ _) as [[k r]|] eqn:Hfirst; simpl.
    - apply first_Some in Hfirst as [Hk ->%bool_decide_eq_true].
      rewrite Hr, lookup_insert_eq in Hk. by simplify_eq.
    - rewrite first_None in Hfirst.
      specialize (Hfirst id _ ltac:(by rewrite Hr, lookup_insert_eq)).
      by apply bool_decide_eq_false in Hfirst. }
  simpl. do 5 (split; [done|]).
  destruct (flush_fiction_type_spec _ _ _ _ H1 (save_fiction_type_backed _ _))
    as (Hfid & [ft Hft] & _).
  assert (Forall (backed (Session.tag s1))
            (save_tags session (RecommendationCreate.tags data))) as Hb
    by (rewrite Ht1; apply save_tags_backed).
  destruct (flush_tags_spec _ _ _ _ H2 Hb) as (Hall & _ & _).
  split; [|split].
  - exists ft. split; [by rewrite Hf, Hfid|].
    by eapply save_fiction_type_row.
  - intros label Hin.
    assert (save_tag session label
              ∈ save_tags session (RecommendationCreate.tags data)) as Hin'
      by by apply list_elem_of_fmap_2.
    apply list_elem_of_lookup in Hin' as [i Hi].
    destruct (Forall2_lookup_l _ _ _ _ _ Hall Hi)
      as (tid & Hti & Hstored & [r Hrow]).
    exists tid. split.
    + apply (insert_links_spec _ _ _ _ H3). right. split; [done|].
      by eapply list_elem_of_lookup_2.
    + rewrite Ht, Hstored, Hrow. f_equal. by eapply save_tag_row_mk.
  - intros k r Hk. rewrite Hr, lookup_insert_ne; [done|]. intros <-.
    by rewrite Hfresh in Hk.
Qed.

Lemma post_recommendation_stores_witness :
  get_recommendation 1 sample_after_bob
  = Return HTTP_200_OK
      (1, Recommendation.mk "Interstellar" "Movie about space"
            "My favorite movie" 1000 None 2 1).
Proof.
  destruct (post_recommendation_stores sample_models sample_create bob
              Session.empty 1
              (Recommendation.mk "Interstellar" "Movie about space"
                 "My favorite movie" 1000 None 2 1)
              sample_after_bob) as (_ & Hget & _).
  - vm_compute. reflexivity.
  - exact Hget.
Defined.

(** ** What the handlers hand to a commit *)

Lemma commit_recommendation_inv id r fiction_type tags s r' s' :
  commit_recommendation id r fiction_type tags s = Some (r', s') →
  ∃ s1 s2,
    match fiction_type with
    | None => s1 = s ∧ r' = r
    | Some o =>
        ∃ fid, Session.flush_fiction_type o s = Some (fid, s1)
               ∧ r' = Recommendation.set_fiction_type_id fid r
    end
    ∧ match tags with
      | None =>
          s2 = s1
          ∧ Session.tagged_recommendations s' = Session.tagged_recommendations s
      | Some os =>
          ∃ ids, Session.flush_tags os s1 = Some (ids, s2)
                 ∧ Session.replace_links id ids (Session.tagged_recommendations s)
                   = Some (Session.tagged_recommendations s')
      end
    ∧ Session.recommendation s' = <[id := r']> (Session.recommendation s)
    ∧ Session.fiction_type s' = Session.fiction_type s1
    ∧ Session.tag s' = Session.tag s2
    ∧ Session.tag s1 = Session.tag s
    ∧ Session.comment s' = Session.comment s
    ∧ Session.reaction s' = Session.reaction s.
Proof.
  unfold commit_recommendation. intros H.
  destruct fiction_type as [o|]; simpl in H.
  - destruct (Session.flush_fiction_type o s) as [[fid s1]|] eqn:H1;
      [simpl in H|done].
    pose proof (flush_fiction_type_frame _ _ _ _ H1)
      as (Ht1 & Hr1 & Hl1 & Hc1 & Hx1).
    destruct tags as [os|]; simpl in H.
    + destruct (Session.flush_tags os s1) as [[ids s2]|] eqn:H2;
        [simpl in H|done].
      destruct (Session.replace_links _ _ _) as [links|] eqn:H3;
        [simpl in H|done].
      simplify_eq.
      pose proof (flush_tags_frame _ _ _ _ H2) as (Hf2 & Hr2 & Hl2 & Hc2 & Hx2).
      exists s1, s2. simpl. rewrite Hl2, Hl1 in H3.
      rewrite Hr2, Hr1, Hf2, Hc2, Hc1, Hx2, Hx1. (split; [eauto|split; [eauto|done]]).
    + simplify_eq. exists s1, s1. simpl. rewrite Hr1, Hl1, Hc1, Hx1. (split; [eauto|split; [eauto|done]]).
  - destruct tags as [os|]; simpl in H.
    + destruct (Session.flush_tags os s) as [[ids s2]|] eqn:H2;
        [simpl in H|done].
      destruct (Session.replace_links _ _ _) as [links|] eqn:H3;
        [simpl in H|done].
      simplify_eq.
      pose proof (flush_tags_frame _ _ _ _ H2) as (Hf2 & Hr2 & Hl2 & Hc2 & Hx2).
      exists s, s2. simpl. rewrite Hl2 in H3.
      rewrite Hr2, Hf2, Hc2, Hx2. (split; [eauto|split; [eauto|done]]).
    + simplify_eq. exists s, s. simpl. (split; [eauto|split; [eauto|done]]).
Qed.

(** What [update_recommendation] hands to the commit. *)
Lemma update_recommendation_inv now recommendation_id current_user data s :
  (update_recommendation now recommendation_id current_user data s).2 = s
  ∨ ∃ r r0 fiction_type tags r',
      Session.recommendation s !! recommendation_id = Some r
      ∧ Recommendation.user_id r = User.id current_user
      ∧ Recommendation.published r0 = Recommendation.published r
      ∧ Recommendation.user_id r0 = Recommendation.user_id r
      ∧ Recommendation.fiction_type_id r0 = Recommendation.fiction_type_id r
      ∧ Recommendation.updated r0 = Some now
      ∧ (∀ o, fiction_type = Some o → backed (Session.fiction_type s) o)
      ∧ (∀ os, tags = Some os → Forall (backed (Session.tag s)) os)
      ∧ commit_recommendation recommendation_id r0 fiction_type tags s
        = Some (r', (update_recommendation now recommendation_id current_user
                       data s).2)
      ∧ (update_recommendation now recommendation_id current_user data s).1
        = Return HTTP_200_OK (recommendation_id, r').
Proof.
  unfold update_recommendation, get_recommendation_by_id.
  destruct (Session.recommendation s !! recommendation_id) as [r|] eqn:Hr;
    [|by left].
  case_bool_decide as Hown; [by left|]. case_bool_decide; [by left|].
  cbv zeta.
  destruct (commit_recommendation _ _ _ _ _) as [[r' s']|] eqn:Hc; [|by left].
  right.
  match type of Hc with
  | commit_recommendation _ ?r0 ?ft ?tags _ = _ => exists r, r0, ft, tags, r'
  end.
  split; [done|]. split; [exact Hown|].
  split; [by repeat case_match|]. split; [by repeat case_match|].
  split; [by repeat case_match|]. split; [done|].
  split; [|split; [|split; [exact Hc|done]]].
  - intros o Ho. repeat case_match; simplify_eq;
      apply save_fiction_type_backed.
  - intros os Hos. repeat case_match; simplify_eq; apply save_tags_backed.
Qed.

(** ** Tags and fiction types are only ever added *)

Lemma reference_data_grows_same s s' :
  Session.tag s' = Session.tag s →
  Session.fiction_type s' = Session.fiction_type s →
  reference_data_grows s s'.
Proof.
  intros Ht Hf. unfold reference_data_grows, reference_data_unique.
  by rewrite Ht, Hf.
Qed.

Lemma reference_data_grows_trans s1 s2 s3 :
  reference_data_grows s1 s2 → reference_data_grows s2 s3 →
  reference_data_grows s1 s3.
Proof.
  intros (Ht1 & Hf1 & Hu1) (Ht2 & Hf2 & Hu2). split; [|split]; auto.
Qed.

Lemma flush_tag_grows o s id s1 :
  Session.flush_tag o s = Some (id, s1) → backed (Session.tag s) o →
  reference_data_grows s s1.
Proof.
  intros H Hb.
  destruct (flush_tag_spec _ _ _ _ H Hb) as (_ & Hkeep & Hnew).
  pose proof (flush_tag_frame _ _ _ _ H) as (Hf & _).
  split; [done|]. split; [by rewrite Hf|].
  intros [Htag Hft]. split; [|by rewrite Hf].
  intros i j r1 r2 Hi Hj Hname.
  destruct (Hnew i r1 Hi) as [Hi'|[Ho1 Hfresh1]],
    (Hnew j r2 Hj) as [Hj'|[Ho2 Hfresh2]].
  - by eapply Htag.
  - by destruct (Hfresh2 i r1 Hi').
  - by destruct (Hfresh1 j r2 Hj').
  - simplify_eq. unfold Session.flush_tag in H.
    destruct (Session.first _ _); [done|]. simplify_eq. simpl in *.
    apply lookup_insert_Some in Hi as [[<- _]|[_ Hi]];
      apply lookup_insert_Some in Hj as [[<- _]|[_ Hj]]; try done.
    + by destruct (Hfresh1 j r2 Hj).
    + by destruct (Hfresh1 i r2 Hi).
    + by destruct (Hfresh1 i r2 Hi).
Qed.

Lemma flush_tags_grows os : ∀ s ids s',
  Session.flush_tags os s = Some (ids, s') →
  Forall (backed (Session.tag s)) os →
  reference_data_grows s s'.
Proof.
  induction os as [|o os IH]; intros s ids s' H Hb.
  - simpl in H. simplify_eq. by apply reference_data_grows_same.
  - rewrite flush_tags_cons in H.
    destruct (Session.flush_tag o s) as [[id s1]|] eqn:H1; [simpl in H|done].
    destruct (Session.flush_tags os s1) as [[ids' s2]|] eqn:H2;
      [simpl in H|done].
    simplify_eq. apply Forall_cons in Hb as [Hbo Hbos].
    pose proof (flush_tag_grows _ _ _ _ H1 Hbo) as Hg.
    eapply reference_data_grows_trans; [exact Hg|]. eapply IH; [done|].
    eapply Forall_impl; [exact Hbos|]. intros [k r|r|]; simpl; [|done..].
    apply Hg.
Qed.

Lemma flush_fiction_type_grows o s id s1 :
  Session.flush_fiction_type o s = Some (id, s1) →
  backed (Session.fiction_type s) o →
  reference_data_grows s s1.
Proof.
  intros H Hb.
  destruct (flush_fiction_type_spec _ _ _ _ H Hb) as (_ & _ & Hkeep & Hnew).
  pose proof (flush_fiction_type_frame _ _ _ _ H) as (Ht & _).
  split; [by rewrite Ht|]. split; [done|].
  intros [Htag Hft]. split; [by rewrite Ht|].
  intros i j r1 r2 Hi Hj Hname.
  destruct (Hnew i r1 Hi) as [Hi'|[Ho1 Hfresh1]],
    (Hnew j r2 Hj) as [Hj'|[Ho2 Hfresh2]].
  - by eapply Hft.
  - destruct (Hfresh2 i r1 Hi') as [? ?]. by destruct Hname.
  - destruct (Hfresh1 j r2 Hj') as [? ?]. by destruct Hname.
  - simplify_eq. unfold Session.flush_fiction_type in H.
    destruct (Session.first _ _); [done|]. simplify_eq. simpl in *.
    apply lookup_insert_Some in Hi as [[<- _]|[_ Hi]];
      apply lookup_insert_Some in Hj as [[<- _]|[_ Hj]]; try done.
    + by destruct (Hfresh1 j r2 Hj) as [? _].
    + by destruct (Hfresh1 i r2 Hi) as [? _].
    + by destruct (Hfresh1 i r2 Hi) as [? _].
Qed.

Lemma post_recommendation_grows models data current_user s :
  reference_data_grows s (post_recommendation models data current_user s).2.
Proof.
  destruct (post_recommendation models data current_user s)
    as [[c [id row]|c d|e] s'] eqn:H; simpl.
  - assert (c = HTTP_201_CREATED) as ->.
    { revert H. unfold post_recommendation, post_recommendation_between.
      cbv zeta. destruct (commit_new_recommendation _ _ _ _ _ _ _ _)
        as [[[? ?] ?]|]; congruence. }
    apply post_recommendation_inv, commit_new_recommendation_inv in H
      as (fid & s1 & ids & s2 & H1 & H2 & _ & _ & _ & _ & Hf & Ht & Ht1 & _).
    pose proof (flush_fiction_type_grows _ _ _ _ H1
                  (save_fiction_type_backed _ _)) as Hg1.
    assert (reference_data_grows s1 s2) as Hg2.
    { eapply flush_tags_grows; [exact H2|]. rewrite Ht1.
      apply save_tags_backed. }
    eapply reference_data_grows_trans; [exact Hg1|].
    eapply reference_data_grows_trans; [exact Hg2|].
    pose proof (flush_tags_frame _ _ _ _ H2) as (Hf2 & _).
    apply reference_data_grows_same; [done|by rewrite Hf, Hf2].
  - revert H. unfold post_recommendation, post_recommendation_between.
    cbv zeta. destruct (commit_new_recommendation _ _ _ _ _ _ _ _)
      as [[[? ?] ?]|]; congruence.
  - revert H. unfold post_recommendation, post_recommendation_between.
    cbv zeta. destruct (commit_new_recommendation _ _ _ _ _ _ _ _)
      as [[[? ?] ?]|]; [congruence|]. intros [= <-].
    by apply reference_data_grows_same.
Qed.

Lemma update_recommendation_grows now recommendation_id current_user data s :
  reference_data_grows s
    (update_recommendation now recommendation_id current_user data s).2.
Proof.
  destruct (update_recommendation_inv now recommendation_id current_user data s)
    as [->|(r & r0 & ft & tags & r' & _ & _ & _ & _ & _ & _ & Hbf & Hbt & Hc
            & _)];
    [by apply reference_data_grows_same|].
  apply commit_recommendation_inv in Hc
    as (s1 & s2 & Hft & Htags & _ & Hf & Ht & Ht1 & _).
  assert (reference_data_grows s s1) as Hg1.
  { destruct ft as [o|].
    - destruct Hft as (fid & H1 & _). eapply flush_fiction_type_grows; eauto.
    - destruct Hft as [-> _]. by apply reference_data_grows_same. }
  assert (reference_data_grows s1 s2 ∧
          Session.fiction_type s2 = Session.fiction_type s1) as [Hg2 Hf2].
  { destruct tags as [os|].
    - destruct Htags as (ids & H2 & _).
      pose proof (flush_tags_frame _ _ _ _ H2) as (Hf2 & _). split; [|done].
      eapply flush_tags_grows; [exact H2|]. rewrite Ht1. eauto.
    - destruct Htags as [-> _]. split; [|done].
      by apply reference_data_grows_same. }
  eapply reference_data_grows_trans; [exact Hg1|].
  eapply reference_data_grows_trans; [exact Hg2|].
  apply reference_data_grows_same; [done|by rewrite Hf, Hf2].
Qed.

Lemma serve_grows models now current_user request s :
  reference_data_grows s (serve models now current_user request s).2.
Proof.
  destruct request as [data|rid data|rid data|m]; simpl;
    rewrite ?(proj2 (status_outcome _)).
  - apply post_recommendation_grows.
  - unfold post_comment, Session.insert_comment.
    destruct (get_recommendation_by_id s rid);
      by apply reference_data_grows_same.
  - unfold post_reaction, post_reaction_between, Session.insert_reaction.
    repeat case_match; simplify_eq/=; by apply reference_data_grows_same.
  - destruct m; simpl; rewrite ?(proj2 (status_outcome _)).
    + apply update_recommendation_grows.
    + unfold delete_recommendation.
      repeat case_match; by apply reference_data_grows_same.
    + unfold update_comment.
      repeat case_match; by apply reference_data_grows_same.
    + unfold delete_comment.
      repeat case_match; by apply reference_data_grows_same.
    + unfold update_reaction.
      repeat case_match; by apply reference_data_grows_same.
    + unfold delete_reaction.
      repeat case_match; by apply reference_data_grows_same.
Qed.

(** X7. No request that writes removes or changes a tag or a fiction type:
    whatever the request and whoever sends it, every tag row and every
    fiction type row of the store is in the store afterwards, under the
    same id. *)
Theorem reference_data_kept models now current_user request session :
  (∀ k r, Session.tag session !! k = Some r →
          Session.tag (serve models now current_user request session).2 !! k
          = Some r)
  ∧ (∀ k r, Session.fiction_type session !! k = Some r →
            Session.fiction_type
              (serve models now current_user request session).2 !! k
            = Some r).
Proof.
  destruct (serve_grows models now current_user request session)
    as (Ht & Hf & _). done.
Qed.

Lemma reference_data_kept_witness :
  Session.tag
    (serve sample_models 50 alice (Mutate (DeleteRecommendation 1))
       sample_session).2 !! 1
  = Some (Tag.mk "space").
Proof.
  apply (reference_data_kept sample_models 50 alice
           (Mutate (DeleteRecommendation 1)) sample_session).
  vm_compute. reflexivity.
Defined.

Lemma reference_data_unique_empty : reference_data_unique Session.empty.
Proof.
  split; intros i j r1 r2 Hi; simpl in Hi; by rewrite lookup_empty in Hi.
Qed.

(** X8. In every store that requests served one after the other lead to
    from the empty one, no two tags have the same name and no two fiction
    types have the same name or the same slug. *)
Theorem reference_data_names_unique models session :
  reachable models session → reference_data_unique session.
Proof.
  induction 1 as [|now u request s _ IH].
  - apply reference_data_unique_empty.
  - by apply serve_grows.
Qed.

Lemma reference_data_names_unique_witness : reference_data_unique sample_posts.
Proof.
  apply (reference_data_names_unique sample_models sample_posts).
  unfold sample_posts.
  apply (reachable_serve sample_models), (reachable_serve sample_models),
    (reachable_serve sample_models), (reachable_serve sample_models),
    reachable_empty.
Defined.

(** ** Nothing dangles *)

Lemma is_Some_insert_keep {A} (m : gmap Z A) i x k :
  is_Some (m !! k) → is_Some (<[i := x]> m !! k).
Proof.
  intros [y Hy]. destruct (decide (i = k)) as [->|Hne].
  - rewrite lookup_insert_eq. by eexists.
  - rewrite lookup_insert_ne by done. by eexists.
Qed.

Lemma post_recommendation_integrity models data current_user s :
  referential_integrity s →
  referential_integrity (post_recommendation models data current_user s).2.
Proof.
  intros (I1 & I2 & I3 & I4).
  destruct (post_recommendation models data current_user s)
    as [resp s'] eqn:H. simpl.
  assert ((∃ id row, resp = Return HTTP_201_CREATED (id, row)) ∨ s' = s)
    as [(id & row & ->)| ->].
  { revert H. unfold post_recommendation, post_recommendation_between.
    cbv zeta. destruct (commit_new_recommendation _ _ _ _ _ _ _ _)
      as [[[? ?] ?]|]; intros [= <- <-]; eauto. }
  2: { done. }
  apply post_recommendation_inv, commit_new_recommendation_inv in H
    as (fid & s1 & ids & s2 & H1 & H2 & H3 & _ & -> & Hr & Hf & Ht & Ht1
        & Hc & Hx).
  destruct (flush_fiction_type_spec _ _ _ _ H1 (save_fiction_type_backed _ _))
    as (Hfid & [ft0 Hft0] & Hfkeep & _).
  assert (Forall (backed (Session.tag s1))
            (save_tags s (RecommendationCreate.tags data))) as Hb
    by (rewrite Ht1; apply save_tags_backed).
  destruct (flush_tags_spec _ _ _ _ H2 Hb) as (Hall & Htkeep & _).
  rewrite Ht1 in Htkeep.
  split; [|split; [|split]].
  - intros i r. rewrite Hr, Hf. intros [[_ <-]|[_ Hi]]%lookup_insert_Some.
    + simpl. rewrite Hfid, Hft0. by eexists.
    + destruct (I1 i r Hi) as [ft Hft]. exists ft. by apply Hfkeep.
  - intros p Hp. apply (insert_links_spec _ _ _ _ H3) in Hp as [Hp|[Hp1 Hp2]].
    + destruct (I2 p Hp) as [Hrec [t Htag]]. rewrite Hr, Ht. split.
      * by apply is_Some_insert_keep.
      * exists t. by apply Htkeep.
    + rewrite Hr, Ht, Hp1, lookup_insert_eq. split; [by eexists|].
      apply list_elem_of_lookup in Hp2 as [n Hn].
      destruct (Forall2_lookup_r _ _ _ _ _ Hall Hn)
        as (o & _ & Ho & [x Hx']).
      rewrite Ho, Hx'. by eexists.
  - intros i c. rewrite Hc, Hr. intros Hi. by apply is_Some_insert_keep, (I3 i).
  - intros i r. rewrite Hx, Hr. intros Hi. by apply is_Some_insert_keep, (I4 i).
Qed.

Lemma replace_links_spec rid ids links links' :
  Session.replace_links rid ids links = Some links' →
  ∀ p, p ∈ links' → p ∈ links ∨ (p.1 = rid ∧ p.2 ∈ ids).
Proof.
  unfold Session.replace_links. cbv zeta. intros H p Hp.
  apply (insert_links_spec _ _ _ _ H) in Hp as [Hp|[Hp1 Hp2]].
  - left. by apply elem_of_filter in Hp as [_ Hp].
  - right. split; [done|]. by apply list_elem_of_filter in Hp2 as [_ Hp2].
Qed.

Lemma update_recommendation_integrity now recommendation_id current_user data s :
  referential_integrity s →
  referential_integrity
    (update_recommendation now recommendation_id current_user data s).2.
Proof.
  intros (I1 & I2 & I3 & I4).
  destruct (update_recommendation_inv now recommendation_id current_user data s)
    as [->|(r & r0 & ft & tags & r' & Hrid & _ & _ & _ & Hfid0 & _ & Hbf & Hbt
            & Hc & _)]; [done|].
  apply commit_recommendation_inv in Hc
    as (s1 & s2 & Hft & Htags & Hr & Hf & Ht & Ht1 & Hc & Hx).
  assert (∀ k t, Session.fiction_type s !! k = Some t →
                 Session.fiction_type s1 !! k = Some t) as Hfkeep.
  { destruct ft as [o|].
    - destruct Hft as (fid & H1 & _).
      by destruct (flush_fiction_type_spec _ _ _ _ H1 (Hbf o eq_refl))
        as (_ & _ & ? & _).
    - by destruct Hft as [-> _]. }
  assert (is_Some (Session.fiction_type s1
                     !! Recommendation.fiction_type_id r')) as Hfid.
  { destruct ft as [o|].
    - destruct Hft as (fid & H1 & ->).
      destruct (flush_fiction_type_spec _ _ _ _ H1 (Hbf o eq_refl))
        as (Hfid & [x Hx'] & _). simpl. rewrite Hfid, Hx'. by eexists.
    - destruct Hft as [-> ->]. rewrite Hfid0. by apply (I1 recommendation_id). }
  split; [|split; [|split]].
  - intros i x. rewrite Hr, Hf. intros [[_ <-]|[_ Hi]]%lookup_insert_Some.
    + done.
    + destruct (I1 i x Hi) as [t Ht']. exists t. by apply Hfkeep.
  - intros p Hp. rewrite Hr, Ht.
    destruct tags as [os|].
    + destruct Htags as (ids & H2 & H3).
      assert (Forall (backed (Session.tag s1)) os) as Hb
        by (rewrite Ht1; by apply Hbt).
      destruct (flush_tags_spec _ _ _ _ H2 Hb) as (Hall & Htkeep & _).
      rewrite Ht1 in Htkeep.
      apply (replace_links_spec _ _ _ _ H3) in Hp as [Hp|[Hp1 Hp2]].
      * destruct (I2 p Hp) as [Hrec [t Htag]]. split.
        -- by apply is_Some_insert_keep.
        -- exists t. by apply Htkeep.
      * rewrite Hp1, lookup_insert_eq. split; [by eexists|].
        apply list_elem_of_lookup in Hp2 as [n Hn].
        destruct (Forall2_lookup_r _ _ _ _ _ Hall Hn)
          as (o & _ & Ho & [x Hx']).
        rewrite Ho, Hx'. by eexists.
    + destruct Htags as [-> Hl]. rewrite Hl in Hp.
      destruct (I2 p Hp) as [Hrec Htag]. rewrite Ht1. split; [|done].
      by apply is_Some_insert_keep.
  - intros i c. rewrite Hc, Hr. intros Hi. by apply is_Some_insert_keep, (I3 i).
  - intros i x. rewrite Hx, Hr. intros Hi. by apply is_Some_insert_keep, (I4 i).
Qed.

Lemma mutate_integrity now current_user m s :
  referential_integrity s →
  referential_integrity (mutate now current_user m s).2.
Proof.
  intros HI. destruct m; simpl; rewrite ?(proj2 (status_outcome _)).
  - by apply update_recommendation_integrity.
  - destruct HI as (I1 & I2 & I3 & I4). unfold delete_recommendation.
    destruct (get_recommendation_by_id s recommendation_id); [|done].
    case_bool_decide; [done|]. simpl.
    split; [|split; [|split]]; simpl.
    + intros i r [_ Hi]%lookup_delete_Some. by apply (I1 i).
    + intros p [Hne Hp]%elem_of_filter. destruct (I2 p Hp) as [Hrec Htag].
      split; [|done]. by rewrite lookup_delete_ne.
    + intros i c [Hi Hne]%map_lookup_filter_Some. simpl in Hne.
      rewrite lookup_delete_ne by done. by apply (I3 i).
    + intros i r [Hi Hne]%map_lookup_filter_Some. simpl in Hne.
      rewrite lookup_delete_ne by done. by apply (I4 i).
  - destruct HI as (I1 & I2 & I3 & I4).
    unfold update_comment, get_recommendation_by_id.
    destruct (_ !! recommendation_id) eqn:Hrec; [|done].
    rewrite get_comment_lookup.
    destruct (_ !! comment_id) as [c|] eqn:Hc; [simpl|done].
    case_decide as Hrid; [|done]. case_bool_decide; [done|]. simpl.
    split; [done|]. split; [done|]. split; [|done]. simpl.
    intros i x [[_ <-]|[_ Hi]]%lookup_insert_Some; [|by apply (I3 i)].
    simpl. apply (I3 comment_id c) in Hc. by repeat case_match.
  - destruct HI as (I1 & I2 & I3 & I4). unfold delete_comment.
    repeat case_match; simpl; try done.
    split; [done|]. split; [done|]. split; [|done]. simpl.
    intros i x [_ Hi]%lookup_delete_Some. by apply (I3 i).
  - destruct HI as (I1 & I2 & I3 & I4).
    unfold update_reaction, get_recommendation_by_id.
    destruct (_ !! recommendation_id) eqn:Hrec; [|done].
    rewrite get_reaction_lookup.
    destruct (_ !! reaction_id) as [x|] eqn:Hx; [simpl|done].
    case_decide as Hrid; [|done]. case_bool_decide; [done|]. simpl.
    split; [done|]. split; [done|]. split; [done|]. simpl.
    intros i y [[_ <-]|[_ Hi]]%lookup_insert_Some; [|by apply (I4 i)].
    simpl. by apply (I4 reaction_id x).
  - destruct HI as (I1 & I2 & I3 & I4). unfold delete_reaction.
    repeat case_match; simpl; try done.
    split; [done|]. split; [done|]. split; [done|]. simpl.
    intros i x [_ Hi]%lookup_delete_Some. by apply (I4 i).
Qed.

Lemma serve_integrity models now current_user request s :
  referential_integrity s →
  referential_integrity (serve models now current_user request s).2.
Proof.
  intros HI. destruct request as [data|rid data|rid data|m]; simpl;
    rewrite ?(proj2 (status_outcome _)).
  - by apply post_recommendation_integrity.
  - destruct HI as (I1 & I2 & I3 & I4).
    unfold post_comment, Session.insert_comment, get_recommendation_by_id.
    destruct (_ !! rid) eqn:Hrec; [simpl|done].
    split; [done|]. split; [done|]. split; [|done]. simpl.
    intros i x [[_ <-]|[_ Hi]]%lookup_insert_Some; [|by apply (I3 i)].
    simpl. by eexists.
  - destruct HI as (I1 & I2 & I3 & I4).
    unfold post_reaction, post_reaction_between, Session.insert_reaction, get_recommendation_by_id.
    destruct (_ !! rid) eqn:Hrec; [|done].
    destruct (get_reaction_by_recommendation_id_and_user_id _ _ _); [done|].
    destruct (Session.first _ _); [done|]. simpl.
    split; [done|]. split; [done|]. split; [done|]. simpl.
    intros i x [[_ <-]|[_ Hi]]%lookup_insert_Some; [|by apply (I4 i)].
    simpl. by eexists.
  - by apply mutate_integrity.
Qed.

Lemma referential_integrity_empty : referential_integrity Session.empty.
Proof.
  split; [|split; [|split]]; try (intros i x Hi; simpl in Hi;
    by rewrite lookup_empty in Hi).
  intros p Hp. simpl in Hp. by apply elem_of_empty in Hp.
Qed.

(** X9. In every store that requests served one after the other lead to
    from the empty one, nothing dangles: the fiction type of each
    recommendation exists, each tag link joins a recommendation and a tag
    that exist, and each comment and each reaction belongs to a
    recommendation that exists. *)
Theorem no_orphans models session :
  reachable models session → referential_integrity session.
Proof.
  induction 1 as [|now u request s _ IH].
  - apply referential_integrity_empty.
  - by apply serve_integrity.
Qed.

Lemma no_orphans_witness : referential_integrity sample_history.
Proof.
  apply (no_orphans sample_models sample_history).
  unfold sample_history.
  apply (reachable_serve sample_models), (reachable_serve sample_models),
    (reachable_serve sample_models), reachable_empty.
Defined.

(** ** Writing and reading back *)

Lemma get_recommendation_lookup recommendation_id s :
  get_recommendation recommendation_id s
  = match Session.recommendation s !! recommendation_id with
    | Some r => Return HTTP_200_OK (recommendation_id, r)
    | None => not_found_recommendation recommendation_id
    end.
Proof.
  unfold get_recommendation,
    get_recommendation_by_id_with_tags_and_fiction_type.
  assert (Session.first (λ id (_ : Recommendation.t),
                           bool_decide (id = recommendation_id))
            (Session.recommendation s)
          = Session.first (λ id r, bool_decide (True ∧ id = recommendation_id))
              (Session.recommendation s)) as ->.
  { unfold Session.first. f_equal. apply list_filter_iff. intros [k r]. simpl.
    rewrite !bool_decide_eq_true. tauto. }
  rewrite (first_by_key (λ _, True)).
  by destruct (_ !! recommendation_id).
Qed.

Lemma get_comment_spec recommendation_id comment_id s :
  get_comment recommendation_id comment_id s
  = match Session.recommendation s !! recommendation_id with
    | None => not_found_recommendation recommendation_id
    | Some _ =>
        match Session.comment s !! comment_id with
        | Some c =>
            if decide (Comment.recommendation_id c = recommendation_id)
            then Return HTTP_200_OK (comment_id, c)
            else not_found_comment recommendation_id comment_id
        | None => not_found_comment recommendation_id comment_id
        end
    end.
Proof.
  unfold get_comment, get_recommendation_by_id.
  destruct (_ !! recommendation_id); [|done].
  rewrite get_comment_lookup. destruct (_ !! comment_id); [simpl|done].
  by case_decide.
Qed.

Lemma get_reaction_spec recommendation_id reaction_id s :
  get_reaction recommendation_id reaction_id s
  = match Session.recommendation s !! recommendation_id with
    | None => not_found_recommendation recommendation_id
    | Some _ =>
        match Session.reaction s !! reaction_id with
        | Some r =>
            if decide (Reaction.recommendation_id r = recommendation_id)
            then Return HTTP_200_OK (reaction_id, r)
            else not_found_reaction recommendation_id reaction_id
        | None => not_found_reaction recommendation_id reaction_id
        end
    end.
Proof.
  unfold get_reaction, get_recommendation_by_id.
  destruct (_ !! recommendation_id); [|done].
  rewrite get_reaction_lookup. destruct (_ !! reaction_id); [simpl|done].
  by case_decide.
Qed.

(** X10. [post_comment], for an id a key column can hold, answers 404 and
    writes nothing when the recommendation does not exist. When it exists,
    the comment is stored under an id that was not in use, with the
    content of the request, the id of the user and of the recommendation,
    the [published] default of the model and no update time, and
    [get_comment] returns it. *)
Theorem post_comment_stores models recommendation_id current_user data session :
  (int64 recommendation_id →
   Session.recommendation session !! recommendation_id = None →
   post_comment models recommendation_id current_user data session
   = (not_found_recommendation recommendation_id, session))
  ∧ (is_Some (Session.recommendation session !! recommendation_id) →
     ∃ id c,
       post_comment models recommendation_id current_user data session
       = (Return HTTP_201_CREATED (id, c),
          Session.with_comment (<[id := c]> (Session.comment session)) session)
       ∧ Session.comment session !! id = None
       ∧ c = Comment.mk (CommentCreate.content data)
               (Comment_published_default models) None
               (User.id current_user) recommendation_id
       ∧ get_comment recommendation_id id
           (post_comment models recommendation_id current_user data session).2
         = Return HTTP_200_OK (id, c)).
Proof.
  unfold post_comment, get_recommendation_by_id, Session.insert_comment.
  split; [by intros _ ->|]. intros [rec Hrec]. rewrite Hrec.
  eexists _, _. split; [done|]. split; [apply next_id_fresh|].
  split; [done|]. simpl. rewrite get_comment_spec. simpl.
  rewrite Hrec, lookup_insert_eq. simpl. by rewrite decide_True.
Qed.

Lemma post_comment_stores_witness :
  post_comment sample_models 7 bob (CommentCreate.mk "Agreed") sample_session
  = (not_found_recommendation 7, sample_session).
Proof.
  apply (post_comment_stores sample_models 7 bob (CommentCreate.mk "Agreed")
           sample_session).
  - unfold int64. lia.
  - vm_compute. reflexivity.
Defined.

(** A first reaction of a user to a recommendation that exists goes in
    under a fresh id. *)
Lemma post_reaction_fresh recommendation_id current_user data session :
  is_Some (Session.recommendation session !! recommendation_id) →
  (∀ i r, Session.reaction session !! i = Some r →
          ¬ (Reaction.user_id r = User.id current_user
             ∧ Reaction.recommendation_id r = recommendation_id)) →
  post_reaction recommendation_id current_user data session
  = (Return HTTP_201_CREATED
       (Session.next_id (Session.reaction session),
        Reaction.mk (ReactionCreate.is_positive data) (User.id current_user)
          recommendation_id),
     Session.with_reaction
       (<[Session.next_id (Session.reaction session) :=
            Reaction.mk (ReactionCreate.is_positive data)
              (User.id current_user) recommendation_id]>
          (Session.reaction session)) session).
Proof.
  intros [rec Hrec] Hfree. unfold post_reaction, post_reaction_between, get_recommendation_by_id.
  rewrite Hrec. unfold get_reaction_by_recommendation_id_and_user_id.
  assert (∀ (P : Reaction.t → Prop) `{!∀ r, Decision (P r)},
            (∀ i r, Session.reaction session !! i = Some r → ¬ P r) →
            Session.first (λ _ r, bool_decide (P r)) (Session.reaction session)
            = None) as Hnone.
  { intros P ? HP. apply first_None. intros i r Hi.
    apply bool_decide_eq_false. by apply (HP i). }
  rewrite Hnone by (intros i r Hi [? ?]; by apply (Hfree i r Hi)). simpl.
  unfold Session.insert_reaction. simpl. by rewrite Hnone by done.
Qed.

(** X11. [post_reaction], for an id a key column can hold, answers 404 and
    writes nothing when the recommendation does not exist. When it exists
    and the user has not reacted to it, the reaction is stored under an id
    that was not in use and [get_reaction] returns it. When another
    request stores a reaction of the same user to the same recommendation
    between the look-ups and the commit, the commit breaks
    [user_recommendation_uc]: the request ends in the unhandled
    [IntegrityError] and leaves the store as the commit found it. *)
Theorem post_reaction_outcomes recommendation_id current_user data session :
  (int64 recommendation_id →
   Session.recommendation session !! recommendation_id = None →
   post_reaction recommendation_id current_user data session
   = (not_found_recommendation recommendation_id, session))
  ∧ (is_Some (Session.recommendation session !! recommendation_id) →
     (∀ i r, Session.reaction session !! i = Some r →
             ¬ (Reaction.user_id r = User.id current_user
                ∧ Reaction.recommendation_id r = recommendation_id)) →
     ∃ id,
       let r := Reaction.mk (ReactionCreate.is_positive data)
                  (User.id current_user) recommendation_id in
       post_reaction recommendation_id current_user data session
       = (Return HTTP_201_CREATED (id, r),
          Session.with_reaction (<[id := r]> (Session.reaction session)) session)
       ∧ Session.reaction session !! id = None
       ∧ get_reaction recommendation_id id
           (post_reaction recommendation_id current_user data session).2
         = Return HTTP_200_OK (id, r))
  ∧ (∀ seen,
       is_Some (Session.recommendation seen !! recommendation_id) →
       (∀ i r, Session.reaction seen !! i = Some r →
               ¬ (Reaction.user_id r = User.id current_user
                  ∧ Reaction.recommendation_id r = recommendation_id)) →
       (∃ i r, Session.reaction session !! i = Some r
               ∧ Reaction.user_id r = User.id current_user
               ∧ Reaction.recommendation_id r = recommendation_id) →
       post_reaction_between recommendation_id current_user data seen session
       = (Unhandled IntegrityError, session)).
Proof.
  split; [|split].
  - unfold post_reaction, post_reaction_between, get_recommendation_by_id.
    by intros _ ->.
  - intros Hrec Hfree. rewrite (post_reaction_fresh _ _ _ _ Hrec Hfree).
    eexists. cbv zeta. split; [done|]. split; [apply next_id_fresh|].
    destruct Hrec as [rec Hrec].
    simpl. rewrite get_reaction_spec. simpl.
    rewrite Hrec, lookup_insert_eq. simpl. by rewrite decide_True.
  - intros seen [rec Hrec] Hfree (i & r & Hi & Hu & Hr).
    unfold post_reaction_between, get_recommendation_by_id. rewrite Hrec.
    unfold get_reaction_by_recommendation_id_and_user_id.
    assert (Session.first
              (λ _ r, bool_decide
                        (Reaction.recommendation_id r = recommendation_id
                         ∧ Reaction.user_id r = User.id current_user))
              (Session.reaction seen) = None) as ->.
    { apply first_None. intros k x Hk. apply bool_decide_eq_false.
      intros [? ?]. by apply (Hfree k x Hk). }
    simpl. unfold Session.insert_reaction. simpl.
    destruct (Session.first _ _) as [[k x]|] eqn:Hf; [done|].
    rewrite first_None in Hf. specialize (Hf i r Hi).
    apply bool_decide_eq_false in Hf. by destruct Hf.
Qed.

Lemma post_reaction_outcomes_witness :
  post_reaction_between 1 bob (ReactionCreate.mk true) sample_session
    sample_after_reaction
  = (Unhandled IntegrityError, sample_after_reaction).
Proof.
  apply (post_reaction_outcomes 1 bob (ReactionCreate.mk true)
           sample_after_reaction).
  - vm_compute. eauto.
  - intros i r Hi [Hu _].
    assert (i = 1 ∧ r = Reaction.mk true 1 1) as [-> ->].
    { unfold sample_session in Hi. simpl in Hi.
      by apply lookup_singleton_Some in Hi as [<- <-]. }
    vm_compute in Hu. discriminate.
  - exists 2, (Reaction.mk false 2 1). vm_compute. done.
Defined.

(** X12. The owner of a reaction, putting a new value: [update_reaction]
    answers 200 with the reaction carrying the new value and the same user
    and recommendation, [get_reaction] then returns exactly that, and
    sending the same request again changes nothing more. *)
Theorem update_reaction_by_owner recommendation_id reaction_id current_user
    data session r :
  is_Some (Session.recommendation session !! recommendation_id) →
  Session.reaction session !! reaction_id = Some r →
  Reaction.recommendation_id r = recommendation_id →
  Reaction.user_id r = User.id current_user →
  let r' := Reaction.mk (ReactionUpdate.is_positive data)
              (Reaction.user_id r) (Reaction.recommendation_id r) in
  let result :=
    update_reaction recommendation_id reaction_id current_user data session in
  result
  = (Return HTTP_200_OK (reaction_id, r'),
     Session.with_reaction (<[reaction_id := r']> (Session.reaction session))
       session)
  ∧ get_reaction recommendation_id reaction_id result.2
    = Return HTTP_200_OK (reaction_id, r')
  ∧ update_reaction recommendation_id reaction_id current_user data result.2
    = (result.1, result.2).
Proof.
  intros [rec Hrec] Hr Hrid Hown. cbv zeta.
  assert (update_reaction recommendation_id reaction_id current_user data
            session
          = (Return HTTP_200_OK
               (reaction_id,
                Reaction.mk (ReactionUpdate.is_positive data)
                  (Reaction.user_id r) (Reaction.recommendation_id r)),
             Session.with_reaction
               (<[reaction_id :=
                    Reaction.mk (ReactionUpdate.is_positive data)
                      (Reaction.user_id r) (Reaction.recommendation_id r)]>
                  (Session.reaction session)) session)) as Heq.
  { unfold update_reaction, get_recommendation_by_id. rewrite Hrec.
    rewrite get_reaction_lookup, Hr. simpl.
    rewrite decide_True by done.
    by rewrite bool_decide_eq_false_2 by (by intros ?). }
  rewrite Heq. split; [done|]. simpl. split.
  - rewrite get_reaction_spec. simpl. rewrite Hrec, lookup_insert_eq. simpl.
    by rewrite decide_True.
  - unfold update_reaction, get_recommendation_by_id. simpl. rewrite Hrec.
    rewrite get_reaction_lookup. simpl. rewrite lookup_insert_eq. simpl.
    rewrite decide_True by done.
    rewrite bool_decide_eq_false_2 by (by intros ?). simpl.
    by rewrite insert_insert_eq.
Qed.

Lemma update_reaction_by_owner_witness :
  get_reaction 1 2
    (update_reaction 1 2 bob (ReactionUpdate.mk true) sample_history).2
  = Return HTTP_200_OK (2, Reaction.mk true 2 1).
Proof.
  destruct (update_reaction_by_owner 1 2 bob (ReactionUpdate.mk true)
              sample_history (Reaction.mk false 2 1)) as (_ & Hget & _).
  - vm_compute. eauto.
  - vm_compute. reflexivity.
  - reflexivity.
  - reflexivity.
  - exact Hget.
Defined.

(** X13. The owner of a comment, putting a content that is not empty:
    [update_comment] answers 200 with the comment carrying the new content
    and the time of the request as [updated], its [published], user and
    recommendation unchanged, and [get_comment] then returns exactly
    that. *)
Theorem update_comment_by_owner now recommendation_id comment_id current_user
    data session c :
  is_Some (Session.recommendation session !! recommendation_id) →
  Session.comment session !! comment_id = Some c →
  Comment.recommendation_id c = recommendation_id →
  Comment.user_id c = User.id current_user →
  CommentUpdate.content data ≠ "" →
  let c' := Comment.mk (CommentUpdate.content data) (Comment.published c)
              (Some now) (Comment.user_id c) (Comment.recommendation_id c) in
  let result :=
    update_comment now recommendation_id comment_id current_user data session in
  result
  = (Return HTTP_200_OK (comment_id, c'),
     Session.with_comment (<[comment_id := c']> (Session.comment session))
       session)
  ∧ get_comment recommendation_id comment_id result.2
    = Return HTTP_200_OK (comment_id, c').
Proof.
  intros [rec Hrec] Hc Hrid Hown Hne. cbv zeta.
  assert (update_comment now recommendation_id comment_id current_user data
            session
          = (Return HTTP_200_OK
               (comment_id,
                Comment.mk (CommentUpdate.content data) (Comment.published c)
                  (Some now) (Comment.user_id c) (Comment.recommendation_id c)),
             Session.with_comment
               (<[comment_id :=
                    Comment.mk (CommentUpdate.content data)
                      (Comment.published c) (Some now) (Comment.user_id c)
                      (Comment.recommendation_id c)]>
                  (Session.comment session)) session)) as Heq.
  { unfold update_comment, get_recommendation_by_id. rewrite Hrec.
    rewrite get_comment_lookup, Hc. simpl.
    rewrite decide_True by done.
    rewrite bool_decide_eq_false_2 by (by intros ?).
    unfold CommentUpdate.dict, Py.get. rewrite lookup_singleton_eq. simpl.
    by rewrite bool_decide_eq_true_2 by done. }
  rewrite Heq. split; [done|]. simpl.
  rewrite get_comment_spec. simpl. rewrite Hrec, lookup_insert_eq. simpl.
  by rewrite decide_True.
Qed.

Lemma update_comment_by_owner_witness :
  get_comment 1 1
    (update_comment 50 1 1 alice (CommentUpdate.mk "Thanks a lot")
       sample_session).2
  = Return HTTP_200_OK (1, Comment.mk "Thanks a lot" 1001 (Some 50) 1 1).
Proof.
  destruct (update_comment_by_owner 50 1 1 alice (CommentUpdate.mk "Thanks a lot")
              sample_session (Comment.mk "Thank you" 1001 None 1 1))
    as (_ & Hget).
  - vm_compute. eauto.
  - vm_compute. reflexivity.
  - reflexivity.
  - reflexivity.
  - discriminate.
  - exact Hget.
Defined.

(** X14. The owner of a comment, deleting it: [delete_comment] answers
    204, after which [get_comment] answers 404 for it, a second deletion
    answers 404 and changes nothing, and every other comment is as it
    was. *)
Theorem delete_comment_by_owner recommendation_id comment_id current_user
    session c :
  is_Some (Session.recommendation session !! recommendation_id) →
  Session.comment session !! comment_id = Some c →
  Comment.recommendation_id c = recommendation_id →
  Comment.user_id c = User.id current_user →
  let result :=
    delete_comment recommendation_id comment_id current_user session in
  result
  = (Return HTTP_204_NO_CONTENT (),
     Session.with_comment (delete comment_id (Session.comment session)) session)
  ∧ get_comment recommendation_id comment_id result.2
    = not_found_comment recommendation_id comment_id
  ∧ delete_comment recommendation_id comment_id current_user result.2
    = (not_found_comment recommendation_id comment_id, result.2)
  ∧ (∀ k, k ≠ comment_id →
          Session.comment result.2 !! k = Session.comment session !! k).
Proof.
  intros [rec Hrec] Hc Hrid Hown. cbv zeta.
  assert (delete_comment recommendation_id comment_id current_user session
          = (Return HTTP_204_NO_CONTENT (),
             Session.with_comment (delete comment_id (Session.comment session))
               session)) as Heq.
  { unfold delete_comment, get_recommendation_by_id. rewrite Hrec.
    rewrite get_comment_lookup, Hc. simpl.
    rewrite decide_True by done.
    by rewrite bool_decide_eq_false_2 by (by intros ?). }
  rewrite Heq. split; [done|]. simpl. split; [|split].
  - rewrite get_comment_spec. simpl. by rewrite Hrec, lookup_delete_eq.
  - unfold delete_comment, get_recommendation_by_id. simpl. rewrite Hrec.
    rewrite get_comment_lookup. simpl. by rewrite lookup_delete_eq.
  - intros k Hk. by rewrite lookup_delete_ne.
Qed.

Lemma delete_comment_by_owner_witness :
  get_comment 1 1 (delete_comment 1 1 alice sample_session).2
  = not_found_comment 1 1.
Proof.
  destruct (delete_comment_by_owner 1 1 alice sample_session
              (Comment.mk "Thank you" 1001 None 1 1)) as (_ & Hget & _).
  - vm_compute. eauto.
  - vm_compute. reflexivity.
  - reflexivity.
  - reflexivity.
  - exact Hget.
Defined.

(** X15. The owner of a reaction, deleting it: [delete_reaction] answers
    204, after which [get_reaction] answers 404 for it; and in a store
    with at most one reaction per user and recommendation, the user can
    react to the recommendation again. *)
Theorem delete_reaction_by_owner recommendation_id reaction_id current_user
    session r :
  is_Some (Session.recommendation session !! recommendation_id) →
  Session.reaction session !! reaction_id = Some r →
  Reaction.recommendation_id r = recommendation_id →
  Reaction.user_id r = User.id current_user →
  let result :=
    delete_reaction recommendation_id reaction_id current_user session in
  result
  = (Return HTTP_204_NO_CONTENT (),
     Session.with_reaction (delete reaction_id (Session.reaction session))
       session)
  ∧ get_reaction recommendation_id reaction_id result.2
    = not_found_reaction recommendation_id reaction_id
  ∧ (one_reaction_per_user session →
     ∀ data, status (post_reaction recommendation_id current_user data
                       result.2).1 = HTTP_201_CREATED).
Proof.
  intros [rec Hrec] Hr Hrid Hown. cbv zeta.
  assert (delete_reaction recommendation_id reaction_id current_user session
          = (Return HTTP_204_NO_CONTENT (),
             Session.with_reaction (delete reaction_id (Session.reaction session))
               session)) as Heq.
  { unfold delete_reaction, get_recommendation_by_id. rewrite Hrec.
    rewrite get_reaction_lookup, Hr. simpl.
    rewrite decide_True by done.
    by rewrite bool_decide_eq_false_2 by (by intros ?). }
  rewrite Heq. split; [done|]. simpl. split.
  - rewrite get_reaction_spec. simpl. by rewrite Hrec, lookup_delete_eq.
  - intros Hinv data. rewrite post_reaction_fresh; [done|by eexists|].
    simpl. intros i x [Hne Hi]%lookup_delete_Some [Hu Hx].
    apply Hne. eapply (Hinv reaction_id i); eauto; congruence.
Qed.

Lemma delete_reaction_by_owner_witness :
  get_reaction 1 1 (delete_reaction 1 1 alice sample_session).2
  = not_found_reaction 1 1.
Proof.
  destruct (delete_reaction_by_owner 1 1 alice sample_session
              (Reaction.mk true 1 1)) as (_ & Hget & _).
  - vm_compute. eauto.
  - vm_compute. reflexivity.
  - reflexivity.
  - reflexivity.
  - exact Hget.
Defined.

(** X16. The owner of a recommendation, deleting it:
    [delete_recommendation] answers 204; the recommendation, its comments,
    its reactions and its tag links are gone, the listings of its comments
    and reactions answer 404, while every other recommendation, comment,
    reaction and link, and all tags and fiction types, stay as they
    were. *)
Theorem delete_recommendation_cascades recommendation_id current_user session r :
  Session.recommendation session !! recommendation_id = Some r →
  Recommendation.user_id r = User.id current_user →
  let result := delete_recommendation recommendation_id current_user session in
  result.1 = Return HTTP_204_NO_CONTENT ()
  ∧ get_recommendation recommendation_id result.2
    = not_found_recommendation recommendation_id
  ∧ (∀ order offset limit,
       get_comments recommendation_id order offset limit result.2
       = not_found_recommendation recommendation_id)
  ∧ (∀ is_positive offset limit,
       get_reactions recommendation_id is_positive offset limit result.2
       = not_found_recommendation recommendation_id)
  ∧ (∀ i c, Session.comment result.2 !! i = Some c
            ↔ Session.comment session !! i = Some c
              ∧ Comment.recommendation_id c ≠ recommendation_id)
  ∧ (∀ i x, Session.reaction result.2 !! i = Some x
            ↔ Session.reaction session !! i = Some x
              ∧ Reaction.recommendation_id x ≠ recommendation_id)
  ∧ (∀ p, p ∈ Session.tagged_recommendations result.2
          ↔ p ∈ Session.tagged_recommendations session
            ∧ p.1 ≠ recommendation_id)
  ∧ (∀ k, k ≠ recommendation_id →
          Session.recommendation result.2 !! k
          = Session.recommendation session !! k)
  ∧ Session.tag result.2 = Session.tag session
  ∧ Session.fiction_type result.2 = Session.fiction_type session.
Proof.
  intros Hr Hown. cbv zeta.
  assert (delete_recommendation recommendation_id current_user session
          = (Return HTTP_204_NO_CONTENT (),
             Session.delete_recommendation recommendation_id session)) as ->.
  { unfold delete_recommendation, get_recommendation_by_id. rewrite Hr.
    by rewrite bool_decide_eq_false_2 by (by intros ?). }
  simpl. split; [done|]. split.
  { by rewrite get_recommendation_lookup; simpl; rewrite lookup_delete_eq. }
  split.
  { intros order offset limit. unfold get_comments, get_recommendation_by_id.
    simpl. by rewrite lookup_delete_eq. }
  split.
  { intros b offset limit. unfold get_reactions, get_recommendation_by_id.
    simpl. by rewrite lookup_delete_eq. }
  split; [intros i c; by rewrite map_lookup_filter_Some|].
  split; [intros i x; by rewrite map_lookup_filter_Some|].
  split; [intros p; rewrite elem_of_filter; tauto|].
  split; [intros k Hk; by rewrite lookup_delete_ne|]. done.
Qed.

Lemma delete_recommendation_cascades_witness :
  get_recommendation 1 (delete_recommendation 1 alice sample_session).2
  = not_found_recommendation 1.
Proof.
  destruct (delete_recommendation_cascades 1 alice sample_session
              (Recommendation.mk "Interstellar" "Movie about space"
                 "My favorite movie" 1000 None 1 1)) as (_ & Hget & _).
  - vm_compute. reflexivity.
  - reflexivity.
  - exact Hget.
Defined.

(** X17. A [PATCH] by the owner whose body passes the schema, is not empty
    and sends no fiction type and no tags (each missing or [null]) always
    answers 200: [title], [short_description] and [opinion] each
    take the text sent unless it is missing, [null] or empty, [updated]
    becomes the time of the request, [published], the owner and the
    fiction type stay, and only the row of that recommendation is
    written. *)
Theorem update_recommendation_text now recommendation_id current_user data
    session r :
  Session.recommendation session !! recommendation_id = Some r →
  Recommendation.user_id r = User.id current_user →
  RecommendationUpdate.valid data = true →
  RecommendationUpdate.dict_exclude_unset data ≠ ∅ →
  RecommendationUpdate.fiction_type data = Unset
  ∨ RecommendationUpdate.fiction_type data = Provided None →
  RecommendationUpdate.tags data = Unset
  ∨ RecommendationUpdate.tags data = Provided None →
  let r' :=
    Recommendation.mk
      (patched (RecommendationUpdate.title data) (Recommendation.title r))
      (patched (RecommendationUpdate.short_description data)
         (Recommendation.short_description r))
      (patched (RecommendationUpdate.opinion data) (Recommendation.opinion r))
      (Recommendation.published r) (Some now) (Recommendation.user_id r)
      (Recommendation.fiction_type_id r) in
  update_recommendation now recommendation_id current_user data session
  = (Return HTTP_200_OK (recommendation_id, r'),
     Session.with_recommendation
       (<[recommendation_id := r']> (Session.recommendation session)) session).
Proof.
  intros Hr Hown _ Hne Hft' Htags'. cbv zeta.
  assert (Py.truthy (field_value Py.Str (RecommendationUpdate.fiction_type data))
          = false) as Hft by (by destruct Hft' as [-> | ->]).
  assert (Py.truthy (field_value Py.List (RecommendationUpdate.tags data))
          = false) as Htags by (by destruct Htags' as [-> | ->]).
  unfold update_recommendation, get_recommendation_by_id. rewrite Hr.
  rewrite bool_decide_eq_false_2 by (by intros ?).
  rewrite bool_decide_eq_false_2 by done.
  destruct (get_dict_exclude_unset data) as (-> & -> & -> & -> & ->).
  cbv zeta. rewrite Hft, Htags. unfold commit_recommendation. simpl.
  assert (∀ a b : Recommendation.t,
            Recommendation.title a = Recommendation.title b →
            Recommendation.short_description a
            = Recommendation.short_description b →
            Recommendation.opinion a = Recommendation.opinion b →
            Recommendation.published a = Recommendation.published b →
            Recommendation.updated a = Recommendation.updated b →
            Recommendation.user_id a = Recommendation.user_id b →
            Recommendation.fiction_type_id a = Recommendation.fiction_type_id b →
            a = b) as Hext.
  { intros [] []; simpl; by intros -> -> -> -> -> -> ->. }
  match goal with
  | |- (Return _ (_, ?a), _) = (Return _ (_, ?b), _) =>
      assert (a = b) as ->; [|done]
  end.
  apply Hext; simpl; unfold patched, field_value;
    destruct (RecommendationUpdate.title data) as [|[t|]],
      (RecommendationUpdate.short_description data) as [|[d|]],
      (RecommendationUpdate.opinion data) as [|[o|]]; simpl;
    repeat case_bool_decide; simplify_eq/=; done.
Qed.

Lemma update_recommendation_text_witness :
  update_recommendation 50 1 alice sample_patch_empty_title sample_session
  = (Return HTTP_200_OK
       (1, Recommendation.mk "Interstellar" "Movie about space"
             "Still my favorite" 1000 (Some 50) 1 1),
     Session.with_recommendation
       (<[1 := Recommendation.mk "Interstellar" "Movie about space"
                 "Still my favorite" 1000 (Some 50) 1 1]>
          (Session.recommendation sample_session)) sample_session).
Proof.
  apply (update_recommendation_text 50 1 alice sample_patch_empty_title
           sample_session
           (Recommendation.mk "Interstellar" "Movie about space"
              "My favorite movie" 1000 None 1 1)).
  - vm_compute. reflexivity.
  - reflexivity.
  - reflexivity.
  - apply (dict_lookup_nonempty _ "opinion" (Py.Str "Still my favorite")).
    vm_compute. reflexivity.
  - left. reflexivity.
  - left. reflexivity.
Defined.

(** ** Canonical names *)

Lemma replace_string_map old new s :
  Py.replace old new s
  = string_map (λ c, if bool_decide (c = old) then new else c) s.
Proof. induction s as [|c s IH]; simpl; by f_equal. Qed.

Lemma lower_string_map s : Py.lower s = string_map Py.lower_char s.
Proof. induction s as [|c s IH]; simpl; by f_equal. Qed.

Lemma string_map_app f a b :
  string_map f (a +:+ b) = string_map f a +:+ string_map f b.
Proof.
  induction a as [|c a IH]; [done|].
  rewrite string_app_cons. simpl. by rewrite IH.
Qed.

Lemma string_map_rev f s : string_map f (String.rev s) = String.rev (string_map f s).
Proof.
  induction s as [|c s IH]; [done|].
  simpl. by rewrite !rev_cons, string_map_app, IH.
Qed.

Lemma string_length_map f s : String.length (string_map f s) = String.length s.
Proof. induction s as [|c s IH]; simpl; by f_equal. Qed.

Lemma lstrip_fixed_iff s :
  Py.lstrip s = s ↔ s = "" ∨ ∃ c t, s = String c t ∧ Py.isspace c = false.
Proof.
  split.
  - intros H. destruct (lstrip_spec s) as (_ & _ & _ & [Hs|(c & t & Hs & Hc)]);
      rewrite H in Hs; eauto.
  - intros [->|(c & t & -> & Hc)]; [done|by apply lstrip_fixed].
Qed.

Lemma app_length_self l s r : s = l +:+ s +:+ r → l = "" ∧ r = "".
Proof.
  intros H. apply (f_equal String.length) in H.
  rewrite !string_length_app in H.
  destruct l, r; simpl in H; try done; lia.
Qed.

Lemma strip_stripped s : stripped (Py.strip s).
Proof.
  destruct (strip_spec s) as [_ Hidem]. unfold Py.strip in Hidem |- *.
  set (t := Py.rstrip (Py.lstrip s)) in *.
  destruct (lstrip_spec t) as (l & Hl & _).
  destruct (rstrip_spec (Py.lstrip t)) as (r & Hr & _).
  rewrite Hidem in Hr. rewrite Hr in Hl.
  assert (Py.lstrip t = t) as Hlt.
  { apply app_length_self in Hl as [_ ->]. by rewrite string_app_nil_r in Hr. }
  split; [done|]. by rewrite Hlt in Hidem.
Qed.

Lemma stripped_map f s :
  (∀ c, Py.isspace c = false → Py.isspace (f c) = false) →
  stripped s → stripped (string_map f s).
Proof.
  intros Hf [Hl Hr]. split.
  - apply lstrip_fixed_iff. apply lstrip_fixed_iff in Hl
      as [->|(c & t & -> & Hc)]; [by left|].
    right. exists (f c), (string_map f t). auto.
  - unfold Py.rstrip in *. rewrite <-string_map_rev.
    assert (Py.lstrip (String.rev s) = String.rev s) as Hl'.
    { apply (f_equal String.rev) in Hr. by rewrite rev_involutive in Hr. }
    assert (Py.lstrip (string_map f (String.rev s))
            = string_map f (String.rev s)) as ->.
    { apply lstrip_fixed_iff. apply lstrip_fixed_iff in Hl'
        as [->|(c & t & -> & Hc)]; [by left|].
      right. exists (f c), (string_map f t). auto. }
    by rewrite string_map_rev, rev_involutive.
Qed.

Lemma stripped_strip s : stripped s → Py.strip s = s.
Proof. intros [Hl Hr]. unfold Py.strip. by rewrite Hl, Hr. Qed.

Lemma lower_char_idemp c : Py.lower_char (Py.lower_char c) = Py.lower_char c.
Proof. by destruct c as [[] [] [] [] [] [] [] []]. Qed.

Lemma lower_char_not_space c :
  Py.isspace c = false → Py.isspace (Py.lower_char c) = false.
Proof. by destruct c as [[] [] [] [] [] [] [] []]. Qed.

Lemma lower_char_space c : Py.lower_char c = " "%char → c = " "%char.
Proof. by destruct c as [[] [] [] [] [] [] [] []]. Qed.

Lemma lower_char_not_upper c : Py.isupper (Py.lower_char c) = false.
Proof. by destruct c as [[] [] [] [] [] [] [] []]. Qed.

Lemma normalize_tag_chars raw c :
  occurs c (normalize_tag raw) → c ≠ " "%char ∧ Py.isupper c = false.
Proof.
  unfold normalize_tag. generalize (Py.strip raw). intros s.
  induction s as [|d s IH]; simpl; [done|].
  intros [<-|H]; [|by apply IH]. split.
  - intros Hsp%lower_char_space. by case_bool_decide.
  - apply lower_char_not_upper.
Qed.

Lemma replace_absent old new s : ¬ occurs old s → Py.replace old new s = s.
Proof.
  induction s as [|c s IH]; simpl; [done|]. intros Hn.
  rewrite bool_decide_eq_false_2 by (intros ->; apply Hn; by left).
  rewrite IH; [done|]. intros ?. apply Hn. by right.
Qed.

Lemma lower_idemp s : Py.lower (Py.lower s) = Py.lower s.
Proof.
  induction s as [|c s IH]; simpl; [done|]. by rewrite lower_char_idemp, IH.
Qed.

Lemma normalize_tag_stripped raw : stripped (normalize_tag raw).
Proof.
  unfold normalize_tag. rewrite lower_string_map, replace_string_map.
  apply stripped_map; [apply lower_char_not_space|].
  apply stripped_map; [|apply strip_stripped].
  intros c Hc. by case_bool_decide.
Qed.

Lemma normalize_tag_idemp raw :
  normalize_tag (normalize_tag raw) = normalize_tag raw.
Proof.
  unfold normalize_tag at 1.
  rewrite (stripped_strip _ (normalize_tag_stripped raw)).
  rewrite replace_absent.
  - unfold normalize_tag. apply lower_idemp.
  - intros H. by apply normalize_tag_chars in H as [? _].
Qed.

Lemma normalize_fiction_type_idemp raw :
  normalize_fiction_type (normalize_fiction_type raw)
  = normalize_fiction_type raw.
Proof.
  unfold normalize_fiction_type at 1.
  rewrite stripped_strip.
  - unfold normalize_fiction_type. apply lower_idemp.
  - unfold normalize_fiction_type. rewrite lower_string_map.
    apply stripped_map; [apply lower_char_not_space|apply strip_stripped].
Qed.

(** X18. The names under which tags and fiction types are stored are fixed
    points of their normalisation: normalising a normalised label, or a
    normalised fiction type, changes nothing; a normalised label contains
    no space; and looking a tag or a fiction type up by the name of the
    object the look-up returned gives the same object again. *)
Theorem canonical_names_are_fixed session raw :
  normalize_tag (normalize_tag raw) = normalize_tag raw
  ∧ normalize_fiction_type (normalize_fiction_type raw)
    = normalize_fiction_type raw
  ∧ ¬ occurs " " (normalize_tag raw)
  ∧ (∀ row, row_of (save_tag session raw) = Some row →
            save_tag session (Tag.name row) = save_tag session raw)
  ∧ (∀ row, row_of (save_fiction_type session raw) = Some row →
            save_fiction_type session (FictionType.name row)
            = save_fiction_type session raw).
Proof.
  split; [apply normalize_tag_idemp|].
  split; [apply normalize_fiction_type_idemp|].
  split; [intros H; by apply normalize_tag_chars in H as [? _]|].
  split.
  - intros row ->%save_tag_row.
    unfold save_tag at 1. cbv zeta. fold (normalize_tag (normalize_tag raw)).
    by rewrite normalize_tag_idemp.
  - intros row ->%save_fiction_type_row.
    unfold save_fiction_type at 1. cbv zeta.
    fold (normalize_fiction_type (normalize_fiction_type raw)).
    by rewrite normalize_fiction_type_idemp.
Qed.

Lemma canonical_names_are_fixed_witness :
  save_tag sample_session (Tag.name (Tag.mk "space"))
  = save_tag sample_session "  SPACE ".
Proof.
  destruct (canonical_names_are_fixed sample_session "  SPACE ")
    as (_ & _ & _ & Htag & _).
  apply Htag. vm_compute. reflexivity.
Defined.

(** ** When a creation writes reference data, fails or goes through *)

Lemma save_tag_existing s raw k r :
  Session.tag s !! k = Some r → Tag.name r = normalize_tag raw →
  ∃ id row, save_tag s raw = Persistent id row.
Proof.
  intros Hk Hname. pose proof (save_tag_spec s raw) as Hs.
  destruct (save_tag s raw) as [id row|row|]; [by eexists _, _|..];
    destruct Hs as [_ Hs]; by destruct (Hs k r Hk).
Qed.

Lemma flush_tags_persistent os s :
  Forall (λ o, ∃ id row, o = Persistent id row) os →
  ∃ ids, Session.flush_tags os s = Some (ids, s).
Proof.
  induction 1 as [|o os (id & row & ->) _ [ids IH]]; [by eexists|].
  rewrite flush_tags_cons. simpl. rewrite IH. simpl. by eexists.
Qed.

(** X19. When every label of a creation request names, after
    normalisation, a tag that is stored, and its fiction type one that is
    stored, [post_recommendation] adds no tag and no fiction type: both
    tables are exactly as before. *)
Theorem post_recommendation_reuses models data current_user session :
  (∀ label, label ∈ RecommendationCreate.tags data →
     ∃ k r, Session.tag session !! k = Some r
            ∧ Tag.name r = normalize_tag label) →
  (∃ k r, Session.fiction_type session !! k = Some r
          ∧ FictionType.name r
            = normalize_fiction_type (RecommendationCreate.fiction_type data)) →
  Session.tag (post_recommendation models data current_user session).2
  = Session.tag session
  ∧ Session.fiction_type (post_recommendation models data current_user session).2
    = Session.fiction_type session.
Proof.
  intros Htags (k & r & Hk & Hname).
  destruct (post_recommendation models data current_user session)
    as [resp s'] eqn:H. simpl.
  assert ((∃ id row, resp = Return HTTP_201_CREATED (id, row)) ∨ s' = session)
    as Hcase.
  { revert H. unfold post_recommendation, post_recommendation_between.
    cbv zeta. destruct (commit_new_recommendation _ _ _ _ _ _ _ _)
      as [[[? ?] ?]|]; intros [= <- <-]; eauto. }
  destruct Hcase as [(id & row & ->)| ->]; [|done].
  apply post_recommendation_inv, commit_new_recommendation_inv in H
    as (fid & s1 & ids & s2 & H1 & H2 & _ & _ & _ & _ & Hf & Ht & Ht1 & _).
  assert (s1 = session) as ->.
  { pose proof (save_fiction_type_spec session
                  (RecommendationCreate.fiction_type data)) as Hs.
    destruct (save_fiction_type session _) as [id' row'|row'|];
      simpl in H1; [by simplify_eq| |done].
    destruct Hs as [_ Hs]. by destruct (Hs k r Hk). }
  destruct (flush_tags_persistent
              (save_tags session (RecommendationCreate.tags data)) session)
    as [ids' H2'].
  { unfold save_tags. apply Forall_fmap, Forall_forall. intros label Hin.
    destruct (Htags label Hin) as (k' & r' & Hk' & Hname').
    by eapply save_tag_existing. }
  rewrite H2' in H2. simplify_eq. by rewrite Ht, Hf.
Qed.

Lemma post_recommendation_reuses_witness :
  Session.tag (post_recommendation sample_models sample_create bob sample_posts).2
  = Session.tag sample_posts
  ∧ Session.fiction_type
      (post_recommendation sample_models sample_create bob sample_posts).2
    = Session.fiction_type sample_posts.
Proof.
  apply (post_recommendation_reuses sample_models sample_create bob
           sample_posts).
  - intros label Hin. simpl in Hin.
    apply elem_of_cons in Hin as [->|Hin];
      [|apply elem_of_cons in Hin as [->|Hin]].
    + exists 1, (Tag.mk "sci-fy"). vm_compute. split; reflexivity.
    + exists 2, (Tag.mk "space"). vm_compute. split; reflexivity.
    + by apply elem_of_nil in Hin.
  - exists 1, (FictionType.mk "movie" "movie"). vm_compute. split; reflexivity.
Defined.

(** X20. A fiction type whose name is new but whose slug (the name with
    each space turned into a hyphen) is taken by a stored fiction type
    breaks the creation: [post_recommendation] ends in the integrity error
    of the commit, unhandled, and the store is as before. *)
Theorem slug_clash_breaks_commit models data current_user session k r :
  (∀ i f, Session.fiction_type session !! i = Some f →
          FictionType.name f
          ≠ normalize_fiction_type (RecommendationCreate.fiction_type data)) →
  Session.fiction_type session !! k = Some r →
  FictionType.slug r
  = Py.replace " " "-"
      (normalize_fiction_type (RecommendationCreate.fiction_type data)) →
  post_recommendation models data current_user session
  = (Unhandled IntegrityError, session).
Proof.
  intros Hnew Hk Hslug.
  unfold post_recommendation, post_recommendation_between. cbv zeta.
  pose proof (save_fiction_type_spec session
                (RecommendationCreate.fiction_type data)) as Hs.
  destruct (save_fiction_type session _) as [id' row'|row'|].
  - destruct Hs as [Hid Hname]. by destruct (Hnew id' row' Hid).
  - destruct Hs as [-> _]. unfold commit_new_recommendation.
    unfold Session.flush_fiction_type.
    destruct (Session.first _ _) eqn:Hf; [done|].
    rewrite first_None in Hf. specialize (Hf k r Hk).
    apply bool_decide_eq_false in Hf. destruct Hf. by right.
  - done.
Qed.

Lemma slug_clash_breaks_commit_witness :
  post_recommendation sample_models sample_create_slug bob sample_slug
  = (Unhandled IntegrityError, sample_slug).
Proof.
  apply (slug_clash_breaks_commit sample_models sample_create_slug bob
           sample_slug 1 (FictionType.mk "short-story" "short-story")).
  - intros i f Hi Hname.
    apply (first_is_Some
             (λ _ r, bool_decide
                       (FictionType.name r
                        = normalize_fiction_type
                            (RecommendationCreate.fiction_type
                               sample_create_slug)))) in Hi
      as [x Hx]; [|by apply bool_decide_eq_true].
    vm_compute in Hx. discriminate.
  - vm_compute. reflexivity.
  - vm_compute. reflexivity.
Defined.

Lemma length_between_true lo hi v :
  length_between lo hi v = true ↔ (lo ≤ String.length v ≤ hi)%nat.
Proof. unfold length_between. apply bool_decide_eq_true. Qed.

Lemma flush_tags_succeeds os : ∀ s,
  Incomplete ∉ os →
  NoDup ((λ o, Tag.name <$> row_of o) <$> os) →
  (∀ row, Pending row ∈ os →
          ∀ k r, Session.tag s !! k = Some r → Tag.name r ≠ Tag.name row) →
  is_Some (Session.flush_tags os s).
Proof.
  induction os as [|o os IH]; intros s Hinc Hnd Hnew; [by eexists|].
  rewrite fmap_cons in Hnd. apply NoDup_cons in Hnd as [Hhd Hnd].
  rewrite not_elem_of_cons in Hinc. destruct Hinc as [Ho Hinc].
  rewrite flush_tags_cons.
  assert (∃ id s1, Session.flush_tag o s = Some (id, s1)
                   ∧ ∀ k r, Session.tag s1 !! k = Some r →
                            Session.tag s !! k = Some r ∨ row_of o = Some r)
    as (id & s1 & -> & Hs1).
  { destruct o as [id row|row|]; simpl; [exists id, s; by auto| |done].
    destruct (Session.first _ _) as [[k r]|] eqn:Hf.
    - apply first_Some in Hf as [Hk Hname%bool_decide_eq_true].
      exfalso. eapply (Hnew row); [by left|exact Hk|exact Hname].
    - eexists _, _. split; [done|]. simpl. intros k r.
      intros [[_ <-]|[_ ?]]%lookup_insert_Some; auto. }
  simpl. destruct (IH s1 Hinc Hnd) as [[ids s2] ->]; [|by eexists].
  intros row Hin k r Hk. destruct (Hs1 k r Hk) as [Hk'|Hrow].
  - apply (Hnew row (list_elem_of_further _ _ _ Hin) k r Hk').
  - intros Hname. apply Hhd. rewrite Hrow. simpl. rewrite Hname.
    change (Some (Tag.name row))
      with ((λ o, Tag.name <$> row_of o) (Pending row)).
    by apply list_elem_of_fmap_2.
Qed.

Lemma insert_links_succeeds rid ids : ∀ links,
  NoDup ids → (∀ t, t ∈ ids → (rid, t) ∉ links) →
  is_Some (Session.insert_links rid ids links).
Proof.
  induction ids as [|t ids IH]; intros links Hnd Hfree; [by eexists|].
  apply NoDup_cons in Hnd as [Hhd Hnd]. simpl.
  rewrite bool_decide_eq_false_2 by (apply Hfree; left).
  apply IH; [done|]. intros t' Hin.
  rewrite elem_of_union, elem_of_singleton. intros [[= ->]|Hin'].
  - done.
  - by apply (Hfree t'); [right|].
Qed.

(** The objects of labels with names the field accepts. *)
Lemma save_tags_names session tags :
  (∀ label, label ∈ tags → (4 ≤ String.length (normalize_tag label) ≤ 255)%nat) →
  (Incomplete ∉ save_tags session tags)
  ∧ (λ o, Tag.name <$> row_of o) <$> save_tags session tags
    = (Some ∘ normalize_tag) <$> tags.
Proof.
  intros Hlen. unfold save_tags.
  assert (∀ label, label ∈ tags →
            Tag.name <$> row_of (save_tag session label)
            = Some (normalize_tag label)) as Hname.
  { intros label Hin. pose proof (save_tag_spec session label) as Hs.
    destruct (save_tag session label); simpl.
    - by destruct Hs as [_ ->].
    - by destruct Hs as [-> _].
    - destruct Hs as [Hok _]. apply Hlen, length_between_true in Hin.
      unfold Tag.name_ok in Hok. congruence. }
  split.
  - intros (label & Heq & Hin)%list_elem_of_fmap.
    specialize (Hname label Hin). by rewrite <-Heq in Hname.
  - rewrite <-list_fmap_compose. apply list_fmap_ext.
    intros i label Hi. apply Hname. by eapply list_elem_of_lookup_2.
Qed.

(** When the commit of a new recommendation goes through. *)
Lemma commit_new_recommendation_succeeds title short_description opinion
    published fiction_type tags user session :
  referential_integrity session →
  NoDup (normalize_tag <$> tags) →
  (∀ label, label ∈ tags → (4 ≤ String.length (normalize_tag label) ≤ 255)%nat) →
  ((∃ k r, Session.fiction_type session !! k = Some r
           ∧ FictionType.name r = normalize_fiction_type fiction_type)
   ∨ ((4 ≤ String.length (normalize_fiction_type fiction_type) ≤ 255)%nat
      ∧ ∀ k r, Session.fiction_type session !! k = Some r →
               FictionType.slug r
               ≠ Py.replace " " "-" (normalize_fiction_type fiction_type))) →
  is_Some (commit_new_recommendation title short_description opinion published
             (save_fiction_type session fiction_type)
             (save_tags session tags) user session).
Proof.
  intros (_ & I2 & _) Hnd Hlen Hft. unfold commit_new_recommendation.
  assert (is_Some (Session.flush_fiction_type
                     (save_fiction_type session fiction_type) session))
    as [[fid s1] H1].
  { pose proof (save_fiction_type_spec session fiction_type) as Hs.
    destruct (save_fiction_type session _) as [id' row'|row'|]; simpl;
      [by eexists| |].
    - destruct Hs as [-> Hnew].
      destruct (Session.first _ _) as [[k r]|] eqn:Hf; [|by eexists].
      apply first_Some in Hf as [Hk Hclash%bool_decide_eq_true].
      simpl in Hclash.
      destruct Hft as [(k' & r' & Hk' & Hname)|[_ Hslug]].
      + by destruct (Hnew k' r' Hk').
      + destruct Hclash as [?|?]; [by destruct (Hnew k r Hk)|].
        by destruct (Hslug k r Hk).
    - destruct Hs as [Hok Hnew].
      destruct Hft as [(k' & r' & Hk' & Hname)|[Hok' _]].
      + by destruct (Hnew k' r' Hk').
      + apply length_between_true in Hok'.
        unfold FictionType.name_ok in Hok. congruence. }
  rewrite H1. simpl.
  pose proof (flush_fiction_type_frame _ _ _ _ H1) as (Ht1 & Hr1 & Hl1 & _).
  destruct (save_tags_names session tags Hlen) as [Hinc Hnames].
  assert (is_Some (Session.flush_tags (save_tags session tags) s1))
    as [[ids s2] H2].
  { apply flush_tags_succeeds; [done| |].
    - rewrite Hnames, list_fmap_compose. by apply (NoDup_fmap_2 Some).
    - intros row Hin k r. rewrite Ht1. intros Hk.
      apply list_elem_of_fmap in Hin as (label & Heq & _).
      pose proof (save_tag_spec session label) as Hs. rewrite <-Heq in Hs.
      destruct Hs as [-> Hs]. by apply (Hs k r). }
  rewrite H2. simpl.
  assert (Forall (backed (Session.tag s1)) (save_tags session tags)) as Hb
    by (rewrite Ht1; apply save_tags_backed).
  destruct (flush_tags_spec _ _ _ _ H2 Hb) as (Hall & _ & _).
  pose proof (flush_tags_frame _ _ _ _ H2) as (_ & Hr2 & Hl2 & _).
  destruct (insert_links_succeeds
              (Session.next_id (Session.recommendation s2)) ids
              (Session.tagged_recommendations s2)) as [links ->];
    [| |by eexists].
  - apply NoDup_alt. intros i j t Hi Hj.
    destruct (Forall2_lookup_r _ _ _ _ _ Hall Hi) as (oi & Hoi & Hsi & _).
    destruct (Forall2_lookup_r _ _ _ _ _ Hall Hj) as (oj & Hoj & Hsj & _).
    rewrite Hsi in Hsj.
    assert (NoDup ((λ o, Tag.name <$> row_of o) <$> save_tags session tags))
      as Hnd'.
    { rewrite Hnames, list_fmap_compose. by apply (NoDup_fmap_2 Some). }
    eapply NoDup_lookup; [exact Hnd'|..]; rewrite list_lookup_fmap.
    + by rewrite Hoi.
    + rewrite Hoj. simpl. by rewrite Hsj.
  - intros t _ Hin. rewrite Hl2, Hl1 in Hin. rewrite Hr2, Hr1 in Hin.
    destruct (I2 _ Hin) as [[x Hx] _]. simpl in Hx.
    by rewrite next_id_fresh in Hx.
Qed.

(** X21. In a store where nothing dangles, a creation request that passes
    the schema goes through with 201 whenever its labels normalise to
    names that differ from each other and have 4 to 255 characters, and
    its fiction type normalises to a name of 4 to 255 characters that is
    either the name of a stored fiction type or has a slug that no stored
    fiction type has. *)
Theorem post_recommendation_succeeds models data current_user session :
  referential_integrity session →
  RecommendationCreate.valid data = true →
  NoDup (normalize_tag <$> RecommendationCreate.tags data) →
  (∀ label, label ∈ RecommendationCreate.tags data →
            (4 ≤ String.length (normalize_tag label) ≤ 255)%nat) →
  (4 ≤ String.length
         (normalize_fiction_type (RecommendationCreate.fiction_type data))
   ≤ 255)%nat →
  ((∃ k r, Session.fiction_type session !! k = Some r
           ∧ FictionType.name r
             = normalize_fiction_type (RecommendationCreate.fiction_type data))
   ∨ (∀ k r, Session.fiction_type session !! k = Some r →
             FictionType.slug r
             ≠ Py.replace " " "-"
                 (normalize_fiction_type
                    (RecommendationCreate.fiction_type data)))) →
  status (post_recommendation models data current_user session).1
  = HTTP_201_CREATED.
Proof.
  intros HI _ Hnd Hlen Hlen' Hft'.
  assert ((∃ k r, Session.fiction_type session !! k = Some r
                  ∧ FictionType.name r
                    = normalize_fiction_type
                        (RecommendationCreate.fiction_type data))
          ∨ ((4 ≤ String.length
                    (normalize_fiction_type
                       (RecommendationCreate.fiction_type data)) ≤ 255)%nat
             ∧ ∀ k r, Session.fiction_type session !! k = Some r →
                      FictionType.slug r
                      ≠ Py.replace " " "-"
                          (normalize_fiction_type
                             (RecommendationCreate.fiction_type data))))
    as Hft.
  { destruct Hft' as [Hst|Hfree]; [by left|by right]. }
  unfold post_recommendation, post_recommendation_between. cbv zeta.
  by destruct (commit_new_recommendation_succeeds
                 (RecommendationCreate.title data)
                 (RecommendationCreate.short_description data)
                 (RecommendationCreate.opinion data)
                 (Recommendation_published_default models)
                 (RecommendationCreate.fiction_type data)
                 (RecommendationCreate.tags data) current_user session
                 HI Hnd Hlen Hft) as [[[id row] s'] ->].
Qed.

Lemma post_recommendation_succeeds_witness :
  status (post_recommendation sample_models sample_create_slug bob
            sample_posts).1
  = HTTP_201_CREATED.
Proof.
  apply (post_recommendation_succeeds sample_models sample_create_slug bob
           sample_posts).
  - unfold sample_posts.
    apply serve_integrity, serve_integrity, serve_integrity, serve_integrity,
      referential_integrity_empty.
  - reflexivity.
  - vm_compute. apply NoDup_cons. split; [|apply NoDup_nil_2].
    apply not_elem_of_nil.
  - intros label Hin. simpl in Hin.
    apply elem_of_cons in Hin as [->|Hin]; [|by apply elem_of_nil in Hin].
    vm_compute. lia.
  - vm_compute. lia.
  - right. intros k r Hk Hslug.
    apply (first_is_Some
             (λ _ r, bool_decide
                       (FictionType.slug r
                        = Py.replace " " "-"
                            (normalize_fiction_type
                               (RecommendationCreate.fiction_type
                                  sample_create_slug))))) in Hk
      as [x Hx]; [|by apply bool_decide_eq_true].
    vm_compute in Hx. discriminate.
Defined.

(** X25. A label, or a fiction type, that is not stored and whose
    normalised name has fewer than 4 or more than 255 characters breaks
    the creation: the object built for it lacks the name, the commit fails
    on the missing column, [post_recommendation] ends in the unhandled
    [IntegrityError] and the store is as before. *)
Theorem refused_name_breaks_commit models data current_user session :
  (∃ label,
     label ∈ RecommendationCreate.tags data
     ∧ ¬ (4 ≤ String.length (normalize_tag label) ≤ 255)%nat
     ∧ ∀ k r, Session.tag session !! k = Some r →
              Tag.name r ≠ normalize_tag label)
  ∨ (¬ (4 ≤ String.length
              (normalize_fiction_type (RecommendationCreate.fiction_type data))
        ≤ 255)%nat
     ∧ ∀ k r, Session.fiction_type session !! k = Some r →
              FictionType.name r
              ≠ normalize_fiction_type (RecommendationCreate.fiction_type data)) →
  post_recommendation models data current_user session
  = (Unhandled IntegrityError, session).
Proof.
  intros Hcase.
  unfold post_recommendation, post_recommendation_between. cbv zeta.
  assert (commit_new_recommendation
            (RecommendationCreate.title data)
            (RecommendationCreate.short_description data)
            (RecommendationCreate.opinion data)
            (Recommendation_published_default models)
            (save_fiction_type session (RecommendationCreate.fiction_type data))
            (save_tags session (RecommendationCreate.tags data))
            current_user session = None) as ->; [|done].
  unfold commit_new_recommendation.
  destruct Hcase as [(label & Hin & Hlen & Hnew)|[Hlen Hnew]].
  - destruct (Session.flush_fiction_type _ session) as [[fid s1]|];
      [simpl|done].
    rewrite flush_tags_incomplete; [done|].
    pose proof (save_tag_spec session label) as Hs.
    assert (save_tag session label = Incomplete) as <-.
    { destruct (save_tag session label) as [id row|row|] eqn:Hsave;
        [| |done].
      - destruct Hs as [Hid Hname]. by destruct (Hnew id row Hid).
      - exfalso. apply Hlen, length_between_true.
        by eapply save_tag_pending. }
    by apply list_elem_of_fmap_2.
  - pose proof (save_fiction_type_spec session
                  (RecommendationCreate.fiction_type data)) as Hs.
    destruct (save_fiction_type session _) as [id row|row|] eqn:Hsave;
      [| |done].
    + destruct Hs as [Hid Hname]. by destruct (Hnew id row Hid).
    + exfalso. apply Hlen, length_between_true.
      by eapply save_fiction_type_pending.
Qed.

Lemma refused_name_breaks_commit_witness :
  post_recommendation sample_models sample_create_short alice sample_session
  = (Unhandled IntegrityError, sample_session).
Proof.
  apply (refused_name_breaks_commit sample_models sample_create_short alice
           sample_session).
  right. split; [vm_compute; lia|]. intros k r Hk.
  assert (k = 1 ∧ r = FictionType.mk "movie" "movie") as [-> ->].
  { unfold sample_session in Hk. simpl in Hk.
    by apply lookup_singleton_Some in Hk as [<- <-]. }
  vm_compute. discriminate.
Defined.

(** ** What a partial update writes *)

Lemma elem_of_linked_tags recommendation_id links t :
  t ∈ Session.linked_tags recommendation_id links
  ↔ (recommendation_id, t) ∈ links.
Proof.
  unfold Session.linked_tags. rewrite list_elem_of_fmap. split.
  - intros ([a b] & -> & Hin). apply list_elem_of_filter in Hin as [Ha Hin].
    simpl in *. subst. by apply elem_of_elements in Hin.
  - intros Hin. exists (recommendation_id, t). split; [done|].
    apply list_elem_of_filter. split; [done|]. by apply elem_of_elements.
Qed.

Lemma replace_links_elem rid ids links links' :
  Session.replace_links rid ids links = Some links' →
  ∀ p, p ∈ links' ↔ (p.1 = rid ∧ p.2 ∈ ids) ∨ (p.1 ≠ rid ∧ p ∈ links).
Proof.
  unfold Session.replace_links. cbv zeta. intros H [a b].
  rewrite (insert_links_spec _ _ _ _ H), elem_of_filter, list_elem_of_filter,
    elem_of_linked_tags. simpl.
  destruct (decide (a = rid)) as [->|Hne], (decide (b ∈ ids)),
    (decide ((rid, b) ∈ links)); tauto.
Qed.

(** The commit an owner's non-empty [PATCH] arrives at. *)
Lemma update_recommendation_commit now recommendation_id current_user data
    session r :
  Session.recommendation session !! recommendation_id = Some r →
  Recommendation.user_id r = User.id current_user →
  RecommendationUpdate.dict_exclude_unset data ≠ ∅ →
  update_recommendation now recommendation_id current_user data session
  = match commit_recommendation recommendation_id
            (Recommendation.mk
               (patched (RecommendationUpdate.title data)
                  (Recommendation.title r))
               (patched (RecommendationUpdate.short_description data)
                  (Recommendation.short_description r))
               (patched (RecommendationUpdate.opinion data)
                  (Recommendation.opinion r))
               (Recommendation.published r) (Some now)
               (Recommendation.user_id r) (Recommendation.fiction_type_id r))
            match RecommendationUpdate.fiction_type data with
            | Provided (Some name) =>
                if bool_decide (name = "") then None
                else Some (save_fiction_type session name)
            | _ => None
            end
            match RecommendationUpdate.tags data with
            | Provided (Some labels) =>
                if bool_decide (labels = []) then None
                else Some (save_tags session labels)
            | _ => None
            end session with
    | Some (r', session') =>
        (Return HTTP_200_OK (recommendation_id, r'), session')
    | None => (Unhandled IntegrityError, session)
    end.
Proof.
  intros Hr Hown Hne.
  unfold update_recommendation, get_recommendation_by_id. rewrite Hr.
  rewrite bool_decide_eq_false_2 by (by intros ?).
  rewrite bool_decide_eq_false_2 by done.
  destruct (get_dict_exclude_unset data) as (-> & -> & -> & -> & ->).
  cbv zeta.
  match goal with
  | |- match commit_recommendation _ ?a ?b ?c _ with _ => _ end
       = match commit_recommendation _ ?a' ?b' ?c' _ with _ => _ end =>
      assert (a = a') as ->; [|assert (b = b') as ->; [|assert (c = c') as ->]]
  end; [| | |done].
  - unfold patched, field_value;
      destruct (RecommendationUpdate.title data) as [|[t|]],
        (RecommendationUpdate.short_description data) as [|[d|]],
        (RecommendationUpdate.opinion data) as [|[o|]], r; simpl;
      repeat case_bool_decide; simplify_eq/=; done.
  - unfold field_value.
    destruct (RecommendationUpdate.fiction_type data) as [|[name|]]; simpl;
      repeat case_bool_decide; simplify_eq/=; done.
  - unfold field_value.
    destruct (RecommendationUpdate.tags data) as [|[labels|]]; simpl;
      repeat case_bool_decide; simplify_eq/=; done.
Qed.

(** X22. What a [PATCH] that answered 200 has written: [get_recommendation]
    returns the answer, whose [updated] is the time of the request. A
    fiction type that counts (not empty) makes the recommendation point at
    a stored fiction type named by the normalised input. Labels that count
    (a list that is not empty) become the tags of the recommendation: each
    label is linked to a stored tag named by the normalised label, and
    every tag linked afterwards comes from one of the labels. The links of
    other recommendations, the other recommendations, and all comments and
    reactions are as before. *)
Theorem update_recommendation_stores now recommendation_id current_user data
    session r' session' :
  update_recommendation now recommendation_id current_user data session
  = (Return HTTP_200_OK (recommendation_id, r'), session') →
  get_recommendation recommendation_id session'
  = Return HTTP_200_OK (recommendation_id, r')
  ∧ Recommendation.updated r' = Some now
  ∧ (∀ name,
       RecommendationUpdate.fiction_type data = Provided (Some name) →
       name ≠ "" →
       ∃ ft, Session.fiction_type session'
               !! Recommendation.fiction_type_id r' = Some ft
             ∧ FictionType.name ft = normalize_fiction_type name)
  ∧ (∀ labels,
       RecommendationUpdate.tags data = Provided (Some labels) →
       labels ≠ [] →
       (∀ label, label ∈ labels →
          ∃ tag_id,
            (recommendation_id, tag_id)
              ∈ Session.tagged_recommendations session'
            ∧ Session.tag session' !! tag_id
              = Some (Tag.mk (normalize_tag label)))
       ∧ (∀ tag_id,
            (recommendation_id, tag_id)
              ∈ Session.tagged_recommendations session' →
            ∃ label, label ∈ labels
                     ∧ Session.tag session' !! tag_id
                       = Some (Tag.mk (normalize_tag label))))
  ∧ (∀ p, p.1 ≠ recommendation_id →
          p ∈ Session.tagged_recommendations session'
          ↔ p ∈ Session.tagged_recommendations session)
  ∧ (∀ k, k ≠ recommendation_id →
          Session.recommendation session' !! k
          = Session.recommendation session !! k)
  ∧ Session.comment session' = Session.comment session
  ∧ Session.reaction session' = Session.reaction session.
Proof.
  intros H.
  assert (∃ r, Session.recommendation session !! recommendation_id = Some r
               ∧ Recommendation.user_id r = User.id current_user
               ∧ RecommendationUpdate.dict_exclude_unset data ≠ ∅)
    as (r & Hr & Hown & Hne).
  { revert H. unfold update_recommendation, get_recommendation_by_id.
    destruct (Session.recommendation session !! recommendation_id) as [r|];
      [|done].
    case_bool_decide as Hown; [done|]. case_bool_decide as Hne; [done|].
    intros _. exists r. split; [done|]. split; [|done].
    by destruct (decide (Recommendation.user_id r = User.id current_user)). }
  rewrite (update_recommendation_commit _ _ _ _ _ _ Hr Hown Hne) in H.
  destruct (commit_recommendation _ _ _ _ _) as [[r1 s1]|] eqn:Hc; [|done].
  injection H as -> ->.
  apply commit_recommendation_inv in Hc
    as (s1 & s2 & Hft & Htags & Hrec & Hf & Ht & Ht1 & Hcom & Hrea).
  assert (Session.fiction_type s2 = Session.fiction_type s1
          ∧ (∀ k x, Session.tag s1 !! k = Some x →
                    Session.tag s2 !! k = Some x)) as [Hf2 Htkeep].
  { destruct (RecommendationUpdate.tags data) as [|[labels|]];
      try (destruct Htags as [-> _]; done).
    case_bool_decide; [destruct Htags as [-> _]; done|].
    destruct Htags as (ids & H2 & _).
    pose proof (flush_tags_frame _ _ _ _ H2) as (Hf2 & _). split; [done|].
    assert (Forall (backed (Session.tag s1)) (save_tags session labels)) as Hb
      by (rewrite Ht1; apply save_tags_backed).
    by destruct (flush_tags_spec _ _ _ _ H2 Hb) as (_ & ? & _). }
  split; [by rewrite get_recommendation_lookup, Hrec, lookup_insert_eq|].
  split.
  { destruct (RecommendationUpdate.fiction_type data) as [|[name|]];
      try (by destruct Hft as [_ ->]).
    case_bool_decide; [by destruct Hft as [_ ->]|].
    by destruct Hft as (fid & _ & ->). }
  split.
  { intros name Heq Hname. rewrite Heq in Hft.
    rewrite bool_decide_eq_false_2 in Hft by done.
    destruct Hft as (fid & H1 & ->). simpl. rewrite Hf.
    destruct (flush_fiction_type_spec _ _ _ _ H1
                (save_fiction_type_backed _ _)) as (Hfid & [ft Hrow] & _).
    exists ft. split; [by rewrite Hfid|].
    by eapply save_fiction_type_row. }
  split.
  { intros labels Heq Hlabels. rewrite Heq in Htags.
    rewrite bool_decide_eq_false_2 in Htags by done.
    destruct Htags as (ids & H2 & H3).
    assert (Forall (backed (Session.tag s1)) (save_tags session labels)) as Hb
      by (rewrite Ht1; apply save_tags_backed).
    destruct (flush_tags_spec _ _ _ _ H2 Hb) as (Hall & _ & _).
    split.
    - intros label Hin.
      assert (save_tag session label ∈ save_tags session labels) as Hin'
        by by apply list_elem_of_fmap_2.
      apply list_elem_of_lookup in Hin' as [i Hi].
      destruct (Forall2_lookup_l _ _ _ _ _ Hall Hi)
        as (tid & Hti & Hstored & [x Hrow]).
      exists tid. split.
      + apply (replace_links_elem _ _ _ _ H3). left. split; [done|].
        by eapply list_elem_of_lookup_2.
      + rewrite Ht, Hstored, Hrow. f_equal. by eapply save_tag_row_mk.
    - intros tag_id Hin.
      apply (replace_links_elem _ _ _ _ H3) in Hin as [[_ Hin]|[? _]];
        [|done].
      simpl in Hin. apply list_elem_of_lookup in Hin as [i Hi].
      destruct (Forall2_lookup_r _ _ _ _ _ Hall Hi)
        as (o & Ho & Hstored & [x Hrow]).
      unfold save_tags in Ho. rewrite list_lookup_fmap in Ho.
      destruct (labels !! i) as [label|] eqn:Hlabel; [|done].
      simpl in Ho. injection Ho as <-.
      exists label. split; [by eapply list_elem_of_lookup_2|].
      rewrite Ht, Hstored, Hrow. f_equal. by eapply save_tag_row_mk. }
  split.
  { intros p Hp.
    destruct (RecommendationUpdate.tags data) as [|[labels|]];
      try (destruct Htags as [_ ->]; done).
    case_bool_decide; [destruct Htags as [_ ->]; done|].
    destruct Htags as (ids & _ & H3).
    rewrite (replace_links_elem _ _ _ _ H3 p). tauto. }
  split; [intros k Hk; by rewrite Hrec, lookup_insert_ne|done].
Qed.

Lemma update_recommendation_stores_witness :
  get_recommendation 1
    (update_recommendation 50 1 alice sample_patch_tags sample_session).2
  = Return HTTP_200_OK
      (1, Recommendation.mk "Interstellar" "Movie about space"
            "My favorite movie" 1000 (Some 50) 1 2).
Proof.
  destruct (update_recommendation_stores 50 1 alice sample_patch_tags
              sample_session
              (Recommendation.mk "Interstellar" "Movie about space"
                 "My favorite movie" 1000 (Some 50) 1 2)
              (update_recommendation 50 1 alice sample_patch_tags
                 sample_session).2) as (Hget & _).
  - vm_compute. reflexivity.
  - exact Hget.
Defined.

(** ** Requests that fail *)

Lemma outcome_Return {A} (r : Response A * Session.t) :
  (∀ c, (outcome r).1 ≠ Return c ()) → ∀ c b, r.1 ≠ Return c b.
Proof. intros H c b Hr. apply (H c). unfold outcome. by rewrite Hr. Qed.

(** X23. A request that does not end in a response of its own (it is
    refused with an HTTP error, or the commit raises) writes nothing: the
    store after it is the store before it. *)
Theorem failure_writes_nothing models now current_user request session :
  (∀ c, (serve models now current_user request session).1 ≠ Return c ()) →
  (serve models now current_user request session).2 = session.
Proof.
  destruct request as [data|rid data|rid data|m]; simpl.
  - intros H; pose proof (outcome_Return _ H) as H'; clear H; rename H' into H. revert H.
    unfold post_recommendation, post_recommendation_between. cbv zeta.
    destruct (commit_new_recommendation _ _ _ _ _ _ _ _) as [[[id r] s']|];
      [|done].
    intros H. by destruct (H HTTP_201_CREATED (id, r)).
  - intros H; pose proof (outcome_Return _ H) as H'; clear H; rename H' into H. revert H.
    unfold post_comment, Session.insert_comment.
    destruct (get_recommendation_by_id session rid); [|done].
    intros Hret. by edestruct Hret.
  - intros H; pose proof (outcome_Return _ H) as H'; clear H; rename H' into H. revert H. unfold post_reaction, post_reaction_between.
    destruct (get_recommendation_by_id session rid); [|done].
    destruct (get_reaction_by_recommendation_id_and_user_id _ _ _); [done|].
    destruct (Session.insert_reaction _ _) as [[id s']|]; [|done].
    intros Hret. by edestruct Hret.
  - destruct m; simpl.
    + intros H; pose proof (outcome_Return _ H) as H'; clear H; rename H' into H.
      destruct (update_recommendation_inv now recommendation_id current_user
                  data session)
        as [->|(_ & _ & _ & _ & r' & _ & _ & _ & _ & _ & _ & _ & _ & _ & Hr)];
        [done|].
      by destruct (H _ _ Hr).
    + unfold delete_recommendation.
      destruct (get_recommendation_by_id session recommendation_id); [|done].
      case_bool_decide; [done|]. intros Hret. by edestruct Hret.
    + intros H; pose proof (outcome_Return _ H) as H'; clear H; rename H' into H. revert H. unfold update_comment.
      destruct (get_recommendation_by_id session recommendation_id); [|done].
      destruct (get_comment_by_id_and_recommendation_id _ _ _); [|done].
      case_bool_decide; [done|]. intros Hret. by edestruct Hret.
    + unfold delete_comment.
      destruct (get_recommendation_by_id session recommendation_id); [|done].
      destruct (get_comment_by_id_and_recommendation_id _ _ _); [|done].
      case_bool_decide; [done|]. intros Hret. by edestruct Hret.
    + intros H; pose proof (outcome_Return _ H) as H'; clear H; rename H' into H. revert H. unfold update_reaction.
      destruct (get_recommendation_by_id session recommendation_id); [|done].
      destruct (get_reaction_by_id_and_recommendation_id _ _ _); [|done].
      case_bool_decide; [done|]. intros Hret. by edestruct Hret.
    + unfold delete_reaction.
      destruct (get_recommendation_by_id session recommendation_id); [|done].
      destruct (get_reaction_by_id_and_recommendation_id _ _ _); [|done].
      case_bool_decide; [done|]. intros Hret. by edestruct Hret.
Qed.

Lemma failure_writes_nothing_witness :
  (serve sample_models 50 bob (Mutate (DeleteRecommendation 1))
     sample_session).2
  = sample_session.
Proof.
  apply (failure_writes_nothing sample_models 50 bob
           (Mutate (DeleteRecommendation 1)) sample_session).
  intros c. vm_compute. discriminate.
Defined.

(** ** The e-mail validator *)

Lemma eat_spec p lo hi k s : ∀ n prev,
  match hi with Some h => (n ≤ h)%nat | None => True end →
  Re.eat p lo hi k n prev s = true
  ↔ ∃ a b, s = a +:+ b
           ∧ string_forall p a = true
           ∧ (lo ≤ n + String.length a)%nat
           ∧ match hi with
             | Some h => (n + String.length a ≤ h)%nat
             | None => True
             end
           ∧ k (Re.last prev a) b = true.
Proof.
  induction s as [|c s IH]; intros n prev Hn; simpl.
  - split.
    + case_bool_decide; [|done]. destruct (k prev "") eqn:Hk; [|done].
      intros _. exists "", "". simpl. rewrite Nat.add_0_r.
      by repeat split.
    + intros (a & b & Hs & _ & Hlo & _ & Hk).
      destruct a; [|done]. change ("" +:+ b) with b in Hs. subst b.
      simpl in *. rewrite Nat.add_0_r in Hlo.
      by rewrite bool_decide_eq_true_2, Hk by done.
  - split.
    + destruct (if bool_decide (lo ≤ n)%nat then k prev (String c s) else false)
        eqn:Hstop.
      * intros _. case_bool_decide; [|done].
        exists "", (String c s). simpl. rewrite Nat.add_0_r.
        by repeat split.
      * destruct (Re.within n hi && p c) eqn:Hc; [|done].
        apply andb_true_iff in Hc as [Hw Hc].
        intros (a & b & -> & Ha & Hlo & Hhi & Hk)%IH.
        -- exists (String c a), b. simpl. rewrite Hc, Ha.
           rewrite Nat.add_succ_r. by repeat split.
        -- destruct hi as [h|]; [|done]. simpl in Hw.
           apply bool_decide_eq_true in Hw. lia.
    + intros (a & b & Hs & Ha & Hlo & Hhi & Hk). destruct a as [|c' a].
      * change ("" +:+ b) with b in Hs. subst b. simpl in *.
        rewrite Nat.add_0_r in Hlo.
        by rewrite bool_decide_eq_true_2, Hk by done.
      * rewrite string_app_cons in Hs. injection Hs as <- ->. simpl in *.
        apply andb_true_iff in Ha as [Hc Ha]. rewrite Nat.add_succ_r in Hlo.
        destruct (if bool_decide (lo ≤ n)%nat then _ else false); [done|].
        assert (Re.within n hi = true) as ->.
        { destruct hi as [h|]; [|done]. simpl. apply bool_decide_eq_true.
          lia. }
        rewrite Hc. simpl. apply IH.
        -- destruct hi as [h|]; [lia|done].
        -- exists a, b. rewrite Nat.add_succ_r in Hhi. by repeat split.
Qed.

Lemma string_forall_one x a :
  string_forall (λ c, bool_decide (c = x)) a = true →
  String.length a = 1%nat → a = String x "".
Proof.
  destruct a as [|c [|c' a]]; simpl; try done.
  intros Hc%andb_true_iff _. destruct Hc as [->%bool_decide_eq_true _]. done.
Qed.

Lemma last_nonempty prev prev' a :
  a ≠ "" → Re.last prev a = Re.last prev' a.
Proof. by destruct a. Qed.

Lemma next_app a b : a ≠ "" → Re.next (a +:+ b) = Re.next a.
Proof. by destruct a. Qed.

Lemma length_nonempty a : (1 ≤ String.length a)%nat ↔ a ≠ "".
Proof. destruct a; simpl; split; try done; lia. Qed.

(** X24. [email_valid] lets a value through exactly when it reads
    local@domain.top with nothing before or after: the local part is not
    empty, made of letters, digits and [._%+-], and begins with a word
    character (so not with one of [.%+-]); the domain is not empty and made
    of letters, digits, dots and hyphens; the top level has two to seven
    characters, each a letter or the bar [|], the last of them a word
    character (so not the bar). Anything else raises the [ValueError]. *)
Theorem email_valid_accepts value :
  (email_valid value = inl value
   ↔ ∃ local domain top,
       value = local +:+ "@" +:+ domain +:+ "." +:+ top
       ∧ local ≠ ""
       ∧ string_forall email_local local = true
       ∧ Re.word (Re.next local) = true
       ∧ domain ≠ ""
       ∧ string_forall email_domain domain = true
       ∧ (2 ≤ String.length top ≤ 7)%nat
       ∧ string_forall email_top_level top = true
       ∧ Re.word (Re.last None top) = true)
  ∧ (email_valid value = inl value
     ∨ email_valid value = inr "Not valid email address").
Proof.
  unfold email_valid. split; [|by destruct (Re.fullmatch _ _); auto].
  assert (Re.fullmatch email_regex value = true
          ↔ (if negb (Re.fullmatch email_regex value)
             then inr "Not valid email address" else inl value)
            = (inl value : string + string)) as <-.
  { by destruct (Re.fullmatch _ _). }
  unfold Re.fullmatch, email_regex.
  cbn [Re.fullmatch_from]. simpl (Re.word None). split.
  - destruct (xorb false _) eqn:Hb; [|done]. simpl in Hb.
    intros (local & b1 & -> & Hl & Hl1 & _ & H)%eat_spec; [|done].
    apply eat_spec in H as (at_ & b2 & -> & Hat & Hat1 & Hat2 & H); [|lia].
    apply string_forall_one in Hat as ->; [|simpl in *; lia].
    apply eat_spec in H as (domain & b3 & -> & Hd & Hd1 & _ & H); [|done].
    apply eat_spec in H as (dot & b4 & -> & Hdot & Hdot1 & Hdot2 & H); [|lia].
    apply string_forall_one in Hdot as ->; [|simpl in *; lia].
    apply eat_spec in H as (top & b5 & -> & Ht & Ht1 & Ht2 & H); [|lia].
    destruct (xorb _ _) eqn:Hb'; [|done].
    apply bool_decide_eq_true in H as ->. simpl in Hb'.
    rewrite xorb_false_r in Hb'.
    simpl in Hl1, Hd1, Ht1, Ht2.
    apply length_nonempty in Hl1, Hd1.
    rewrite next_app in Hb by done.
    exists local, domain, top. rewrite string_app_nil_r.
    repeat split; try done.
    rewrite <-Hb'. f_equal. apply last_nonempty, length_nonempty. lia.
  - intros (local & domain & top & -> & Hl1 & Hl & Hw & Hd1 & Hd & Ht1 & Ht
            & Hw').
    rewrite next_app by done. rewrite Hw. simpl.
    apply length_nonempty in Hl1, Hd1.
    apply eat_spec; [done|]. exists local, ("@" +:+ domain +:+ "." +:+ top).
    repeat split; try done.
    apply eat_spec; [lia|]. exists "@", (domain +:+ "." +:+ top).
    repeat split; try done; simpl; try lia.
    apply eat_spec; [done|]. exists domain, ("." +:+ top).
    repeat split; try done.
    apply eat_spec; [lia|]. exists ".", top.
    repeat split; try done; simpl; try lia.
    apply eat_spec; [lia|]. exists top, "". rewrite string_app_nil_r.
    repeat split; try done; simpl; try lia.
    rewrite xorb_false_r.
    rewrite (last_nonempty _ None) by (apply length_nonempty; lia).
    by rewrite Hw'.
Qed.

(** The bar is let through inside the top level, a leading dot is not, and
    neither is a second at-sign. *)
Example email_valid_cases :
  email_valid "john.doe@example.com" = inl "john.doe@example.com"
  ∧ email_valid "john@example.c|m" = inl "john@example.c|m"
  ∧ email_valid ".john@example.com" = inr "Not valid email address"
  ∧ email_valid "john@example.c|" = inr "Not valid email address"
  ∧ email_valid "john@doe@example.com" = inr "Not valid email address"
  ∧ email_valid "john@example.c" = inr "Not valid email address".
Proof. vm_compute. repeat split; reflexivity. Qed.

(** ** The timestamp of a created row *)

(** C9. In a process whose models were imported at clock readings
    [utcnow_1] (class [Recommendation]) and [utcnow_2] (class [Comment]),
    every recommendation the process has stored carries [utcnow_1] as
    [published] and every comment [utcnow_2]: any two recommendations, and
    any two comments, have the same [published] value. And rows do get
    created with those values, whatever the time [now] of the request: a
    comment posted to a recommendation that exists is stored with
    [utcnow_2], and a recommendation whose creation goes through (here:
    a body that passes the schema, labels that normalise to different
    names of 4 to 255 characters, a fiction type that is stored or has
    such a name and a free slug) is stored with [utcnow_1]. *)
Theorem published_fixed_at_import utcnow_1 utcnow_2 session :
  reachable (import_models utcnow_1 utcnow_2) session →
  (∀ i r, Session.recommendation session !! i = Some r →
          Recommendation.published r = utcnow_1)
  ∧ (∀ i c, Session.comment session !! i = Some c →
            Comment.published c = utcnow_2)
  ∧ (∀ i j r1 r2,
       Session.recommendation session !! i = Some r1 →
       Session.recommendation session !! j = Some r2 →
       Recommendation.published r1 = Recommendation.published r2)
  ∧ (∀ i j c1 c2,
       Session.comment session !! i = Some c1 →
       Session.comment session !! j = Some c2 →
       Comment.published c1 = Comment.published c2)
  ∧ (∀ now current_user recommendation_id data,
       is_Some (Session.recommendation session !! recommendation_id) →
       let after :=
         serve (import_models utcnow_1 utcnow_2) now current_user
           (PostComment recommendation_id data) session in
       status after.1 = HTTP_201_CREATED
       ∧ ∃ id c, Session.comment session !! id = None
                 ∧ Session.comment after.2 !! id = Some c
                 ∧ Comment.content c = CommentCreate.content data
                 ∧ Comment.published c = utcnow_2)
  ∧ (∀ now current_user data,
       RecommendationCreate.valid data = true →
       NoDup (normalize_tag <$> RecommendationCreate.tags data) →
       (∀ label, label ∈ RecommendationCreate.tags data →
                 (4 ≤ String.length (normalize_tag label) ≤ 255)%nat) →
       ((∃ k r, Session.fiction_type session !! k = Some r
                ∧ FictionType.name r
                  = normalize_fiction_type
                      (RecommendationCreate.fiction_type data))
        ∨ ((4 ≤ String.length
                  (normalize_fiction_type
                     (RecommendationCreate.fiction_type data)) ≤ 255)%nat
           ∧ ∀ k r, Session.fiction_type session !! k = Some r →
                    FictionType.slug r
                    ≠ Py.replace " " "-"
                        (normalize_fiction_type
                           (RecommendationCreate.fiction_type data)))) →
       let after :=
         serve (import_models utcnow_1 utcnow_2) now current_user
           (PostRecommendation data) session in
       status after.1 = HTTP_201_CREATED
       ∧ ∃ id r, Session.recommendation session !! id = None
                 ∧ Session.recommendation after.2 !! id = Some r
                 ∧ Recommendation.title r = RecommendationCreate.title data
                 ∧ Recommendation.published r = utcnow_1).
Proof.
  intros Hreach.
  assert (published_at_import (import_models utcnow_1 utcnow_2) session)
    as [Hrec Hcom].
  { induction Hreach as [|now u request s _ IH].
    - split; intros i x Hi; simpl in Hi; by rewrite lookup_empty in Hi.
    - by apply serve_published. }
  assert (referential_integrity session) as HI.
  { clear Hrec Hcom. induction Hreach as [|now u request s _ IH].
    - apply referential_integrity_empty.
    - by apply serve_integrity. }
  simpl in Hrec, Hcom.
  split; [done|]. split; [done|]. split; [|split; [|split]].
  - intros i j r1 r2 Hi Hj. by rewrite (Hrec _ _ Hi), (Hrec _ _ Hj).
  - intros i j c1 c2 Hi Hj. by rewrite (Hcom _ _ Hi), (Hcom _ _ Hj).
  - intros now current_user recommendation_id data [rec Hrec']. cbv zeta.
    simpl. unfold post_comment, get_recommendation_by_id, Session.insert_comment.
    rewrite Hrec'. simpl. split; [done|].
    eexists _, _. split; [apply next_id_fresh|].
    split; [apply lookup_insert_eq|]. done.
  - intros now current_user data _ Hnd Hlen Hft. cbv zeta. simpl.
    destruct (commit_new_recommendation_succeeds
                (RecommendationCreate.title data)
                (RecommendationCreate.short_description data)
                (RecommendationCreate.opinion data) utcnow_1
                (RecommendationCreate.fiction_type data)
                (RecommendationCreate.tags data) current_user session
                HI Hnd Hlen Hft) as [[[id row] s'] Hc].
    unfold post_recommendation, post_recommendation_between. cbv zeta.
    simpl. rewrite Hc. simpl. split; [done|].
    apply commit_new_recommendation_inv in Hc
      as (fid & s1 & ids & s2 & _ & _ & _ & -> & -> & Hr & _).
    eexists _, _. split; [apply next_id_fresh|].
    split; [by rewrite Hr, lookup_insert_eq|]. done.
Qed.

Lemma published_fixed_at_import_witness :
  (status (serve sample_models 5000 bob
             (PostComment 1 (CommentCreate.mk "Late")) sample_posts).1
   = HTTP_201_CREATED
   ∧ ∃ id c,
       Session.comment sample_posts !! id = None
       ∧ Session.comment
           (serve sample_models 5000 bob
              (PostComment 1 (CommentCreate.mk "Late")) sample_posts).2 !! id
         = Some c
       ∧ Comment.content c = "Late"
       ∧ Comment.published c = 1001)
  ∧ (status (serve sample_models 6000 bob
               (PostRecommendation sample_create_slug) sample_posts).1
     = HTTP_201_CREATED
     ∧ ∃ id r,
         Session.recommendation sample_posts !! id = None
         ∧ Session.recommendation
             (serve sample_models 6000 bob
                (PostRecommendation sample_create_slug) sample_posts).2 !! id
           = Some r
         ∧ Recommendation.title r = "The Dead"
         ∧ Recommendation.published r = 1000).
Proof.
  destruct (published_fixed_at_import 1000 1001 sample_posts)
    as (_ & _ & _ & _ & Hcomment & Hrecommendation).
  { unfold sample_posts.
    apply (reachable_serve sample_models), (reachable_serve sample_models),
      (reachable_serve sample_models), (reachable_serve sample_models),
      reachable_empty. }
  split.
  - apply (Hcomment 5000 bob 1 (CommentCreate.mk "Late")).
    vm_compute. eauto.
  - apply (Hrecommendation 6000 bob sample_create_slug).
    + reflexivity.
    + vm_compute. apply NoDup_cons. split; [|apply NoDup_nil_2].
      apply not_elem_of_nil.
    + intros label Hin. simpl in Hin.
      apply elem_of_cons in Hin as [->|Hin]; [|by apply elem_of_nil in Hin].
      vm_compute. lia.
    + right. split; [vm_compute; lia|]. intros k r Hk Hslug.
      apply (first_is_Some
               (λ _ r, bool_decide
                         (FictionType.slug r
                          = Py.replace " " "-"
                              (normalize_fiction_type
                                 (RecommendationCreate.fiction_type
                                    sample_create_slug))))) in Hk
        as [x Hx]; [|by apply bool_decide_eq_true].
      vm_compute in Hx. discriminate.
Defined.
